(* ===== verification/_CoqProject ===== *)
-Q . S2P
Prelude.v
Intl.v
Suffix.v
Format.v
FormatSpec.v
Clean.v
Cursor.v
RoundTrip.v
Currency.v
Props.v
Component.v
App.v
