(* ===== verification/Prelude.v ===== *)
(** * A verification development for react-native-currency-input

    The program (src/) is a React Native currency field.  Its parts:
    - the value formatter [formatValue] (src/src/utils/formatValue.ts),
      which sends a normalized value through the host's [Intl.NumberFormat]
      and rewrites the parts it returns ([replaceParts],
      [replaceDecimalSeparator]), then puts back the typed fraction and
      places the decimal separator and the suffix;
    - the caret helper [repositionCursor] (src/src/utils/repositionCursor.ts);
    - the component [CurrencyInput] (src/src/components/CurrencyInput.tsx),
      which validates its props, keeps React state (shown value, dirty
      flag, last key, selection, change count) and, per keystroke, runs
      [repositionCursor], then [cleanValue], then [formatValue], then the
      caret arithmetic, then a selection effect;
    - helpers imported from [@/src/utils] whose files are not among the
      sources: [cleanValue], [getSuffix], [getLocaleConfig], [isNumber],
      [fixedDecimalValue], [padTrimValue].  They are modelled from the spec
      (sections 2-4 and 6) and marked spec-modelled in the manifest.

    ** Files, in dependency order
    - [Prelude] (this file): JS strings as [list ascii] (one code unit per
      [ascii]: ASCII and Latin-1), truthiness, the [String.prototype]
      methods the code calls ([startsWith], [indexOf], [includes],
      [slice], [replace] with its [$] patterns), global regex replacement
      as a left-to-right scanner [gsub], an error monad [result] with
      [let!] for code that can throw, the [js] hint databases and the
      shared list lemmas.
    - [Intl]: the host primitives [Number], [parseFloat],
      [Intl.NumberFormat] and [formatToParts] on decimal literals, with
      locales as data behind the [LocaleResolver] class (the injected
      capability of spec section 9); en-US, de-DE and en-IN as examples.
    - [Suffix]: [getSuffix] (spec 4.4).
    - [Format], Module [FormatValue]: [formatValue], [replaceParts] and
      its reducer, [replaceDecimalSeparator], and the regexes of lines 78,
      114 and 119 as scanners.  The formatter's result is [result str]:
      [Intl.NumberFormat] throws [RangeError].
    - [FormatSpec], Module [FormatSpec]: what each Intl part contributes
      to [replaceParts]' text, with the theorem that the group-separator
      options are dead, and the language of the regex of line 78 with the
      proof that the scanner decides it.
    - [Clean], Module [CleanValue]: [cleanValue] (spec 4.1).
    - [Cursor], Module [RepositionCursor]: [repositionCursor] and the caret
      arithmetic [newCursor] of [processChange].
    - [RoundTrip], Module [RoundTrip]: normalized values, the abstract
      display [display], the refinement proofs, and the grammar of the
      cleaner's output.
    - [Currency], Module [Currency]: the formatter in locales that write
      the currency symbol after the number (de-DE USD, [1.234,5 $]), where
      [getSuffix] reads the symbol back as [intlSuffix] and an explicit
      suffix replaces it; and the round trip [cleanValue (formatValue v)]
      in those locales.
    - [Props], Module [CurrencyInputConfig]: the props type
      ([RawProps]), the destructuring with its defaults ([with_defaults]),
      and the render prologue [configure] with its option bags.  It also
      holds the blur helpers [fixedDecimalValue] and [padTrimValue].
    - [Component], Module [CurrencyInput]: the component as a state
      machine.  [State] holds the [useState] hooks; each handler maps a
      state to a state and the callbacks it makes ([output]); [step] is one
      event followed by the selection effect; [reachable] and
      [eventually] are the inductive step relations; [props_change] is a
      render with new props and the effect of lines 276-280.
    - [App], Module [ExampleApp]: the example app of src/src/app.
      [Layout] is the list of screens of [_layout.tsx] and [route_of_name]
      is expo-router's resolution of a screen name to a file.
      [route_props] gives each screen's props: those of [example.tsx], or
      none for [index.ts], whose default export is the component itself.
      [exports] is the record of the package's exports in [index.ts], and
      [mount] is a screen's first render (computed for both screens).

    ** What is proved
    - Refinement and round trip ([RoundTrip]): [formatValue] implements
      [display] for every normalized value with at most ten fraction
      digits, in every locale whose decimal separator is one non-digit
      character absent from the prefix and the group mark, and which has
      no currency style or writes its symbol first without a literal (en-US
      USD; the prefix takes the symbol's place, and the component always
      gives one there: [CurrencyInput.configured_currency_ok]).
      [cleanValue] inverts [display].  Hence clean after format is the
      identity, and format after clean after format is format (spec
      section 8).  The theorems that go through [Number] and [Intl] hold
      for values of at most 15 digits ([RoundTrip.fits_double]); see
      "Bounds".
    - Currency written last ([Currency]): the output is the number, then
      the explicit suffix if one is given (spec section 8, "currency +
      suffix precedence") and the locale's literal and symbol otherwise;
      with an explicit suffix this holds when Intl keeps the fraction.
    - Cursor ([Cursor]): what [Backspace] and the other keys do, and the
      bounds of the computed caret.
    - Equivalence ([FormatSpec]): the scanner [isNegative] decides the
      regex of line 78.
    - Formatter options ([Format], [FormatSpec]): for every value Intl
      formats, [groupSeparator] and [disableGroupSeparators] change nothing
      (spec 4.2 says they replace or drop the locale's marks), and every
      [decimalScale] outside 0..10 makes [formatValue] throw [RangeError].
    - Type ([Component], via [RoundTrip]): the value [processChange]
      cleans is always ["-"] or a string of the normalized-value grammar.
    - Component ([Component], [Props]):
      - invariants by rule induction on [reachable]: the field holds a
        mid-entry value or a formatter output, and [cursor] stays 0;
      - the [maxLength] rejection and the count of [onValueChange] calls;
      - the mid-entry branch, and stability of the field on its own
        display;
      - a rejected keystroke on a field not yet edited marks it dirty and
        moves the caret (spec 7 (c) says it changes nothing);
      - [lastKeyStroke] is changed by key presses only, never cleared;
      - no event sequence throws once the locale resolves;
      - liveness: from every state the field can be cleared;
      - termination of the effect cascade: a selection change or a key
        press re-runs no effect;
      - the settle pass on blur gives exactly [fixedDecimalLength]
        decimals;
      - clearing the [value] prop clears the field;
      - the configuration errors of spec section 7.
    - Findings (see the manifest).  Some follow from the theorems above:
      the dead group-separator options, the [RangeError] of
      [decimalScale], [Backspace] deleting a second digit, the rejected
      keystroke, [lastKeyStroke] never cleared, the negativity regex.
      Others are computed on a concrete input in an [Example]:
      - a decimal comma is mangled under an en-US locale;
      - a rounding carry is appended to the typed fraction;
      - ["-."] shows ["NaN."];
      - the caret lands past the end after the first digit with a prefix;
      - the spec's cursor scenario gives a different caret;
      - a controlled value loses its [decimalScale] padding after the
        first edit;
      - with the currency written last and an explicit suffix, [1,0]
        shows as [1 USD,0] and [1,] as [1 $, USD];
      - the suffix is a replacement pattern of [String.prototype.replace],
        so a [$&] in it expands.

    ** Bounds and fuel
    - Fraction digits: [maximumFractionDigits] is 10, as the code passes
      it.  The refinement theorems assume at most 10 typed fraction digits;
      beyond that, Intl rounds, which is the carry finding.
    - Numbers: [js_Number], [parse_float] and [format_to_parts] compute
      with exact decimals, where the host has IEEE doubles.  A decimal of
      at most 15 digits (DBL_DIG) is the shortest representation of the
      double [Number] gives for it, and that representation is what V8 and
      ICU print, so the model agrees with the program there.  Every theorem
      whose statement goes through [Number] or [Intl] on a typed value
      (refinement, round trip, idempotence, the component's display, the
      currency-last locales) carries [fits_double v = true].  Beyond 15
      digits the program shows the double's digits and the spec's round
      trip fails (a finding); the model does not compute doubles.
    - Fuel: the grouping recursion [group_rest] takes [length] of the
      digit string as fuel.  That is enough because each step removes at
      least one digit.  Every other recursion is structural.

    ** Not modelled
    - In the example app: the unused [StyleSheet.create({})] values, the
      [placeholder] prop and the body of the [console.log] callback.  The
      type-only re-exports of [index.ts] have no runtime content.
    - Intl's locale data beyond the example locales: a locale is data
      behind [LocaleResolver], and the theorems hold for every resolver.
    - [console.log] calls.
    - Props that only reach the native [TextInput]: [style],
      [placeholder], [disabled] (as [editable]) and the rest of [...props].
    - The imperative ref handle (line 124), which only exposes the input.
    - [String(number)] for numeric [value]/[defaultValue] props: the
      model receives the string.
    - Exponents and [Infinity] in number literals.
    - Code units above U+00FF. *)

From Stdlib Require Import Ascii String List Arith Lia ZArith Bool.
Import ListNotations.

(** ** JS strings

    A JS string is a sequence of UTF-16 code units.  We model it as a
    [list ascii], one [ascii] per code unit; the model therefore covers the
    code units below 256 (ASCII and Latin-1, which includes the no-break
    space U+00A0 that Intl inserts before trailing currency symbols). *)
Definition str := list ascii.

(** String literals are written [js "..."]. *)
Definition js (s : string) : str := list_ascii_of_string s.

Declare Scope js_scope.
Delimit Scope js_scope with js.

Definition str_eqb (a b : str) : bool :=
  if list_eq_dec ascii_dec a b then true else false.

Notation "a =s? b" := (str_eqb a b) (at level 70, no associativity) : js_scope.

(** JS truthiness of a string: every string but [''] is truthy.  An
    optional string option ([prefix?: string]) is modelled by [str] with
    [undefined] read as [''] wherever the source only tests truthiness. *)
Definition truthy (s : str) : bool := match s with [] => false | _ => true end.

Open Scope js_scope.

(** ** Characters *)

(** [\d] of a non-unicode JS regex: the ASCII digits. *)
Definition is_digit (c : ascii) : bool :=
  let n := nat_of_ascii c in (48 <=? n) && (n <=? 57).

Definition has_digit (s : str) : bool := existsb is_digit s.
Definition all_digits (s : str) : bool := forallb is_digit s.
Definition mem_char (c : ascii) (s : str) : bool := existsb (Ascii.eqb c) s.

(** ** String.prototype methods *)

(** [s.startsWith(p)] *)
Fixpoint starts_with (s p : str) {struct p} : bool :=
  match p, s with
  | [], _ => true
  | c :: p', d :: s' => Ascii.eqb c d && starts_with s' p'
  | _ :: _, [] => false
  end.

(** [s.indexOf(p)], [None] for [-1]. *)
Fixpoint index_of (s p : str) : option nat :=
  if starts_with s p then Some 0
  else match s with
       | [] => None
       | _ :: s' => option_map S (index_of s' p)
       end.

(** [s.includes(p)] *)
Definition includes (s p : str) : bool :=
  match index_of s p with Some _ => true | None => false end.

(** [s.slice(-1)] *)
Definition last_char (s : str) : str :=
  match rev s with [] => [] | c :: _ => [c] end.

(** [s.slice(0, n)] for an integer [n]: a negative end counts from the end. *)
Definition slice0 (s : str) (n : Z) : str :=
  if (n <? 0)%Z then firstn (Z.to_nat (Z.of_nat (length s) + n)) s
  else firstn (Z.to_nat n) s.

(** The longest prefix of digits ([\d+] taken greedily, possibly empty). *)
Fixpoint digit_run (s : str) : str :=
  match s with
  | c :: s' => if is_digit c then c :: digit_run s' else []
  | [] => []
  end.

(** ** Replacement

    [GetSubstitution] of ECMAScript for a match without capture groups:
    [$$], [$&], [$`] and [$'] are expanded, every other [$] is literal. *)
Fixpoint get_substitution (matched before after r : str) : str :=
  match r with
  | c :: r' =>
      if Ascii.eqb c "$" then
        match r' with
        | d :: r'' =>
            if Ascii.eqb d "$" then "$"%char :: get_substitution matched before after r''
            else if Ascii.eqb d "&" then matched ++ get_substitution matched before after r''
            else if Ascii.eqb d "`" then before ++ get_substitution matched before after r''
            else if Ascii.eqb d "'" then after ++ get_substitution matched before after r''
            else c :: get_substitution matched before after r'
        | [] => [c]
        end
      else c :: get_substitution matched before after r'
  | [] => []
  end.

(** A replacement string with no [$] pattern: [GetSubstitution] copies it. *)
Fixpoint plain_repl (r : str) : bool :=
  match r with
  | c :: r' =>
      (negb (Ascii.eqb c "$")
       || match r' with d :: _ => negb (mem_char d (js "$&`'")) | [] => true end)
      && plain_repl r'
  | [] => true
  end.

(** [s.replace(pat, repl)] with a string pattern: the first occurrence. *)
Definition replace_first (s pat repl : str) : str :=
  match index_of s pat with
  | None => s
  | Some i =>
      let before := firstn i s in
      let after := skipn (i + length pat) s in
      before ++ get_substitution pat before after repl ++ after
  end.

(** A global regex replacement [s.replace(/re/g, ...)] as a left-to-right
    scan: [m] tries the regex at the start of the remaining input and
    returns the length of the match (at least 1 for the regexes of the
    source) and its replacement; after a match the scan resumes at its end
    ([k] counts the characters still to skip). *)
Fixpoint gsub (m : str -> option (nat * str)) (s : str) (k : nat) : str :=
  match s with
  | [] => []
  | c :: s' =>
      match k with
      | S k' => gsub m s' k'
      | O =>
          match m s with
          | Some (n, r) => r ++ gsub m s' (n - 1)
          | None => c :: gsub m s' 0
          end
      end
  end.

(** The matcher of a literal (escaped) pattern. *)
Definition lit_matcher (pat repl : str) (s : str) : option (nat * str) :=
  if starts_with s pat then Some (length pat, repl) else None.

(** [s.replace(RegExp(escapeRegExp(pat), 'g'), repl)] for a replacement
    without [$]; an empty pattern matches before every code unit and at
    the end. *)
Fixpoint interleave (repl s : str) : str :=
  match s with
  | [] => repl
  | c :: s' => repl ++ c :: interleave repl s'
  end.

Definition replace_all (s pat repl : str) : str :=
  match pat with
  | [] => interleave repl s
  | _ => gsub (lit_matcher pat repl) s 0
  end.

(** Groups joined by a separator. *)
Definition join (sep : str) (groups : list str) : str :=
  match groups with
  | [] => []
  | g :: gs => g ++ flat_map (fun g' => sep ++ g') gs
  end.

Definition ends_digit (s : str) : bool :=
  match rev s with c :: _ => is_digit c | [] => false end.

(** ** Errors

    The functions that can throw return a [result]: [Throw] carries the
    exception the JS code raises. *)
Inductive js_error : Type :=
| RangeError
| Error (msg : str).

Inductive result (A : Type) : Type :=
| Ok (a : A)
| Throw (e : js_error).
Arguments Ok {A} a.
Arguments Throw {A} e.

Definition rbind {A B} (r : result A) (k : A -> result B) : result B :=
  match r with Ok a => k a | Throw e => Throw e end.

Notation "'let!' x ':=' r 'in' k" := (rbind r (fun x => k))
  (at level 61, x name, r at level 100, k at level 200, right associativity) : js_scope.

(** ** Generic lemmas *)

Create HintDb js discriminated.
Create Rewrite HintDb js_simpl.

Lemma str_eqb_spec (a b : str) : reflect (a = b) (a =s? b).
Proof. unfold str_eqb. destruct (list_eq_dec ascii_dec a b); constructor; auto. Qed.

Lemma str_eqb_refl (a : str) : (a =s? a) = true.
Proof. destruct (str_eqb_spec a a); congruence. Qed.

Lemma str_eqb_eq (a b : str) : (a =s? b) = true <-> a = b.
Proof. destruct (str_eqb_spec a b); split; congruence. Qed.

Lemma str_eqb_neq (a b : str) : a <> b -> (a =s? b) = false.
Proof. destruct (str_eqb_spec a b); congruence. Qed.

Lemma starts_with_app (p s : str) : starts_with (p ++ s) p = true.
Proof. induction p; simpl; [reflexivity|]. rewrite Ascii.eqb_refl. exact IHp. Qed.

Lemma starts_with_true (s p : str) :
  starts_with s p = true -> s = p ++ skipn (length p) s.
Proof.
  revert s; induction p as [|c p IH]; intros [|d s] H; simpl in *; try easy.
  apply andb_prop in H as [Hc Hs]. apply Ascii.eqb_eq in Hc. subst.
  f_equal. now apply IH.
Qed.

Lemma digit_run_all (d s : str) :
  all_digits d = true -> digit_run (d ++ s) = d ++ digit_run s.
Proof.
  induction d as [|c d IH]; simpl; [reflexivity|].
  intros H. apply andb_prop in H as [Hc Hd]. rewrite Hc. f_equal. auto.
Qed.

Lemma digit_run_stop (c : ascii) (s : str) :
  is_digit c = false -> digit_run (c :: s) = [].
Proof. simpl. intros ->. reflexivity. Qed.

Lemma gsub_skip (m : str -> option (nat * str)) (s : str) (k : nat) :
  length s <= k -> gsub m s k = [].
Proof.
  revert k; induction s as [|c s IH]; intros k H; simpl; [reflexivity|].
  destruct k as [|k]; simpl in H; [lia|]. apply IH. lia.
Qed.

Lemma rbind_ok {A B} (a : A) (k : A -> result B) : rbind (Ok a) k = k a.
Proof. reflexivity. Qed.

Lemma filter_none (f : ascii -> bool) (l : str) :
  forallb (fun c => negb (f c)) l = true -> filter f l = [].
Proof.
  induction l as [|c l IH]; simpl; [reflexivity|].
  intros H. apply andb_prop in H as [Hc Hl]. destruct (f c); [discriminate|]. auto.
Qed.

Lemma filter_all (f : ascii -> bool) (l : str) :
  forallb f l = true -> filter f l = l.
Proof.
  induction l as [|c l IH]; simpl; [reflexivity|].
  intros H. apply andb_prop in H as [Hc Hl]. rewrite Hc. f_equal. auto.
Qed.

(** A global replacement of a pattern made of characters that [f] rejects
    by the empty string keeps exactly the characters [f] keeps. *)
Lemma filter_gsub_erase (f : ascii -> bool) (p s : str) (k : nat) :
  p <> [] -> forallb (fun c => negb (f c)) p = true ->
  filter f (gsub (lit_matcher p []) s k) = filter f (skipn k s).
Proof.
  intros Hp Hf. revert k; induction s as [|c s IH]; intros k; simpl.
  - destruct k; reflexivity.
  - destruct k as [|k]; [|apply IH].
    unfold lit_matcher at 1. destruct (starts_with (c :: s) p) eqn:Hs.
    + cbn [app]. rewrite IH. apply starts_with_true in Hs.
      change (skipn 0 (c :: s)) with (c :: s).
      replace (filter f (c :: s)) with (filter f (p ++ skipn (length p) (c :: s)))
        by (rewrite <- Hs; reflexivity).
      rewrite filter_app, (filter_none f p Hf).
      destruct p as [|a p]; [congruence|]. simpl. rewrite Nat.sub_0_r. reflexivity.
    + simpl. rewrite IH. reflexivity.
Qed.

(** A global replacement of a one-character pattern is a map. *)
Lemma gsub_lit_char (c : ascii) (r s : str) :
  gsub (lit_matcher [c] r) s 0 = flat_map (fun x => if Ascii.eqb c x then r else [x]) s.
Proof.
  induction s as [|x s IH]; [reflexivity|].
  assert (Hm : lit_matcher [c] r (x :: s) = if Ascii.eqb c x then Some (1, r) else None).
  { unfold lit_matcher. simpl. rewrite andb_true_r. destruct (Ascii.eqb c x); reflexivity. }
  cbn [gsub flat_map]. rewrite Hm. destruct (Ascii.eqb c x); simpl; rewrite IH; reflexivity.
Qed.

Lemma flat_map_id_if (c : ascii) (r s : str) :
  mem_char c s = false -> flat_map (fun x => if Ascii.eqb c x then r else [x]) s = s.
Proof.
  induction s as [|x s IH]; simpl; [reflexivity|].
  intros H. apply orb_false_iff in H as [Hx Hs]. rewrite Hx. simpl. f_equal. auto.
Qed.

Lemma mem_char_app (c : ascii) (a b : str) : mem_char c (a ++ b) = mem_char c a || mem_char c b.
Proof. unfold mem_char. apply existsb_app. Qed.

(** A string that is not all digits stops its digit run inside itself. *)
Lemma digit_run_not_all (x y : str) :
  all_digits x = false -> digit_run (x ++ y) = digit_run x /\ length (digit_run x) < length x.
Proof.
  induction x as [|c x IH]; simpl; [discriminate|].
  destruct (is_digit c); simpl; [|split; [reflexivity|lia]].
  intros H. destruct (IH H) as [H1 H2]. split; [congruence|lia].
Qed.

Lemma digit_run_all_nil (d : str) : all_digits d = true -> digit_run d = d.
Proof. intros H. rewrite <- (app_nil_r d) at 1. rewrite digit_run_all by exact H. apply app_nil_r. Qed.

Lemma starts_with_char (s : str) (c : ascii) :
  starts_with s [c] = match s with x :: _ => Ascii.eqb c x | [] => false end.
Proof. destruct s; simpl; [reflexivity|]. apply andb_true_r. Qed.

(** Past a position inside [x], a string [x ++ y] does not start with a
    character absent from [x]. *)
Lemma starts_with_skipn_absent (x y : str) (c : ascii) (k : nat) :
  mem_char c x = false -> k < length x -> starts_with (skipn k (x ++ y)) [c] = false.
Proof.
  revert k; induction x as [|a x IH]; intros k Hm Hk; simpl in *; [lia|].
  apply orb_false_iff in Hm as [Ha Hx].
  destruct k as [|k]; simpl.
  - rewrite Ha. reflexivity.
  - apply IH; [exact Hx|lia].
Qed.

Lemma skipn_app_length (x y : str) : skipn (length x) (x ++ y) = y.
Proof. induction x; simpl; auto. Qed.

Lemma ends_digit_app (x y : str) : y <> [] -> ends_digit (x ++ y) = ends_digit y.
Proof.
  intros Hy. unfold ends_digit. rewrite rev_app_distr.
  destruct (rev y) eqn:E; [|reflexivity].
  apply (f_equal (@rev _)) in E. rewrite rev_involutive in E. simpl in E. congruence.
Qed.

Lemma ends_digit_app_r (x y : str) : ends_digit y = true -> ends_digit (x ++ y) = true.
Proof.
  intros H. rewrite ends_digit_app; [exact H|]. intros E. subst. discriminate.
Qed.

Lemma ends_digit_all (y : str) : all_digits y = true -> y <> [] -> ends_digit y = true.
Proof.
  intros Hy Hne. unfold ends_digit, all_digits in *.
  destruct (rev y) as [|c r] eqn:E.
  - apply (f_equal (@rev _)) in E. rewrite rev_involutive in E. simpl in E. congruence.
  - rewrite forallb_forall in Hy. apply Hy. apply in_rev. rewrite E. left. reflexivity.
Qed.

Lemma ends_digit_nonempty (s : str) : ends_digit s = true -> s <> [].
Proof. intros H E. subst. discriminate. Qed.

Lemma ends_digit_flat_map (sep : str) (groups : list str) :
  groups <> [] -> Forall (fun g => g <> [] /\ all_digits g = true) groups ->
  ends_digit (flat_map (fun g => sep ++ g) groups) = true.
Proof.
  induction groups as [|g gs IH]; intros Hne H; [congruence|].
  inversion H as [|? ? [Hg Hd] H']; subst. simpl.
  destruct gs as [|g' gs].
  - simpl. rewrite app_nil_r, ends_digit_app by exact Hg. apply ends_digit_all; assumption.
  - assert (IH' := IH ltac:(discriminate) H').
    rewrite ends_digit_app by (apply ends_digit_nonempty; exact IH'). exact IH'.
Qed.

Lemma ends_digit_join (sep : str) (groups : list str) :
  groups <> [] -> Forall (fun g => g <> [] /\ all_digits g = true) groups ->
  ends_digit (join sep groups) = true.
Proof.
  intros Hne H. destruct groups as [|g gs]; [congruence|].
  inversion H as [|? ? [Hg Hd] H']; subst. simpl.
  destruct gs as [|g' gs].
  - simpl. rewrite app_nil_r. apply ends_digit_all; assumption.
  - assert (E := ends_digit_flat_map sep (g' :: gs) ltac:(discriminate) H').
    rewrite ends_digit_app by (apply ends_digit_nonempty; exact E). exact E.
Qed.

Lemma index_of_first (c : ascii) (x y : str) :
  mem_char c x = false -> index_of (x ++ c :: y) [c] = Some (length x).
Proof.
  induction x as [|a x IH]; intros H; simpl.
  - rewrite Ascii.eqb_refl. reflexivity.
  - apply orb_false_iff in H as [Ha Hx]. rewrite Ha. simpl. rewrite IH by exact Hx. reflexivity.
Qed.

Lemma index_of_absent (c : ascii) (x : str) : mem_char c x = false -> index_of x [c] = None.
Proof.
  induction x as [|a x IH]; intros H; simpl; [reflexivity|].
  apply orb_false_iff in H as [Ha Hx]. rewrite Ha. simpl. rewrite IH by exact Hx. reflexivity.
Qed.

Lemma mem_char_all_digits (c : ascii) (x : str) :
  is_digit c = false -> all_digits x = true -> mem_char c x = false.
Proof.
  intros Hc Hx. induction x as [|a x IH]; simpl; [reflexivity|].
  simpl in Hx. apply andb_prop in Hx as [Ha Hx].
  destruct (Ascii.eqb_spec c a); [subst; congruence|]. simpl. auto.
Qed.

(** A pattern found at the first position of its first character. *)
Lemma index_of_at_head (c : ascii) (x p y : str) :
  mem_char c x = false -> index_of (x ++ c :: p ++ y) (c :: p) = Some (length x).
Proof.
  induction x as [|a x IH]; intros H.
  - simpl. rewrite Ascii.eqb_refl, starts_with_app. reflexivity.
  - apply orb_false_iff in H as [Ha Hx]. cbn [app index_of starts_with].
    rewrite Ha. simpl. rewrite IH by exact Hx. reflexivity.
Qed.

(** A scan that skips exactly the first part resumes at the second. *)
Lemma gsub_app_skip (m : str -> option (nat * str)) (x y : str) :
  gsub m (x ++ y) (length x) = gsub m y 0.
Proof. induction x as [|c x IH]; [reflexivity|]. exact IH. Qed.

Lemma digit_run_no_digit (t : str) :
  forallb (fun c => negb (is_digit c)) t = true -> digit_run t = [].
Proof.
  destruct t as [|c t]; [reflexivity|]. cbn [forallb]. intros H.
  apply andb_prop in H as [H _]. apply negb_true_iff in H. apply digit_run_stop. exact H.
Qed.

Lemma get_substitution_plain (matched before after r : str) :
  plain_repl r = true -> get_substitution matched before after r = r.
Proof.
  induction r as [|c r IH]; intros H; [reflexivity|].
  cbn [plain_repl] in H. apply andb_prop in H as [Hc H]. cbn [get_substitution].
  destruct (Ascii.eqb_spec c "$") as [->|Hne]; [|rewrite IH by exact H; reflexivity].
  destruct r as [|d r'']; [reflexivity|].
  repeat match goal with
  | |- context [if Ascii.eqb d ?x then _ else _] =>
      destruct (Ascii.eqb_spec d x); [subst d; simpl in Hc; discriminate|]
  end.
  rewrite IH by exact H. reflexivity.
Qed.

(** [replace] with a string pattern found at the first occurrence of its
    first character. *)
Lemma replace_first_head (c : ascii) (x p y repl : str) :
  mem_char c x = false -> plain_repl repl = true ->
  replace_first (x ++ c :: p ++ y) (c :: p) repl = x ++ repl ++ y.
Proof.
  intros Hx Hr. unfold replace_first. rewrite index_of_at_head by exact Hx. cbv zeta.
  rewrite firstn_app, firstn_all, Nat.sub_diag, firstn_O, app_nil_r.
  rewrite get_substitution_plain by exact Hr.
  replace (length x + length (c :: p)) with (length (x ++ c :: p)) by (rewrite length_app; reflexivity).
  change (x ++ c :: p ++ y) with (x ++ (c :: p) ++ y).
  rewrite (app_assoc x (c :: p) y), skipn_app_length. reflexivity.
Qed.

Lemma replace_first_tail (c : ascii) (x p repl : str) :
  mem_char c x = false -> plain_repl repl = true ->
  replace_first (x ++ c :: p) (c :: p) repl = x ++ repl.
Proof.
  intros Hx Hr. assert (H := replace_first_head c x p [] repl Hx Hr).
  rewrite !app_nil_r in H. exact H.
Qed.

#[export] Hint Rewrite str_eqb_refl starts_with_app skipn_app_length @rbind_ok : js_simpl.
#[export] Hint Resolve str_eqb_refl starts_with_app : js.

(** [str_case] splits on the string comparisons of the goal. *)
Ltac str_case :=
  match goal with
  | |- context [str_eqb ?a ?b] => destruct (str_eqb_spec a b)
  end.
