(* ===== verification/Intl.v ===== *)
(** * Intl: the locale number-formatting primitive

    [formatValue] (src/src/utils/formatValue.ts, lines 89-106) builds an
    [Intl.NumberFormat] and calls [formatToParts(Number(value))].  Neither
    is code of the repository: they are the host's ECMAScript and ECMA-402
    implementations, modelled here from those standards for the inputs the
    formatter feeds them.

    - [js_Number] is [Number(string)] on decimal literals
      ([-12.5], [.5], [5.]); exponents, [Infinity] and [0x]/[0o]/[0b]
      literals are outside the model and give [JNaN].  The value is kept as
      an exact decimal (sign, integer digits, fraction digits), where the
      host computes the nearest double.  The two agree in what Intl
      prints for literals of at most 15 digits, the bound every theorem
      that depends on them carries ([RoundTrip.fits_double]).
    - A locale is a [locale_data] record (minus sign, group and decimal
      marks, grouping sizes, currency pattern); the [LocaleResolver] class
      is the interface through which the formatter obtains one for an
      [intlConfig] (ECMA-402's locale and currency resolution), [None]
      standing for the [RangeError] of an invalid tag or currency code.
    - [format_to_parts] rounds half-expand to [maximumFractionDigits] = 10,
      drops trailing zeros down to [minimumFractionDigits], groups the
      integer digits and emits the parts in the order of the locale
      pattern; [make_number_format] throws [RangeError] when
      [minimumFractionDigits] is outside [0..10]. *)

From Stdlib Require Import Ascii String List Arith Lia ZArith Bool.
Import ListNotations.
From S2P Require Import Prelude.
Open Scope js_scope.

(** ** Parts *)

(** [Intl.NumberFormatPart['type']], the constructors the locales of the
    model produce. *)
Inductive part_type : Type :=
| PMinusSign | PPlusSign | PInteger | PGroup | PDecimal | PFraction
| PCurrency | PLiteral | PNan.

Record part : Type := mkPart { ptype : part_type; pvalue : str }.

(** ** Locales *)

Record currency_pattern : Type := {
  cur_symbol : str;   (** the symbol of the configured currency *)
  cur_before : bool;  (** symbol before the number ([$1]) or after ([1 €]) *)
  cur_space : str     (** the literal between symbol and number, maybe [''] *)
}.

Record locale_data : Type := {
  ld_minus : str;
  ld_group : str;
  ld_decimal : str;
  ld_primary : nat;        (** size of the lowest integer group *)
  ld_secondary : nat;      (** size of the other groups *)
  ld_min_grouping : nat;   (** minimum grouping digits of the locale *)
  ld_currency : option currency_pattern  (** [style: 'currency'] *)
}.

(** [IntlConfig] of src/src/components/CurrencyInputProps.ts. *)
Record IntlConfig : Type := { locale : str; currency : option str }.

(** Locale and currency resolution: [resolve_locale None] is the host's
    default locale ([new Intl.NumberFormat(undefined, ...)]), [None] as a
    result is the [RangeError] of an invalid locale or currency code. *)
Class LocaleResolver : Type := {
  resolve_locale : option IntlConfig -> option locale_data
}.

(** ** Number(string) *)

Inductive jsnum : Type :=
| JNaN
| JNum (neg : bool) (ip fp : str).  (** [-]ip.fp, digit strings *)

(** ECMAScript [StrWhiteSpaceChar] below U+0100. *)
Definition is_js_space (c : ascii) : bool :=
  let n := nat_of_ascii c in
  (n =? 9) || (n =? 10) || (n =? 11) || (n =? 12) || (n =? 13) || (n =? 32)
  || (n =? 160).

Fixpoint trim_start (s : str) : str :=
  match s with
  | c :: s' => if is_js_space c then trim_start s' else s
  | [] => []
  end.

Definition trim (s : str) : str := rev (trim_start (rev (trim_start s))).

(** The unsigned decimal literal [digits [. digits]] with at least one digit. *)
Definition parse_unsigned (neg : bool) (body : str) : jsnum :=
  let ip := digit_run body in
  match skipn (length ip) body with
  | [] => if truthy ip then JNum neg ip [] else JNaN
  | c :: r =>
      if Ascii.eqb c "." then
        let fp := digit_run r in
        match skipn (length fp) r with
        | [] => if truthy ip || truthy fp then JNum neg ip fp else JNaN
        | _ => JNaN
        end
      else JNaN
  end.

Definition js_Number (s : str) : jsnum :=
  match trim s with
  | [] => JNum false [] []
  | c :: r =>
      if Ascii.eqb c "-" then parse_unsigned true r
      else if Ascii.eqb c "+" then parse_unsigned false r
      else parse_unsigned false (c :: r)
  end.

(** The decimal literal [[-]ip] or [[-]ip.fp]. *)
Definition decimal_literal (neg : bool) (ip : str) (fo : option str) : str :=
  (if neg then js "-" else []) ++ ip ++ match fo with Some f => "."%char :: f | None => [] end.

(** [parseFloat(string)]: the longest prefix of the trimmed string that is
    a signed decimal literal ([Infinity] and exponents are outside the
    model). *)
Definition parse_float (s : str) : jsnum :=
  let t := trim_start s in
  let '(neg, b) := match t with
                   | c :: r => if Ascii.eqb c "-" then (true, r)
                               else if Ascii.eqb c "+" then (false, r) else (false, t)
                   | [] => (false, [])
                   end in
  let ip := digit_run b in
  let fp := match skipn (length ip) b with
            | c :: r => if Ascii.eqb c "." then digit_run r else []
            | [] => []
            end in
  if truthy ip || truthy fp then JNum neg ip fp else JNaN.

(** ** Rounding and digit strings *)

Fixpoint strip_leading_zeros (s : str) : str :=
  match s with
  | c :: s' => if Ascii.eqb c "0" then strip_leading_zeros s' else s
  | [] => []
  end.

Definition strip_trailing_zeros (s : str) : str :=
  rev (strip_leading_zeros (rev s)).

Definition digit_succ (c : ascii) : ascii := ascii_of_nat (S (nat_of_ascii c)).

(** Adds one to a digit string written least significant digit first. *)
Fixpoint incr_rev (l : str) : str :=
  match l with
  | [] => ["1"%char]
  | c :: l' => if Ascii.eqb c "9" then "0"%char :: incr_rev l' else digit_succ c :: l'
  end.

Definition max_fraction_digits : nat := 10.

(** Rounding half-expand of [ip.fp] to [max_fraction_digits] digits. *)
Definition round_fraction (ip fp : str) : str * str :=
  match skipn max_fraction_digits fp with
  | [] => (ip, fp)
  | d :: _ =>
      let f := firstn max_fraction_digits fp in
      if 53 <=? nat_of_ascii d then
        let all := rev (incr_rev (rev (ip ++ f))) in
        (firstn (length all - max_fraction_digits) all,
         skipn (length all - max_fraction_digits) all)
      else (ip, f)
  end.

(** Trailing zeros dropped down to [mn] digits, then padding up to [mn]. *)
Definition fit_fraction (mn : nat) (fp : str) : str :=
  let f := strip_trailing_zeros fp in
  f ++ repeat "0"%char (mn - length f).

Definition int_digits (ip : str) : str :=
  match strip_leading_zeros ip with [] => ["0"%char] | s => s end.

(** ** Grouping *)

(** Groups of [q] digits taken from the right; [fuel] bounds the number of
    groups ([length l] is enough since [q >= 1]). *)
Fixpoint group_rest (fuel q : nat) (l : str) : list str :=
  match fuel with
  | O => [l]
  | S f =>
      let n := length l in
      if n <=? q then [l] else group_rest f q (firstn (n - q) l) ++ [skipn (n - q) l]
  end.

Definition group_digits (ld : locale_data) (ip : str) : list str :=
  let p := ld_primary ld in
  let n := length ip in
  if n <? p + Nat.max 1 (ld_min_grouping ld) then [ip]
  else group_rest n (Nat.max 1 (ld_secondary ld)) (firstn (n - p) ip)
       ++ [skipn (n - p) ip].

Definition integer_parts (ld : locale_data) (groups : list str) : list part :=
  match groups with
  | [] => []
  | g :: gs =>
      mkPart PInteger g
        :: flat_map (fun g' => [mkPart PGroup (ld_group ld); mkPart PInteger g']) gs
  end.

(** The currency symbol and its literal around the number parts. *)
Definition with_currency (ld : locale_data) (body : list part) : list part :=
  match ld_currency ld with
  | None => body
  | Some cp =>
      let lit := if truthy (cur_space cp) then [mkPart PLiteral (cur_space cp)] else [] in
      if cur_before cp then mkPart PCurrency (cur_symbol cp) :: lit ++ body
      else body ++ lit ++ [mkPart PCurrency (cur_symbol cp)]
  end.

(** Every integer part holds a digit: Intl never emits an [integer]
    part made of a group mark. *)
Definition digits_in_integers (ps : list part) : bool :=
  forallb (fun p => match ptype p with PInteger => has_digit (pvalue p) | _ => true end) ps.

(** ** Intl.NumberFormat *)

Record number_format : Type := { nf_locale : locale_data; nf_min_fd : nat }.

(** [new Intl.NumberFormat(locale, {minimumFractionDigits: mn,
    maximumFractionDigits: 10, ...})]. *)
Definition make_number_format (ld : option locale_data) (mn : Z) : result number_format :=
  match ld with
  | None => Throw RangeError
  | Some l =>
      if ((mn <? 0) || (Z.of_nat max_fraction_digits <? mn))%Z then Throw RangeError
      else Ok {| nf_locale := l; nf_min_fd := Z.to_nat mn |}
  end.

(** [formatToParts(x)] *)
Definition format_to_parts (nf : number_format) (x : jsnum) : list part :=
  let ld := nf_locale nf in
  match x with
  | JNaN => with_currency ld [mkPart PNan (js "NaN")]
  | JNum neg ip fp =>
      let '(ip1, fp1) := round_fraction ip fp in
      let f := fit_fraction (nf_min_fd nf) fp1 in
      let body := integer_parts ld (group_digits ld (int_digits ip1))
                  ++ (if truthy f then [mkPart PDecimal (ld_decimal ld); mkPart PFraction f]
                      else []) in
      (if neg then [mkPart PMinusSign (ld_minus ld)] else []) ++ with_currency ld body
  end.

(** ** Reference locales

    The data of three locales as ECMA-402 implementations report them, used
    by the examples: [en-US], [de-DE] and [en-IN] (Indian grouping). *)
Definition en_US : locale_data :=
  {| ld_minus := js "-"; ld_group := js ","; ld_decimal := js ".";
     ld_primary := 3; ld_secondary := 3; ld_min_grouping := 1;
     ld_currency := None |}.

Definition de_DE : locale_data :=
  {| ld_minus := js "-"; ld_group := js "."; ld_decimal := js ",";
     ld_primary := 3; ld_secondary := 3; ld_min_grouping := 1;
     ld_currency := None |}.

Definition en_IN : locale_data :=
  {| ld_minus := js "-"; ld_group := js ","; ld_decimal := js ".";
     ld_primary := 3; ld_secondary := 2; ld_min_grouping := 1;
     ld_currency := None |}.

Definition with_currency_pattern (ld : locale_data) (cp : currency_pattern) : locale_data :=
  {| ld_minus := ld_minus ld; ld_group := ld_group ld; ld_decimal := ld_decimal ld;
     ld_primary := ld_primary ld; ld_secondary := ld_secondary ld;
     ld_min_grouping := ld_min_grouping ld; ld_currency := Some cp |}.

(** A resolver for the examples: the default locale is [en-US]; [USD] is
    [$] before the number in en-US and [$] after a no-break space in de-DE;
    [EUR] in de-DE is written with the ASCII letters [EUR] after a no-break
    space (the euro sign is not a Latin-1 code unit). *)
Definition nbsp : str := [ascii_of_nat 160].

Definition example_locale (c : IntlConfig) : option locale_data :=
  let base := if locale c =s? js "en-US" then Some en_US
              else if locale c =s? js "de-DE" then Some de_DE
              else if locale c =s? js "en-IN" then Some en_IN else None in
  match base, currency c with
  | None, _ => None
  | Some ld, None => Some ld
  | Some ld, Some cur =>
      if cur =s? js "USD" then
        Some (with_currency_pattern ld
               (if locale c =s? js "de-DE"
                then {| cur_symbol := js "$"; cur_before := false; cur_space := nbsp |}
                else {| cur_symbol := js "$"; cur_before := true; cur_space := [] |}))
      else if cur =s? js "EUR" then
        Some (with_currency_pattern ld
               {| cur_symbol := js "EUR"; cur_before := false; cur_space := nbsp |})
      else None
  end.

#[export] Instance example_resolver : LocaleResolver :=
  {| resolve_locale := fun o => match o with None => Some en_US | Some c => example_locale c end |}.

Definition no_space (s : str) : bool := forallb (fun c => negb (is_js_space c)) s.

(** ** Lemmas *)

Lemma group_rest_concat (fuel q : nat) (l : str) : concat (group_rest fuel q l) = l.
Proof.
  revert l; induction fuel as [|f IH]; intros l; simpl; [apply app_nil_r|].
  destruct (length l <=? q); simpl; [apply app_nil_r|].
  rewrite concat_app, IH. simpl. rewrite app_nil_r. apply firstn_skipn.
Qed.

Lemma group_digits_concat (ld : locale_data) (ip : str) : concat (group_digits ld ip) = ip.
Proof.
  unfold group_digits. destruct (_ <? _); simpl; [apply app_nil_r|].
  rewrite concat_app, group_rest_concat. simpl. rewrite app_nil_r. apply firstn_skipn.
Qed.

#[export] Hint Rewrite group_rest_concat group_digits_concat : js_simpl.

Lemma digit_not_space (c : ascii) : is_digit c = true -> is_js_space c = false.
Proof.
  unfold is_digit, is_js_space. intros H. apply andb_prop in H as [H1 H2].
  apply Nat.leb_le in H1, H2.
  repeat rewrite (proj2 (Nat.eqb_neq _ _)) by lia. reflexivity.
Qed.

Lemma trim_start_no_space (s : str) : no_space s = true -> trim_start s = s.
Proof.
  destruct s as [|c s]; simpl; [reflexivity|].
  intros H. apply andb_prop in H as [Hc _]. destruct (is_js_space c); [discriminate|reflexivity].
Qed.

Lemma trim_no_space (s : str) : no_space s = true -> trim s = s.
Proof.
  intros H. unfold trim. rewrite (trim_start_no_space s H).
  rewrite trim_start_no_space; [apply rev_involutive|].
  unfold no_space in *. rewrite forallb_forall in *. intros x Hx. apply H. now apply in_rev.
Qed.

Lemma all_digits_no_space (s : str) : all_digits s = true -> no_space s = true.
Proof.
  unfold all_digits, no_space. rewrite !forallb_forall. intros H x Hx.
  rewrite digit_not_space by auto. reflexivity.
Qed.

(** [Number] of an unsigned literal [ip] or [ip.fp]. *)
Lemma parse_unsigned_decimal (neg : bool) (ip : str) (fo : option str) :
  all_digits ip = true -> ip <> [] ->
  match fo with Some f => all_digits f = true | None => True end ->
  parse_unsigned neg (ip ++ match fo with Some f => "."%char :: f | None => [] end)
  = JNum neg ip (match fo with Some f => f | None => [] end).
Proof.
  intros Hip Hne Hf. unfold parse_unsigned.
  assert (Hd : digit_run (ip ++ match fo with Some f => "."%char :: f | None => [] end) = ip)
    by (rewrite digit_run_all by exact Hip; destruct fo; apply app_nil_r).
  rewrite Hd, skipn_app_length.
  destruct fo as [f|]; simpl.
  - rewrite digit_run_all_nil by exact Hf. rewrite skipn_all.
    destruct ip; [congruence|reflexivity].
  - destruct ip; [congruence|reflexivity].
Qed.

Lemma js_Number_decimal (neg : bool) (ip : str) (fo : option str) :
  all_digits ip = true -> ip <> [] ->
  match fo with Some f => all_digits f = true | None => True end ->
  js_Number (decimal_literal neg ip fo)
  = JNum neg ip (match fo with Some f => f | None => [] end).
Proof.
  intros Hip Hne Hf. unfold js_Number, decimal_literal.
  rewrite trim_no_space.
  - destruct neg; simpl.
    + apply parse_unsigned_decimal; assumption.
    + destruct ip as [|c ip]; [congruence|]. simpl in Hip.
      apply andb_prop in Hip as [Hc Hip'].
      assert (E1 : Ascii.eqb c "-" = false)
        by (destruct (Ascii.eqb_spec c "-"); [subst; discriminate|reflexivity]).
      assert (E2 : Ascii.eqb c "+" = false)
        by (destruct (Ascii.eqb_spec c "+"); [subst; discriminate|reflexivity]).
      cbn [app]. cbn beta iota. rewrite E1, E2.
      apply (parse_unsigned_decimal false (c :: ip)); [simpl; rewrite Hc; exact Hip'|congruence|exact Hf].
  - unfold no_space. rewrite !forallb_app. apply andb_true_intro. split.
    + destruct neg; reflexivity.
    + apply andb_true_intro. split; [apply all_digits_no_space; exact Hip|].
      destruct fo as [f|]; [|reflexivity]. simpl. apply all_digits_no_space. exact Hf.
Qed.

Lemma group_rest_nonempty (fuel q : nat) (l : str) :
  1 <= q -> l <> [] -> Forall (fun g => g <> []) (group_rest fuel q l).
Proof.
  revert l; induction fuel as [|f IH]; intros l Hq Hl; simpl; [auto|].
  destruct (Nat.leb_spec (length l) q); [auto|].
  apply Forall_app. split.
  - apply IH; [exact Hq|]. intros E. apply (f_equal (@length _)) in E.
    rewrite length_firstn in E. simpl in E. lia.
  - constructor; [|constructor]. intros E. apply (f_equal (@length _)) in E.
    rewrite length_skipn in E. simpl in E. lia.
Qed.

Lemma group_digits_nonempty (ld : locale_data) (ip : str) :
  1 <= ld_primary ld -> ip <> [] -> Forall (fun g => g <> []) (group_digits ld ip).
Proof.
  intros Hp Hip. unfold group_digits.
  destruct (Nat.ltb_spec (length ip) (ld_primary ld + Nat.max 1 (ld_min_grouping ld))).
  - auto.
  - apply Forall_app. split.
    + apply group_rest_nonempty; [lia|]. intros E. apply (f_equal (@length _)) in E.
      rewrite length_firstn in E. simpl in E. lia.
    + constructor; [|constructor]. intros E. apply (f_equal (@length _)) in E.
      rewrite length_skipn in E. simpl in E. lia.
Qed.

Lemma all_digits_concat (gs : list str) :
  all_digits (concat gs) = true -> Forall (fun g => all_digits g = true) gs.
Proof.
  induction gs as [|g gs IH]; simpl; [auto|].
  unfold all_digits. rewrite forallb_app. intros H. apply andb_prop in H as [H1 H2]. auto.
Qed.

(** The parts of a decimal number in a locale without currency, with no
    minimum of fraction digits and at most ten fraction digits. *)
Lemma format_to_parts_decimal (nf : number_format) (neg : bool) (ip fp : str) :
  nf_min_fd nf = 0 -> ld_currency (nf_locale nf) = None ->
  length fp <= max_fraction_digits ->
  format_to_parts nf (JNum neg ip fp)
  = (if neg then [mkPart PMinusSign (ld_minus (nf_locale nf))] else [])
    ++ integer_parts (nf_locale nf) (group_digits (nf_locale nf) (int_digits ip))
    ++ (if truthy (strip_trailing_zeros fp)
        then [mkPart PDecimal (ld_decimal (nf_locale nf));
              mkPart PFraction (strip_trailing_zeros fp)]
        else []).
Proof.
  intros Hmn Hcur Hlen. unfold format_to_parts, round_fraction.
  rewrite (skipn_all2 fp) by exact Hlen.
  unfold with_currency, fit_fraction. rewrite Hcur, Hmn. simpl. rewrite app_nil_r.
  reflexivity.
Qed.

(** With a currency symbol written last, the literal (if any) and the
    symbol follow the number. *)
Lemma format_to_parts_decimal_after (nf : number_format) (cp : currency_pattern)
  (neg : bool) (ip fp : str) :
  nf_min_fd nf = 0 -> ld_currency (nf_locale nf) = Some cp -> cur_before cp = false ->
  length fp <= max_fraction_digits ->
  format_to_parts nf (JNum neg ip fp)
  = ((if neg then [mkPart PMinusSign (ld_minus (nf_locale nf))] else [])
     ++ integer_parts (nf_locale nf) (group_digits (nf_locale nf) (int_digits ip))
     ++ (if truthy (strip_trailing_zeros fp) then [mkPart PDecimal (ld_decimal (nf_locale nf));
               mkPart PFraction (strip_trailing_zeros fp)] else []))
    ++ (if truthy (cur_space cp) then [mkPart PLiteral (cur_space cp)] else [])
    ++ [mkPart PCurrency (cur_symbol cp)].
Proof.
  intros Hmn Hcur Hb Hlen. unfold format_to_parts, round_fraction.
  rewrite (skipn_all2 fp) by exact Hlen.
  unfold with_currency, fit_fraction. rewrite Hcur, Hb, Hmn. simpl.
  rewrite app_nil_r, <- !app_assoc. reflexivity.
Qed.

(** With a currency symbol written first and without a literal, the
    symbol part follows the sign. *)
Lemma format_to_parts_decimal_currency (nf : number_format) (cp : currency_pattern)
  (neg : bool) (ip fp : str) :
  nf_min_fd nf = 0 -> ld_currency (nf_locale nf) = Some cp -> cur_before cp = true ->
  cur_space cp = [] -> length fp <= max_fraction_digits ->
  format_to_parts nf (JNum neg ip fp)
  = (if neg then [mkPart PMinusSign (ld_minus (nf_locale nf))] else [])
    ++ mkPart PCurrency (cur_symbol cp)
    :: integer_parts (nf_locale nf) (group_digits (nf_locale nf) (int_digits ip))
    ++ (if truthy (strip_trailing_zeros fp)
        then [mkPart PDecimal (ld_decimal (nf_locale nf));
              mkPart PFraction (strip_trailing_zeros fp)]
        else []).
Proof.
  intros Hmn Hcur Hb Hs Hlen. unfold format_to_parts, round_fraction.
  rewrite (skipn_all2 fp) by exact Hlen.
  unfold with_currency, fit_fraction. rewrite Hcur, Hb, Hs, Hmn. simpl. rewrite app_nil_r.
  reflexivity.
Qed.

Lemma all_digits_strip_leading_zeros (s : str) :
  all_digits s = true -> all_digits (strip_leading_zeros s) = true.
Proof.
  induction s as [|c s IH]; simpl; [reflexivity|].
  intros H. destruct (Ascii.eqb c "0"); [|exact H].
  apply andb_prop in H as [_ H]. auto.
Qed.

Lemma all_digits_strip_trailing_zeros (s : str) :
  all_digits s = true -> all_digits (strip_trailing_zeros s) = true.
Proof.
  unfold strip_trailing_zeros, all_digits. intros H.
  rewrite forallb_forall. intros x Hx. apply in_rev in Hx.
  assert (H' : forallb is_digit (strip_leading_zeros (rev s)) = true).
  { apply all_digits_strip_leading_zeros. unfold all_digits. rewrite forallb_forall in *.
    intros y Hy. apply H. now apply in_rev. }
  rewrite forallb_forall in H'. auto.
Qed.

(** ** The digit strings Intl receives and emits *)

Lemma all_digits_digit_run (s : str) : all_digits (digit_run s) = true.
Proof.
  induction s as [|c s IH]; [reflexivity|]. cbn [digit_run].
  destruct (is_digit c) eqn:E; [|reflexivity]. cbn [all_digits forallb]. rewrite E. exact IH.
Qed.

Lemma parse_unsigned_digits (b : bool) (body : str) (neg : bool) (ip fp : str) :
  parse_unsigned b body = JNum neg ip fp -> all_digits ip = true /\ all_digits fp = true.
Proof.
  unfold parse_unsigned. destruct (skipn _ body) as [|c r].
  - destruct (truthy _); intros E; [injection E as _ <- <-|discriminate].
    split; [apply all_digits_digit_run|reflexivity].
  - destruct (Ascii.eqb c "."); [|discriminate]. destruct (skipn _ r); [|discriminate].
    destruct (_ || _); intros E; [injection E as _ <- <-|discriminate].
    split; apply all_digits_digit_run.
Qed.

(** [Number(s)] has digit strings for its integer and fraction. *)
Lemma js_Number_digits (s : str) (neg : bool) (ip fp : str) :
  js_Number s = JNum neg ip fp -> all_digits ip = true /\ all_digits fp = true.
Proof.
  unfold js_Number. destruct (trim s) as [|c r].
  - intros E. injection E as _ <- <-. split; reflexivity.
  - destruct (Ascii.eqb c "-"); [apply parse_unsigned_digits|].
    destruct (Ascii.eqb c "+"); apply parse_unsigned_digits.
Qed.

Lemma is_digit_succ (c : ascii) :
  is_digit c = true -> Ascii.eqb c "9" = false -> is_digit (digit_succ c) = true.
Proof.
  unfold is_digit, digit_succ. intros H H9. apply andb_prop in H as [H1 H2].
  apply Nat.leb_le in H1, H2.
  assert (Hn : nat_of_ascii c <> 57).
  { intros E. rewrite <- (ascii_nat_embedding c), E in H9. discriminate. }
  rewrite nat_ascii_embedding by lia. apply andb_true_intro.
  split; apply Nat.leb_le; lia.
Qed.

Lemma all_digits_incr_rev (l : str) : all_digits l = true -> all_digits (incr_rev l) = true.
Proof.
  induction l as [|c l IH]; intros H; [reflexivity|].
  cbn [all_digits forallb] in H. apply andb_prop in H as [Hc H]. cbn [incr_rev].
  destruct (Ascii.eqb c "9") eqn:E; cbn [all_digits forallb].
  - exact (IH H).
  - rewrite is_digit_succ by assumption. exact H.
Qed.

Lemma all_digits_app (a b : str) : all_digits (a ++ b) = all_digits a && all_digits b.
Proof. apply forallb_app. Qed.

Lemma all_digits_rev (a : str) : all_digits (rev a) = all_digits a.
Proof.
  induction a as [|c a IH]; [reflexivity|]. cbn [rev all_digits forallb].
  rewrite all_digits_app, IH. cbn. rewrite andb_true_r, andb_comm. reflexivity.
Qed.

Lemma all_digits_firstn (n : nat) (a : str) : all_digits a = true -> all_digits (firstn n a) = true.
Proof.
  rewrite <- (firstn_skipn n a) at 1. rewrite all_digits_app. intros H.
  apply andb_prop in H as [H _]. exact H.
Qed.

Lemma round_fraction_digits (ip fp : str) :
  all_digits ip = true -> all_digits fp = true -> all_digits (fst (round_fraction ip fp)) = true.
Proof.
  intros Hi Hf. unfold round_fraction. destruct (skipn _ fp) as [|d r]; [exact Hi|].
  destruct (_ <=? _); [|exact Hi]. cbn [fst]. apply all_digits_firstn.
  rewrite all_digits_rev. apply all_digits_incr_rev. rewrite all_digits_rev, all_digits_app, Hi.
  apply all_digits_firstn. exact Hf.
Qed.

Lemma int_digits_digits (ip : str) :
  all_digits ip = true -> all_digits (int_digits ip) = true /\ int_digits ip <> [].
Proof.
  intros H. unfold int_digits. assert (H' := all_digits_strip_leading_zeros ip H).
  destruct (strip_leading_zeros ip); split; try discriminate; auto.
Qed.

Lemma integer_parts_digits (ld : locale_data) (groups : list str) :
  Forall (fun g => g <> [] /\ all_digits g = true) groups ->
  digits_in_integers (integer_parts ld groups) = true.
Proof.
  assert (Hd : forall g, g <> [] /\ all_digits g = true -> has_digit g = true).
  { intros [|c g] [Hne Hg]; [congruence|]. cbn in Hg |- *.
    apply andb_prop in Hg as [Hc _]. rewrite Hc. reflexivity. }
  intros H. destruct H as [|g gs Hg Hgs]; [reflexivity|].
  unfold digits_in_integers. cbn [integer_parts forallb ptype pvalue]. rewrite (Hd g Hg).
  induction Hgs as [|g' gs' Hg' _ IH]; [reflexivity|].
  cbn [flat_map app forallb ptype pvalue]. rewrite (Hd g' Hg'). exact IH.
Qed.

(** Every part list Intl emits for [Number(s)], in a locale grouping by
    at least one digit, has digits in its integer parts. *)
Lemma format_to_parts_digits (nf : number_format) (s : str) :
  1 <= ld_primary (nf_locale nf) -> digits_in_integers (format_to_parts nf (js_Number s)) = true.
Proof.
  intros Hp. assert (Hw : forall body, digits_in_integers body = true ->
                          digits_in_integers (with_currency (nf_locale nf) body) = true).
  { intros body Hb. unfold with_currency. destruct (ld_currency _) as [cp|]; [|exact Hb].
    unfold digits_in_integers in *.
    destruct (cur_before cp), (truthy (cur_space cp)); cbn; rewrite ?forallb_app, ?Hb; reflexivity. }
  destruct (js_Number s) as [|neg ip fp] eqn:E; [apply Hw; reflexivity|].
  destruct (js_Number_digits s neg ip fp E) as [Hi Hf].
  unfold format_to_parts. assert (Hr := round_fraction_digits ip fp Hi Hf).
  destruct (round_fraction ip fp) as [ip1 fp1]. cbn [fst] in Hr.
  unfold digits_in_integers in *. rewrite forallb_app. apply andb_true_intro. split.
  { destruct neg; reflexivity. }
  apply Hw. unfold digits_in_integers. rewrite forallb_app. apply andb_true_intro. split.
  - apply integer_parts_digits. destruct (int_digits_digits ip1 Hr) as [H1 H2].
    assert (G := group_digits_nonempty (nf_locale nf) _ Hp H2).
    assert (A := all_digits_concat (group_digits (nf_locale nf) (int_digits ip1))).
    rewrite group_digits_concat in A. specialize (A H1).
    clear - G A. induction G; inversion A; constructor; auto.
  - destruct (truthy _); reflexivity.
Qed.
