(* ===== verification/Suffix.v ===== *)
(** * Suffix: the suffix detector [getSuffix]

    [getSuffix] is imported by src/src/utils/formatValue.ts and
    src/src/components/CurrencyInput.tsx from [@/src/utils/getSuffix], a
    file that is not among the sources: it is modelled from the spec
    (section 4.4, "the maximal trailing run of the formatted string that
    is not part of the numeric/grouped body").  The body consists of the
    digits and the characters of the group and decimal separators; the
    trailing run counts as a suffix when the body ends with a digit right
    before it, and [''] (the falsy result) stands for "no suffix". *)

From Stdlib Require Import Ascii String List Arith Lia Bool.
Import ListNotations.
From S2P Require Import Prelude.
Open Scope js_scope.

Fixpoint take_while (f : ascii -> bool) (s : str) : str :=
  match s with
  | c :: s' => if f c then c :: take_while f s' else []
  | [] => []
  end.

(** A character of the numeric/grouped body. *)
Definition body_char (groupSeparator decimalSeparator : str) (c : ascii) : bool :=
  is_digit c || mem_char c groupSeparator || mem_char c decimalSeparator.

Definition getSuffix (value groupSeparator decimalSeparator : str) : str :=
  let r := rev value in
  let tail := take_while (fun c => negb (body_char groupSeparator decimalSeparator c)) r in
  match skipn (length tail) r with
  | c :: _ => if is_digit c then rev tail else []
  | [] => []
  end.

Lemma take_while_app_stop (f : ascii -> bool) (x y : str) (c : ascii) :
  forallb f x = true -> f c = false -> take_while f (x ++ c :: y) = x.
Proof.
  intros Hx Hc. induction x as [|a x IH]; simpl in *; [now rewrite Hc|].
  apply andb_prop in Hx as [Ha Hx]. rewrite Ha. f_equal. auto.
Qed.

(** A string whose last character is a digit has no suffix. *)
Lemma getSuffix_digit_end (s : str) (d : ascii) (gs ds : str) :
  is_digit d = true -> getSuffix (s ++ [d]) gs ds = [].
Proof.
  intros Hd. unfold getSuffix. rewrite rev_app_distr. simpl.
  unfold body_char. rewrite Hd. simpl. rewrite Hd. reflexivity.
Qed.

(** A run of non-body characters after a digit is the suffix. *)
Lemma getSuffix_after_digit (s : str) (d : ascii) (t gs ds : str) :
  is_digit d = true ->
  forallb (fun c => negb (body_char gs ds c)) t = true ->
  getSuffix (s ++ d :: t) gs ds = t.
Proof.
  intros Hd Ht. unfold getSuffix.
  replace (s ++ d :: t) with ((s ++ [d]) ++ t) by (rewrite <- app_assoc; reflexivity).
  rewrite rev_app_distr, rev_app_distr. simpl.
  rewrite take_while_app_stop.
  - rewrite skipn_app, skipn_all, Nat.sub_diag. simpl.
    rewrite Hd. apply rev_involutive.
  - rewrite forallb_forall in *. intros x Hx. apply Ht. now apply in_rev.
  - unfold body_char. rewrite Hd. reflexivity.
Qed.

Lemma take_while_prefix (f : ascii -> bool) (l : str) :
  l = take_while f l ++ skipn (length (take_while f l)) l.
Proof.
  induction l as [|c l IH]; simpl; [reflexivity|].
  destruct (f c); simpl; [f_equal; exact IH|reflexivity].
Qed.

Lemma take_while_forall (f : ascii -> bool) (l : str) : forallb f (take_while f l) = true.
Proof.
  induction l as [|c l IH]; simpl; [reflexivity|].
  destruct (f c) eqn:E; simpl; [rewrite E; exact IH|reflexivity].
Qed.

(** A suffix found by [getSuffix] is a trailing run of non-body characters. *)
Lemma getSuffix_split (s gs ds : str) :
  let t := getSuffix s gs ds in
  t = [] \/ (s = firstn (length s - length t) s ++ t
            /\ forallb (fun c => negb (body_char gs ds c)) t = true).
Proof.
  cbv zeta. unfold getSuffix.
  set (f := fun c => negb (body_char gs ds c)).
  destruct (skipn (length (take_while f (rev s))) (rev s)) as [|c r]; [left; reflexivity|].
  destruct (is_digit c); [right|left; reflexivity].
  assert (Hs : s = rev (skipn (length (take_while f (rev s))) (rev s)) ++ rev (take_while f (rev s))).
  { rewrite <- rev_app_distr, <- take_while_prefix. symmetry. apply rev_involutive. }
  split.
  - clear - Hs. revert Hs. generalize (rev (skipn (length (take_while f (rev s))) (rev s))).
    generalize (rev (take_while f (rev s))). intros B A ->.
    rewrite length_app, Nat.add_sub, firstn_app, firstn_all, Nat.sub_diag. simpl.
    rewrite app_nil_r. reflexivity.
  - rewrite forallb_forall. intros x Hx. apply in_rev in Hx.
    assert (H := take_while_forall f (rev s)). rewrite forallb_forall in H. auto.
Qed.

Lemma getSuffix_ends_digit (s gs ds : str) : ends_digit s = true -> getSuffix s gs ds = [].
Proof.
  unfold ends_digit. intros H. destruct (rev s) as [|d r] eqn:E; [discriminate|].
  replace s with (rev r ++ [d]) by (rewrite <- (rev_involutive s), E; reflexivity).
  apply getSuffix_digit_end. exact H.
Qed.

(** After a number ending with a digit, the suffix is a tail of
    non-number characters. *)
Lemma getSuffix_after_number (s t gs ds : str) :
  ends_digit s = true -> forallb (fun c => negb (body_char gs ds c)) t = true ->
  getSuffix (s ++ t) gs ds = t.
Proof.
  unfold ends_digit. intros H Ht. destruct (rev s) as [|d r] eqn:E; [discriminate|].
  replace s with (rev r ++ [d]) by (rewrite <- (rev_involutive s), E; reflexivity).
  rewrite <- app_assoc. apply getSuffix_after_digit; assumption.
Qed.
