(* ===== verification/Format.v ===== *)
(** * Format: [formatValue] of src/src/utils/formatValue.ts

    Module [FormatValue] translates the whole file: the options record
    ([FormatValueOptions], lines 5-55), the negativity regex of line 78,
    [replaceDecimalSeparator] (lines 154-167), [replaceParts] (lines
    169-231, the [reduce] over the Intl parts with its index) and
    [formatValue] itself (lines 60-149): mid-entry passthrough, the
    decimal-separator rewrite, the Intl call, the decimal-padding fallback
    with its two regexes ([\d+\.(\d+)] and the global
    [(\d+)(DS)(\d+)]) and the three suffix branches.  The [console.log]
    calls are output only and are left out.  [formatValue] returns a
    [result]: the [Intl.NumberFormat] constructor throws [RangeError] for a
    [decimalScale] outside [0..10] or an unknown locale. *)

From Stdlib Require Import Ascii String List Arith Lia ZArith Bool.
Import ListNotations.
From S2P Require Import Prelude Intl Suffix.
Open Scope js_scope.

Module FormatValue.

Record FormatValueOptions : Type := mkOptions {
  value : str;
  decimalSeparator : str;
  groupSeparator : str;
  disableGroupSeparators : bool;
  intlConfig : option IntlConfig;
  decimalScale : option Z;
  prefix : str;
  suffix : str
}.

(** ** The negativity test of line 78

    [new RegExp(`^\\d?-${prefix ? `${escapeRegExp(prefix)}?` : ''}\\d`)]:
    the [?] after the escaped prefix makes only its last character
    optional. *)
Definition digit_head (s : str) : bool :=
  match s with c :: _ => is_digit c | [] => false end.

Definition neg_rx_tail (prefix s : str) : bool :=
  match s with
  | c :: r =>
      Ascii.eqb c "-" &&
      match prefix with
      | [] => digit_head r
      | _ =>
          let core := removelast prefix in
          if starts_with r core then
            let r2 := skipn (length core) r in
            (starts_with r2 (last_char prefix) && digit_head (skipn 1 r2)) || digit_head r2
          else false
      end
  | [] => false
  end.

Definition isNegative (prefix v : str) : bool :=
  (digit_head v && neg_rx_tail prefix (tl v)) || neg_rx_tail prefix v.

(** ** replaceDecimalSeparator (lines 154-167) *)
Definition replaceDecimalSeparator (value decimalSeparator : str) (isNegative : bool) : str :=
  if truthy decimalSeparator && negb (decimalSeparator =s? js ".") then
    let newValue := replace_all value decimalSeparator (js ".") in
    if isNegative && (decimalSeparator =s? js "-") then js "-" ++ skipn 1 newValue
    else newValue
  else value.

(** ** replaceParts (lines 169-231): the reducer body for part [i] *)
Definition replace_part (o : FormatValueOptions) (i : nat) (prev : list str) (p : part)
  : list str :=
  let v := pvalue p in
  let gs := groupSeparator o in
  let ds := decimalSeparator o in
  if (i =? 0) && truthy (prefix o) then
    match ptype p with
    | PMinusSign => [v; prefix o]
    | PCurrency => prev ++ [prefix o]
    | _ => [prefix o; v]
    end
  else
    match ptype p with
    | PCurrency => if truthy (prefix o) then prev else prev ++ [v]
    | PInteger =>
        if negb (has_digit v) then
          if truthy gs && (v =s? gs) then
            (if negb (disableGroupSeparators o) then prev ++ [v] else prev)
          else if negb (disableGroupSeparators o) then
            prev ++ [if truthy gs then gs else v]
          else prev
        else prev ++ [v]
    | PDecimal =>
        match decimalScale o with
        | Some 0%Z => prev
        | _ =>
            if truthy ds && (v =s? ds) then prev ++ [v]
            else prev ++ [if truthy ds then ds else v]
        end
    | PFraction =>
        prev ++ [match decimalScale o with Some n => slice0 v n | None => v end]
    | _ => prev ++ [v]
    end.

Fixpoint reduce_parts (o : FormatValueOptions) (i : nat) (prev : list str) (ps : list part)
  : list str :=
  match ps with
  | [] => prev
  | p :: ps' => reduce_parts o (S i) (replace_part o i prev p) ps'
  end.

Definition replaceParts (parts : list part) (o : FormatValueOptions) : str :=
  concat (reduce_parts o 0 [[]] parts).

(** ** The regexes of the decimal-padding fallback *)

(** [value.match(RegExp('\\d+\\.(\\d+)'))]: the capture of the first match. *)
Definition decimals_at (s : str) : option str :=
  let d := digit_run s in
  if truthy d then
    match skipn (length d) s with
    | c :: r =>
        if Ascii.eqb c "." then
          let d2 := digit_run r in if truthy d2 then Some d2 else None
        else None
    | [] => None
    end
  else None.

Fixpoint match_decimals (s : str) : option str :=
  match decimals_at s with
  | Some d => Some d
  | None => match s with [] => None | _ :: s' => match_decimals s' end
  end.

(** [RegExp(`(\\d+)(${escapeRegExp(ds)})(\\d+)`, 'g')] with the replacement
    [`$1$2${decimals}`] ([decimals] is a digit string, so [$2] followed by a
    digit still names group 2): the first [\d+] backtracks from the
    longest digit run, the last one is greedy. *)
Fixpoint dsd_try (ds decimals s : str) (k : nat) : option (nat * str) :=
  match k with
  | O => None
  | S k' =>
      let rest := skipn k s in
      let d2 := digit_run (skipn (length ds) rest) in
      if starts_with rest ds && truthy d2 then
        Some (k + length ds + length d2, firstn k s ++ ds ++ decimals)
      else dsd_try ds decimals s k'
  end.

Definition dsd_matcher (ds decimals : str) (s : str) : option (nat * str) :=
  dsd_try ds decimals s (length (digit_run s)).

(** ** formatValue (lines 60-149) *)
Section WithResolver.
Context `{LocaleResolver}.

Definition formatValue (options : FormatValueOptions) : result str :=
  let _value := value options in
  let ds := decimalSeparator options in
  let pre := prefix options in
  let suf := suffix options in
  if _value =s? [] then Ok [] else
  if _value =s? js "-" then Ok (js "-") else
  let isNeg := isNegative pre _value in
  let value1 := if negb (ds =s? js ".") then replaceDecimalSeparator _value ds isNeg
                else _value in
  let value2 := if truthy ds && negb (ds =s? js "-") && starts_with value1 ds
                then "0"%char :: value1 else value1 in
  let mn := match decimalScale options with Some z => z | None => 0%Z end in
  let! nf := make_number_format (resolve_locale (intlConfig options)) mn in
  let parts := format_to_parts nf (js_Number value2) in
  let formatted := replaceParts parts options in
  let intlSuffix := getSuffix formatted (groupSeparator options) ds in
  let includeDecimalSeparator := if last_char _value =s? ds then ds else [] in
  let formatted :=
    match decimalScale options, match_decimals value2 with
    | None, Some decimals =>
        if truthy ds then
          if includes formatted ds then gsub (dsd_matcher ds decimals) formatted 0
          else if truthy intlSuffix && negb (truthy suf) then
            replace_first formatted intlSuffix (ds ++ decimals ++ intlSuffix)
          else formatted ++ ds ++ decimals
        else formatted
    | _, _ => formatted
    end in
  if truthy suf && truthy includeDecimalSeparator then
    Ok (formatted ++ includeDecimalSeparator ++ suf)
  else if truthy intlSuffix && truthy includeDecimalSeparator then
    Ok (replace_first formatted intlSuffix (includeDecimalSeparator ++ intlSuffix))
  else if truthy intlSuffix && truthy suf then
    Ok (replace_first formatted intlSuffix (includeDecimalSeparator ++ suf))
  else Ok (formatted ++ includeDecimalSeparator ++ suf).

End WithResolver.

(** Options with the defaults of a direct call: [.] and [,], no prefix,
    suffix, scale or locale. *)
Definition opts (v : str) : FormatValueOptions :=
  {| value := v; decimalSeparator := js "."; groupSeparator := js ",";
     disableGroupSeparators := false; intlConfig := None; decimalScale := None;
     prefix := []; suffix := [] |}.

Definition with_scale (o : FormatValueOptions) (n : option Z) : FormatValueOptions :=
  {| value := value o; decimalSeparator := decimalSeparator o;
     groupSeparator := groupSeparator o; disableGroupSeparators := disableGroupSeparators o;
     intlConfig := intlConfig o; decimalScale := n; prefix := prefix o; suffix := suffix o |}.

Definition with_separators (o : FormatValueOptions) (ds gs : str) (disable : bool)
  : FormatValueOptions :=
  {| value := value o; decimalSeparator := ds; groupSeparator := gs;
     disableGroupSeparators := disable; intlConfig := intlConfig o;
     decimalScale := decimalScale o; prefix := prefix o; suffix := suffix o |}.

(** ** Auxiliary definitions of the proofs *)

(** The text a part contributes when it is not the first part of a
    prefixed number ([plain_part]: no currency, digits in integer parts). *)
Definition part_text (o : FormatValueOptions) (p : part) : str :=
  match ptype p with
  | PDecimal =>
      match decimalScale o with
      | Some 0%Z => []
      | _ => if truthy (decimalSeparator o) then decimalSeparator o else pvalue p
      end
  | PFraction => match decimalScale o with Some n => slice0 (pvalue p) n | None => pvalue p end
  | _ => pvalue p
  end.

Definition plain_part (p : part) : bool :=
  match ptype p with
  | PCurrency => false
  | PInteger => has_digit (pvalue p)
  | _ => true
  end.

Example format_grouping : formatValue (opts (js "1000000")) = Ok (js "1,000,000").
Proof. reflexivity. Qed.

Example format_scale_pad :
  formatValue (with_scale (opts (js "1.5")) (Some 2%Z)) = Ok (js "1.50").
Proof. reflexivity. Qed.

Example format_scale_trunc :
  formatValue (with_scale (opts (js "1.234")) (Some 2%Z)) = Ok (js "1.23").
Proof. reflexivity. Qed.

Example format_keeps_padding : formatValue (opts (js "1234.50")) = Ok (js "1,234.50").
Proof. reflexivity. Qed.


(** ** What the formatter does where the spec says otherwise *)

(** With [decimalSeparator: ','] and [groupSeparator: '.'] in a locale
    grouping with [,] (the default en-US), the kept group mark is taken for
    the decimal separator by the padding regex [(\d+)(,)(\d+)]: ["1234,5"]
    is shown as ["1,5,5"]. *)
Example decimal_comma_mangled :
  formatValue (with_separators (opts (js "1234,5")) (js ",") (js ".") false)
  = Ok (js "1,5,5").
Proof. reflexivity. Qed.

(** A value with more than ten fraction digits is rounded by Intl
    ([maximumFractionDigits: 10]); when the rounding carries into the
    integer part and the fraction disappears, the padding fallback appends
    the typed fraction to the rounded integer: [0.99999999999] is shown as
    [1.99999999999]. *)
Example fraction_carry_into_integer :
  formatValue (opts (js "0.99999999999")) = Ok (js "1.99999999999").
Proof. reflexivity. Qed.

(** C8: [decimalScale] is passed as [minimumFractionDigits] next to
    [maximumFractionDigits: 10]: for every value but [''] and ['-'], every
    locale and every scale below zero or above ten, the [Intl.NumberFormat]
    constructor throws [RangeError] and so does [formatValue], although the
    spec says the formatter pads to exactly [decimalScale] digits and never
    throws. *)
Theorem decimalScale_out_of_range `{R : LocaleResolver} (o : FormatValueOptions) (z : Z) :
  decimalScale o = Some z -> (z < 0 \/ 10 < z)%Z ->
  (value o =s? []) = false -> (value o =s? js "-") = false ->
  formatValue o = Throw RangeError.
Proof.
  intros Hz Hr H1 H2. unfold formatValue. cbv zeta. rewrite H1, H2, Hz.
  unfold make_number_format. destruct (resolve_locale (intlConfig o)); [|reflexivity].
  replace ((z <? 0) || (Z.of_nat max_fraction_digits <? z))%Z with true
    by (symmetry; apply orb_true_iff; unfold max_fraction_digits;
        destruct Hr; [left|right]; apply Z.ltb_lt; cbn; lia).
  reflexivity.
Qed.

(** ** Lemmas *)

Lemma replace_part_plain (o : FormatValueOptions) (i : nat) (prev : list str) (p : part) :
  plain_part p = true -> (i =? 0) && truthy (prefix o) = false ->
  exists l, replace_part o i prev p = prev ++ l /\ concat l = part_text o p.
Proof.
  intros Hp Hi. unfold replace_part, part_text, plain_part in *. rewrite Hi.
  destruct p as [t v]; simpl in *.
  destruct t; try discriminate; try (eexists; split; [reflexivity|apply app_nil_r]).
  - rewrite Hp. eexists; split; [reflexivity|apply app_nil_r].
  - destruct (decimalScale o) as [[| |]|];
      try (exists []; split; [rewrite app_nil_r; reflexivity|reflexivity]);
      destruct (truthy (decimalSeparator o)) eqn:Hds; simpl;
      try (eexists; split; [reflexivity|apply app_nil_r]);
      destruct (str_eqb_spec v (decimalSeparator o)); subst;
      eexists; (split; [reflexivity|apply app_nil_r]).
Qed.

Lemma reduce_parts_plain (o : FormatValueOptions) (i : nat) (prev : list str) (ps : list part) :
  forallb plain_part ps = true -> (0 < i \/ prefix o = []) ->
  concat (reduce_parts o i prev ps) = concat prev ++ flat_map (part_text o) ps.
Proof.
  revert i prev; induction ps as [|p ps IH]; intros i prev Hps Hi; simpl.
  - rewrite app_nil_r. reflexivity.
  - apply andb_prop in Hps as [Hp Hps].
    destruct (replace_part_plain o i prev p Hp) as [l [-> Hl]].
    { destruct Hi as [Hi|Hi]; [destruct i; [lia|reflexivity]|rewrite Hi, andb_false_r; reflexivity]. }
    rewrite IH by (auto; lia). rewrite concat_app, Hl, app_assoc. reflexivity.
Qed.

Lemma flat_map_integer_parts (o : FormatValueOptions) (ld : locale_data) (groups : list str) :
  flat_map (part_text o) (integer_parts ld groups) = join (ld_group ld) groups.
Proof.
  destruct groups as [|g gs]; [reflexivity|]. simpl. f_equal.
  induction gs as [|g' gs IH]; simpl; [reflexivity|]. rewrite IH.
  unfold part_text. simpl. apply app_assoc.
Qed.

Lemma forallb_plain_integer_parts (ld : locale_data) (groups : list str) :
  Forall (fun g => has_digit g = true) groups ->
  forallb plain_part (integer_parts ld groups) = true.
Proof.
  intros H. destruct groups as [|g gs]; [reflexivity|].
  inversion H as [|? ? Hg Hgs]; subst. clear H.
  simpl. unfold plain_part at 1. simpl. rewrite Hg. simpl.
  induction Hgs as [|g' gs Hg' _ IH]; [reflexivity|].
  simpl. unfold plain_part. simpl. rewrite Hg'. exact IH.
Qed.

Lemma plain_integer (g : str) : has_digit g = true -> plain_part (mkPart PInteger g) = true.
Proof. intros H. exact H. Qed.

Lemma reduce_parts_cons (o : FormatValueOptions) (i : nat) (prev : list str) (p : part) (ps : list part) :
  reduce_parts o i prev (p :: ps) = reduce_parts o (S i) (replace_part o i prev p) ps.
Proof. reflexivity. Qed.

Lemma replace_part_first (o : FormatValueOptions) (prev : list str) (t : part_type) (v : str) :
  truthy (prefix o) = true -> t <> PCurrency ->
  replace_part o 0 prev (mkPart t v)
  = if match t with PMinusSign => true | _ => false end then [v; prefix o] else [prefix o; v].
Proof. intros Hp Ht. unfold replace_part. rewrite Hp. simpl. destruct t; congruence. Qed.

(** The text [replaceParts] builds for a number: the sign, the prefix, then
    every part in order. *)
Lemma replaceParts_number (o : FormatValueOptions) (neg : bool) (m g0 : str) (rest : list part) :
  has_digit g0 = true -> forallb plain_part rest = true ->
  replaceParts ((if neg then [mkPart PMinusSign m] else []) ++ mkPart PInteger g0 :: rest) o
  = (if neg then m else []) ++ prefix o ++ g0 ++ flat_map (part_text o) rest.
Proof.
  intros Hg Hr. unfold replaceParts.
  destruct (truthy (prefix o)) eqn:Hpre.
  - destruct neg; cbn [app]; rewrite reduce_parts_cons, replace_part_first by (auto; discriminate);
      cbn [ptype pvalue].
    + rewrite reduce_parts_plain; [| cbn [forallb]; rewrite (plain_integer g0 Hg), Hr; reflexivity | left; lia].
      simpl. rewrite app_nil_r, <- app_assoc. reflexivity.
    + rewrite reduce_parts_plain; [simpl; rewrite app_nil_r, <- app_assoc; reflexivity|exact Hr|left; lia].
  - assert (Hnil : prefix o = []) by (destruct (prefix o); [reflexivity|discriminate]).
    rewrite reduce_parts_plain.
    + rewrite Hnil. destruct neg; reflexivity.
    + rewrite forallb_app. cbn [forallb]. rewrite (plain_integer g0 Hg), Hr. destruct neg; reflexivity.
    + right. exact Hnil.
Qed.

Lemma match_decimals_all_digits (s : str) : all_digits s = true -> match_decimals s = None.
Proof.
  induction s as [|c s IH]; intros H; [reflexivity|].
  simpl. unfold decimals_at. rewrite (digit_run_all_nil (c :: s) H), skipn_all.
  destruct (truthy (c :: s)); simpl in H; apply andb_prop in H as [_ H]; auto.
Qed.

Lemma match_decimals_unfold (s : str) :
  match_decimals s = match decimals_at s with
                     | Some d => Some d
                     | None => match s with [] => None | _ :: s' => match_decimals s' end
                     end.
Proof. destruct s; reflexivity. Qed.

Lemma decimals_at_point (ip fp : str) :
  all_digits ip = true -> ip <> [] -> all_digits fp = true ->
  decimals_at (ip ++ "."%char :: fp) = if truthy fp then Some fp else None.
Proof.
  intros Hip Hne Hfp. unfold decimals_at.
  assert (Hd : digit_run (ip ++ "."%char :: fp) = ip)
    by (rewrite digit_run_all by exact Hip; apply app_nil_r).
  rewrite Hd, skipn_app_length. destruct ip as [|c ip]; [congruence|]. simpl.
  rewrite digit_run_all_nil by exact Hfp. destruct fp; reflexivity.
Qed.

Lemma match_decimals_point (ip fp : str) :
  all_digits ip = true -> ip <> [] -> all_digits fp = true ->
  match_decimals (ip ++ "."%char :: fp) = if truthy fp then Some fp else None.
Proof.
  intros Hip Hne Hfp. induction ip as [|c ip IH]; [congruence|].
  rewrite match_decimals_unfold, decimals_at_point by assumption.
  destruct fp as [|f fp]; [|reflexivity]. cbn [truthy app].
  simpl in Hip. apply andb_prop in Hip as [_ Hip].
  destruct ip as [|c' ip]; [reflexivity|]. apply IH; [exact Hip|congruence].
Qed.

Lemma dsd_try_none (ds decimals s : str) (k : nat) :
  (forall j, 1 <= j <= k -> starts_with (skipn j s) ds = false) ->
  dsd_try ds decimals s k = None.
Proof.
  induction k as [|k IH]; intros H; [reflexivity|]. cbn [dsd_try].
  rewrite H by lia. simpl. apply IH. intros j Hj. apply H. lia.
Qed.

Lemma ends_digit_cons (c : ascii) (y : str) :
  y <> [] -> ends_digit (c :: y) = ends_digit y.
Proof.
  intros Hy. unfold ends_digit. simpl.
  destruct (rev y) as [|a r] eqn:E.
  - apply (f_equal (@rev _)) in E. rewrite rev_involutive in E. simpl in E. congruence.
  - reflexivity.
Qed.

(** No digit, no match: the scan leaves the text alone. *)
Lemma gsub_dsd_no_digit (ds decimals t : str) :
  forallb (fun c => negb (is_digit c)) t = true -> gsub (dsd_matcher ds decimals) t 0 = t.
Proof.
  induction t as [|c t IH]; intros H; [reflexivity|].
  cbn [gsub]. unfold dsd_matcher at 1. rewrite digit_run_no_digit by exact H. cbn [length dsd_try].
  cbn [forallb] in H. apply andb_prop in H as [_ H]. rewrite IH by exact H. reflexivity.
Qed.

(** The global [(\d+)(DS)(\d+)] replacement on a string with one decimal
    separator [d] after a digit, followed by a fraction and a tail without
    digits: the fraction is replaced by [decimals], the tail kept. *)
Lemma gsub_dsd_tail (d : ascii) (x f t decimals : str) :
  is_digit d = false -> f <> [] -> all_digits f = true ->
  forallb (fun c => negb (is_digit c)) t = true ->
  mem_char d x = false -> ends_digit x = true ->
  gsub (dsd_matcher [d] decimals) (x ++ d :: f ++ t) 0 = x ++ d :: decimals ++ t.
Proof.
  intros Hd Hf Hfd Ht. induction x as [|c x IH]; intros Hx Hend; [discriminate|].
  destruct (all_digits (c :: x)) eqn:Hall.
  - assert (Hrun : digit_run ((c :: x) ++ d :: f ++ t) = c :: x)
      by (rewrite digit_run_all by exact Hall; rewrite digit_run_stop by exact Hd; apply app_nil_r).
    cbn [app gsub]. unfold dsd_matcher. rewrite (app_comm_cons x (d :: f ++ t) c), Hrun.
    set (k := length (c :: x)).
    assert (Hk : k = S (length x)) by reflexivity. rewrite Hk at 1. cbn [dsd_try]. rewrite <- Hk.
    unfold k. rewrite skipn_app_length. cbn [skipn length starts_with].
    rewrite Ascii.eqb_refl, digit_run_all, (digit_run_no_digit t), app_nil_r by assumption.
    destruct f as [|a f]; [congruence|]. cbn [truthy andb].
    replace (firstn (S (length x)) ((c :: x) ++ d :: (a :: f) ++ t)) with (c :: x)
      by (change (S (length x)) with (length (c :: x));
          rewrite firstn_app, firstn_all, Nat.sub_diag, firstn_O, app_nil_r; reflexivity).
    replace (S (length x) + 1 + length (a :: f) - 1) with (length (x ++ d :: a :: f))
      by (rewrite length_app; simpl; lia).
    replace (x ++ d :: (a :: f) ++ t) with ((x ++ d :: a :: f) ++ t)
      by (rewrite <- app_assoc; reflexivity).
    rewrite gsub_app_skip. fold (dsd_matcher [d] decimals).
    rewrite gsub_dsd_no_digit by exact Ht. rewrite <- !app_assoc. reflexivity.
  - destruct (digit_run_not_all (c :: x) (d :: f ++ t) Hall) as [Hrun Hlt].
    cbn [app gsub]. unfold dsd_matcher at 1. rewrite (app_comm_cons x (d :: f ++ t) c), Hrun.
    rewrite dsd_try_none.
    + simpl in Hx. apply orb_false_iff in Hx as [_ Hx].
      destruct x as [|c' x].
      * unfold ends_digit in Hend. simpl in Hend, Hall. rewrite Hend in Hall. discriminate.
      * cbn [app]. f_equal. apply IH; [exact Hx|].
        rewrite <- Hend. symmetry. apply ends_digit_cons. discriminate.
    + intros j Hj. apply starts_with_skipn_absent; [exact Hx|lia].
Qed.

Lemma gsub_dsd (d : ascii) (x f decimals : str) :
  is_digit d = false -> f <> [] -> all_digits f = true ->
  mem_char d x = false -> ends_digit x = true ->
  gsub (dsd_matcher [d] decimals) (x ++ d :: f) 0 = x ++ d :: decimals.
Proof.
  intros. rewrite <- (app_nil_r f), gsub_dsd_tail by (try reflexivity; assumption).
  rewrite app_nil_r. reflexivity.
Qed.

(** The theorem at [1.5] with [decimalScale] 11. *)
Lemma decimalScale_out_of_range_witness :
  formatValue (H := example_resolver) (with_scale (opts (js "1.5")) (Some 11%Z)) = Throw RangeError.
Proof.
  apply (decimalScale_out_of_range (R := example_resolver) _ 11%Z);
    first [reflexivity | right; lia].
Defined.

End FormatValue.
