(* ===== verification/FormatSpec.v ===== *)
(** * FormatSpec: the part rewrite and the negativity regex, declaratively

    Module [FormatSpec] holds two views of routines of
    src/src/utils/formatValue.ts.
    - [part_table] and [first_part_table]: what one Intl part contributes
      to the text [replaceParts] builds (lines 169-231), read off the
      reducer.  [replaceParts_split] shows the [reduce] with index is the
      first part's contribution followed by the others'.  On it rests
      [group_separator_ignored]: on every part list Intl emits, the
      configured [groupSeparator] and [disableGroupSeparators] change
      nothing, because the code looks for group marks in [integer] parts
      and Intl labels them [group] (spec section 4.2 says the configured
      separator replaces the locale's mark).
    - [neg_regex]: the language of the regex of line 78,
      [^\d?-P\d], where [P] is the escaped prefix with its last character
      optional.  The scanner [FormatValue.isNegative] decides it. *)

From Stdlib Require Import Ascii String List Arith Lia ZArith Bool.
Import ListNotations.
From S2P Require Import Prelude Intl Format.
Open Scope js_scope.

Module FormatSpec.
Import FormatValue.

(** ** The parts' contributions *)

(** What the reducer appends for a part other than a prefixed first
    part.  Like the code it keeps [group] parts as they are. *)
Definition part_table (o : FormatValueOptions) (p : part) : str :=
  let v := pvalue p in
  match ptype p with
  | PCurrency => if truthy (prefix o) then [] else v
  | PInteger =>
      if has_digit v then v
      else if disableGroupSeparators o then []
      else if truthy (groupSeparator o) then groupSeparator o else v
  | PDecimal =>
      match decimalScale o with
      | Some 0%Z => []
      | _ => if truthy (decimalSeparator o) then decimalSeparator o else v
      end
  | PFraction => match decimalScale o with Some n => slice0 v n | None => v end
  | _ => v
  end.

(** What the first part contributes when there is a prefix. *)
Definition first_part_table (o : FormatValueOptions) (p : part) : str :=
  match ptype p with
  | PMinusSign => pvalue p ++ prefix o
  | PCurrency => prefix o
  | _ => prefix o ++ pvalue p
  end.

(** Lines 106-107: [replaceParts(numberFormatter.formatToParts(Number(value)),
    options)], the text the formatter starts from. *)
Definition intl_text (nf : number_format) (value : str) (o : FormatValueOptions) : str :=
  replaceParts (format_to_parts nf (js_Number value)) o.

(** ** The negativity regex *)

(** The strings [P] matches: nothing without a prefix, else the prefix
    with or without its last character. *)
Definition prefix_rx (pre m : str) : Prop :=
  match pre with
  | [] => m = []
  | _ => m = pre \/ m = removelast pre
  end.

(** [^\d?-P\d] matches at the start of [v]. *)
Definition neg_regex (pre v : str) : Prop :=
  exists o m d rest,
    v = o ++ "-"%char :: m ++ d :: rest
    /\ (o = [] \/ exists x, o = [x] /\ is_digit x = true)
    /\ prefix_rx pre m /\ is_digit d = true.

(** ** Lemmas *)

Lemma replace_part_later (o : FormatValueOptions) (i : nat) (prev : list str) (p : part) :
  (i =? 0) && truthy (prefix o) = false ->
  concat (replace_part o i prev p) = concat prev ++ part_table o p.
Proof.
  intros Hi. unfold replace_part, part_table. rewrite Hi.
  destruct (ptype p);
    repeat match goal with
    | |- context [if ?b then _ else _] => destruct b eqn:?
    | |- context [match decimalScale o with _ => _ end] => destruct (decimalScale o) as [[| |]|]
    end;
    rewrite ?concat_app; cbn [concat]; rewrite ?app_nil_r; try reflexivity;
    repeat match goal with
    | H : _ && _ = true |- _ => apply andb_prop in H as [? ?]
    | H : (_ =s? _) = true |- _ => apply str_eqb_eq in H
    | H : negb _ = true |- _ => apply negb_true_iff in H
    | H : negb _ = false |- _ => apply negb_false_iff in H
    end;
    congruence.
Qed.

Lemma reduce_parts_later (o : FormatValueOptions) (i : nat) (prev : list str) (ps : list part) :
  concat (reduce_parts o (S i) prev ps) = concat prev ++ concat (map (part_table o) ps).
Proof.
  revert i prev. induction ps as [|p ps IH]; intros i prev; cbn [reduce_parts map concat].
  - rewrite app_nil_r. reflexivity.
  - rewrite IH, replace_part_later, app_assoc by reflexivity. reflexivity.
Qed.

Lemma digit_head_spec (s : str) :
  digit_head s = true <-> exists d rest, s = d :: rest /\ is_digit d = true.
Proof.
  destruct s as [|d rest]; cbn; split.
  - discriminate.
  - intros (? & ? & E & _). discriminate.
  - intros H. exists d, rest. split; [reflexivity|exact H].
  - intros (? & ? & E & H). injection E as -> ->. exact H.
Qed.

Lemma starts_with_spec (s p : str) : starts_with s p = true <-> exists t, s = p ++ t.
Proof.
  split.
  - intros H. exists (skipn (length p) s). exact (starts_with_true s p H).
  - intros [t ->]. apply starts_with_app.
Qed.

Lemma replace_part_prefixed (o : FormatValueOptions) (p : part) :
  truthy (prefix o) = true -> concat (replace_part o 0 [[]] p) = first_part_table o p.
Proof.
  intros H. unfold replace_part, first_part_table. rewrite H. cbn [Nat.eqb andb].
  destruct (ptype p); cbn [concat app]; rewrite ?app_nil_r; reflexivity.
Qed.

Lemma last_char_snoc' (x : str) (c : ascii) : last_char (x ++ [c]) = [c].
Proof. unfold last_char. rewrite rev_app_distr. reflexivity. Qed.

Lemma neg_rx_tail_spec (pre s : str) :
  neg_rx_tail pre s = true
  <-> exists m d rest, s = "-"%char :: m ++ d :: rest /\ prefix_rx pre m /\ is_digit d = true.
Proof.
  destruct s as [|c r].
  { split; [discriminate|]. intros (? & ? & ? & E & _). discriminate. }
  unfold neg_rx_tail. rewrite andb_true_iff.
  destruct pre as [|a pr] eqn:Ep.
  - rewrite digit_head_spec. split.
    + intros [Hc (d & rest & -> & Hd)]. apply Ascii.eqb_eq in Hc. subst c.
      exists [], d, rest. repeat split; assumption.
    + intros (m & d & rest & E & Hm & Hd). cbn in Hm. subst m. injection E as -> ->.
      split; [reflexivity|]. exists d, rest. split; [reflexivity|exact Hd].
  - assert (Hne : a :: pr <> []) by discriminate.
    destruct (exists_last Hne) as [core [l El]]. rewrite El.
    rewrite removelast_last, last_char_snoc'.
    assert (Hrx : forall m, prefix_rx (core ++ [l]) m <-> m = core ++ [l] \/ m = core)
      by (intros m; rewrite <- El; cbn [prefix_rx]; rewrite El, removelast_last; tauto).
    split.
    + intros [Hc H]. apply Ascii.eqb_eq in Hc. subst c.
      destruct (starts_with r core) eqn:Hs; [|discriminate].
      apply starts_with_true in Hs. set (r2 := skipn (length core) r) in *.
      apply orb_true_iff in H as [H|H].
      * apply andb_prop in H as [H1 H2]. apply starts_with_true in H1.
        apply digit_head_spec in H2 as (d & rest & E2 & Hd). cbn [length skipn] in *.
        exists (core ++ [l]), d, rest. rewrite Hrx. split; [|split; [left; reflexivity|exact Hd]].
        rewrite Hs, H1, E2, <- app_assoc. reflexivity.
      * apply digit_head_spec in H as (d & rest & E2 & Hd).
        exists core, d, rest. rewrite Hrx. split; [|split; [right; reflexivity|exact Hd]].
        rewrite Hs, E2. reflexivity.
    + intros (m & d & rest & E & Hm & Hd). injection E as -> ->.
      split; [reflexivity|]. apply Hrx in Hm as [->| ->].
      * rewrite <- app_assoc, starts_with_app, skipn_app_length. cbn.
        rewrite Ascii.eqb_refl, Hd. reflexivity.
      * rewrite starts_with_app, skipn_app_length. cbn. rewrite Hd, orb_true_r. reflexivity.
Qed.

Lemma replaceParts_drop_currency (o : FormatValueOptions) (neg : bool) (m sym g0 : str)
  (rest : list part) :
  truthy (prefix o) = true -> has_digit g0 = true ->
  replaceParts ((if neg then [mkPart PMinusSign m] else [])
                ++ mkPart PCurrency sym :: mkPart PInteger g0 :: rest) o
  = replaceParts ((if neg then [mkPart PMinusSign m] else []) ++ mkPart PInteger g0 :: rest) o.
Proof.
  intros Hp Hg. unfold replaceParts.
  destruct neg; cbn [app]; rewrite !(reduce_parts_cons o 0 [[]]), !(reduce_parts_later o 0);
    cbn [map concat].
  - unfold part_table at 1. cbn [ptype pvalue]. rewrite Hp. reflexivity.
  - rewrite !replace_part_prefixed by exact Hp. unfold first_part_table, part_table at 1.
    cbn [ptype pvalue]. rewrite Hg, <- !app_assoc. reflexivity.
Qed.

(** Without a prefix every part, the first included, is its table entry. *)
Lemma replaceParts_unprefixed (o : FormatValueOptions) (parts : list part) :
  truthy (prefix o) = false -> replaceParts parts o = concat (map (part_table o) parts).
Proof.
  intros Hp. destruct parts as [|p ps]; [reflexivity|].
  unfold replaceParts. cbn [reduce_parts].
  rewrite (reduce_parts_later o 0), replace_part_later by (rewrite Hp, andb_false_r; reflexivity).
  reflexivity.
Qed.

(** The [reduce] with index: the first part's contribution, with the
    prefix when there is one, then the others'. *)
Lemma replaceParts_split (parts : list part) (o : FormatValueOptions) :
  replaceParts parts o
  = match parts with
    | [] => []
    | p :: ps =>
        (if truthy (prefix o) then first_part_table o p else part_table o p)
        ++ concat (map (part_table o) ps)
    end.
Proof.
  destruct parts as [|p ps]; [reflexivity|].
  unfold replaceParts. cbn [reduce_parts].
  rewrite (reduce_parts_later o 0). f_equal.
  destruct (truthy (prefix o)) eqn:Hp.
  - exact (replace_part_prefixed o p Hp).
  - rewrite replace_part_later by (rewrite Hp; reflexivity). reflexivity.
Qed.

(** A part whose [integer] value holds a digit contributes the same text
    whatever the group separator options. *)
Lemma part_table_separators (o : FormatValueOptions) (gs : str) (dis : bool) (p : part) :
  match ptype p with PInteger => has_digit (pvalue p) | _ => true end = true ->
  part_table (with_separators o (decimalSeparator o) gs dis) p = part_table o p.
Proof.
  unfold part_table. intros H. destruct (ptype p); try reflexivity.
  cbn [with_separators groupSeparator disableGroupSeparators]. rewrite H. reflexivity.
Qed.

(** ** Properties *)

(** C7: the configured [groupSeparator] and [disableGroupSeparators]
    are dead options: for every string the formatter passes to [Number]
    and every Intl format of a locale grouping by at least one digit,
    [replaceParts] builds the same text whatever their values, keeping the
    locale's group marks.  Spec section 4.2 says the configured separator
    replaces the locale's marks and that grouping can be disabled. *)
Theorem group_separator_ignored (nf : number_format) (s : str) (o : FormatValueOptions)
  (gs : str) (dis : bool) :
  1 <= ld_primary (nf_locale nf) ->
  intl_text nf s (with_separators o (decimalSeparator o) gs dis) = intl_text nf s o.
Proof.
  intros Hp. unfold intl_text. assert (H := format_to_parts_digits nf s Hp).
  revert H. generalize (format_to_parts nf (js_Number s)) as ps. intros ps H.
  rewrite !replaceParts_split. destruct ps as [|p ps]; [reflexivity|].
  unfold digits_in_integers in H. cbn [forallb] in H. apply andb_prop in H as [H0 H].
  change (prefix (with_separators o (decimalSeparator o) gs dis)) with (prefix o).
  f_equal.
  - destruct (truthy (prefix o)); [reflexivity|apply part_table_separators; exact H0].
  - f_equal. apply map_ext_in. intros q Hq. apply part_table_separators.
    rewrite forallb_forall in H. exact (H q Hq).
Qed.

(** C21: the scanner [isNegative] decides the regex of line 78: it
    returns [true] exactly on the strings that start with an optional
    digit, [-], the prefix with or without its last character, and a
    digit. *)
Theorem isNegative_regex (pre v : str) : isNegative pre v = true <-> neg_regex pre v.
Proof.
  unfold isNegative, neg_regex. rewrite orb_true_iff, andb_true_iff, digit_head_spec.
  split.
  - intros [[(x & r & -> & Hx) H]|H]; apply neg_rx_tail_spec in H as (m & d & rest & E & Hm & Hd).
    + exists [x], m, d, rest. cbn [tl] in E. rewrite E.
      split; [reflexivity|]. split; [right; exists x; split; [reflexivity|exact Hx]|].
      split; assumption.
    + exists [], m, d, rest. split; [exact E|]. split; [left; reflexivity|]. split; assumption.
  - intros (o & m & d & rest & E & [->|(x & -> & Hx)] & Hm & Hd).
    + right. apply neg_rx_tail_spec. exists m, d, rest. repeat split; assumption.
    + left. split.
      * exists x, ("-"%char :: m ++ d :: rest). split; [exact E|exact Hx].
      * apply neg_rx_tail_spec. exists m, d, rest. rewrite E. repeat split; assumption.
Qed.

(** The theorem at [1000000] in en-US with the separator [' '] and
    grouping disabled: the text is still [1,000,000]. *)
Lemma group_separator_ignored_witness :
  1 <= ld_primary en_US
  /\ intl_text {| nf_locale := en_US; nf_min_fd := 0 |} (js "1000000")
       (with_separators (opts (js "1000000")) (decimalSeparator (opts (js "1000000"))) (js " ") true)
     = js "1,000,000".
Proof.
  split; [cbn; lia|].
  rewrite (group_separator_ignored {| nf_locale := en_US; nf_min_fd := 0 |} (js "1000000")
             (opts (js "1000000")) (js " ") true) by (cbn; lia).
  reflexivity.
Defined.

(** The regex makes only the last character of the prefix optional: with
    the prefix ["US$"], ["-1"] is not negative, ["-US1"] is. *)
Example isNegative_partial_prefix :
  isNegative (js "US$") (js "-1") = false /\ isNegative (js "US$") (js "-US1") = true.
Proof. split; reflexivity. Qed.

End FormatSpec.
