(* ===== verification/Clean.v ===== *)
(** * Clean: the value cleaner [cleanValue]

    [cleanValue] is imported by src/src/components/CurrencyInput.tsx from
    [@/src/utils] (lines 13, 140, 239) but its file is not among the
    sources: Module [CleanValue] models it from section 4.1 of the spec, in
    the order the spec gives, with the options the component passes
    (lines 96-105):
    - the caller's [transformRawValue] hook first, then the ["-"]
      passthrough;
    - the prefix removed as a leading literal (before or after a leading
      [-], which records negativity);
    - a trailing [k]/[m]/[b] (any case) right after the number read as an
      abbreviation, unless [disableAbbreviations];
    - the detected suffix ([getSuffix]) removed as a trailing literal;
    - every occurrence of the group separator removed (unless it is the
      decimal separator), then every remaining character that is neither a
      digit nor part of the decimal separator ("never raises on malformed
      input");
    - the split at the first decimal separator, the abbreviation expanded
      by shifting the point (the result read back as [String(Number)]
      prints it: no leading zeros, no trailing fraction zeros), the
      fraction dropped when decimals are not allowed and truncated to
      [decimalsLimit] otherwise;
    - the sign kept only when negative values are allowed.
    The result keeps the configured decimal separator, as the call sites
    require ([stringValue === decimalSeparator] on line 145 and
    [stringValue.replace(decimalSeparator, '.')] on line 157). *)

From Stdlib Require Import Ascii String List Arith Lia ZArith Bool.
Import ListNotations.
From S2P Require Import Prelude Intl Suffix.
Open Scope js_scope.

Module CleanValue.

Record CleanValueOptions : Type := mkOptions {
  value : str;
  decimalSeparator : str;
  groupSeparator : str;
  allowDecimals : bool;
  decimalsLimit : nat;
  allowNegativeValue : bool;
  disableAbbreviations : bool;
  prefix : str;
  transformRawValue : str -> str
}.

(** The power of ten of an abbreviation letter. *)
Definition abbreviation (c : ascii) : nat :=
  if Ascii.eqb c "k" || Ascii.eqb c "K" then 3
  else if Ascii.eqb c "m" || Ascii.eqb c "M" then 6
  else if Ascii.eqb c "b" || Ascii.eqb c "B" then 9
  else 0.

Definition strip_lit (p s : str) : str :=
  if truthy p && starts_with s p then skipn (length p) s else s.

(** Prefix and sign: [(negative, rest)]. *)
Definition split_sign (prefix s : str) : bool * str :=
  match strip_lit prefix s with
  | c :: r => if Ascii.eqb c "-" then (true, strip_lit prefix r) else (false, c :: r)
  | [] => (false, [])
  end.

(** A trailing abbreviation letter right after a digit or the decimal
    separator, in a string with a digit: [(exponent, rest)]. *)
Definition split_abbreviation (disable : bool) (ds s : str) : nat * str :=
  if disable then (0, s) else
  match rev s with
  | c :: (d :: _) as r =>
      let e := abbreviation c in
      if negb (e =? 0) && (is_digit d || mem_char d ds) && has_digit r
      then (e, rev r) else (0, s)
  | _ => (0, s)
  end.

Definition strip_suffix (gs ds s : str) : str :=
  let t := getSuffix s gs ds in
  if truthy t then firstn (length s - length t) s else s.

Definition remove_group (gs ds s : str) : str :=
  if truthy gs && negb (gs =s? ds) then replace_all s gs [] else s.

Definition keep_number_chars (ds s : str) : str :=
  filter (fun c => is_digit c || mem_char c ds) s.

(** Integer digits, fraction digits, and whether a separator was typed. *)
Definition split_decimal (ds s : str) : str * str * bool :=
  match (if truthy ds then index_of s ds else None) with
  | Some i => (filter is_digit (firstn i s), filter is_digit (skipn (i + length ds) s), true)
  | None => (filter is_digit s, [], false)
  end.

(** The point moved [e] places right, printed as [String(Number(...))]. *)
Definition expand (e : nat) (ip fp : str) (had : bool) : str * str * bool :=
  if e =? 0 then (ip, fp, had) else
  let ip' := int_digits (ip ++ firstn e fp ++ repeat "0"%char (e - length fp)) in
  let fp' := strip_trailing_zeros (skipn e fp) in
  (ip', fp', truthy fp').

Definition cleanValue (o : CleanValueOptions) : str :=
  let ds := decimalSeparator o in
  let gs := groupSeparator o in
  let t := transformRawValue o (value o) in
  if t =s? js "-" then t else
  let '(neg, s1) := split_sign (prefix o) t in
  let '(e, s2) := split_abbreviation (disableAbbreviations o) ds s1 in
  let s3 := keep_number_chars ds (remove_group gs ds (strip_suffix gs ds s2)) in
  let '(ip0, fp0, had0) := split_decimal ds s3 in
  let '(ip, fp1, had1) := expand e ip0 fp0 had0 in
  let had := had1 && allowDecimals o in
  let fp := firstn (decimalsLimit o) fp1 in
  (if neg && allowNegativeValue o then js "-" else [])
    ++ ip ++ (if had then ds ++ fp else []).

(** The options the component builds, with the identity hook. *)
Definition copts (v ds gs prefix : str) : CleanValueOptions :=
  {| value := v; decimalSeparator := ds; groupSeparator := gs; allowDecimals := true;
     decimalsLimit := 2; allowNegativeValue := true; disableAbbreviations := false;
     prefix := prefix; transformRawValue := fun s => s |}.

Example clean_grouped : cleanValue (copts (js "$1,234.56") (js ".") (js ",") (js "$")) = js "1234.56".
Proof. reflexivity. Qed.

Example clean_abbreviation : cleanValue (copts (js "1.5k") (js ".") (js ",") []) = js "1500".
Proof. reflexivity. Qed.

(** ** Lemmas *)

Lemma keep_strip_suffix (gs ds s : str) :
  keep_number_chars ds (strip_suffix gs ds s) = keep_number_chars ds s.
Proof.
  unfold strip_suffix. destruct (getSuffix_split s gs ds) as [E|[Hs Ht]];
    set (t := getSuffix s gs ds) in *.
  - rewrite E. reflexivity.
  - destruct (truthy t); [|reflexivity].
    set (A := firstn (length s - length t) s) in *. rewrite Hs.
    unfold keep_number_chars. rewrite filter_app, (filter_none _ t), app_nil_r.
    + reflexivity.
    + rewrite forallb_forall in *. intros c Hc. specialize (Ht c Hc).
      unfold body_char in Ht. destruct (is_digit c), (mem_char c gs), (mem_char c ds); easy.
Qed.

Lemma keep_remove_group (gs ds s : str) :
  forallb (fun c => negb (is_digit c || mem_char c ds)) gs = true ->
  keep_number_chars ds (remove_group gs ds s) = keep_number_chars ds s.
Proof.
  intros H. unfold remove_group. destruct gs as [|g gs']; [reflexivity|].
  destruct (truthy (g :: gs') && negb ((g :: gs') =s? ds)); [|reflexivity].
  unfold replace_all.
  unfold keep_number_chars. rewrite filter_gsub_erase; [reflexivity|discriminate|exact H].
Qed.

Lemma split_sign_positive (prefix x : str) (c : ascii) (r : str) :
  x = c :: r -> is_digit c = true -> split_sign prefix (prefix ++ x) = (false, x).
Proof.
  intros -> Hc. unfold split_sign.
  assert (E : strip_lit prefix (prefix ++ c :: r) = c :: r).
  { unfold strip_lit. destruct prefix as [|a p]; [reflexivity|].
    rewrite starts_with_app. simpl. apply skipn_app_length. }
  rewrite E. destruct (Ascii.eqb_spec c "-"); [subst; discriminate|reflexivity].
Qed.

Lemma split_sign_negative (prefix x : str) :
  match prefix with a :: _ => Ascii.eqb a "-" = false | [] => True end ->
  split_sign prefix ("-"%char :: prefix ++ x) = (true, x).
Proof.
  intros Hp. unfold split_sign.
  assert (E : strip_lit prefix ("-"%char :: prefix ++ x) = "-"%char :: prefix ++ x).
  { unfold strip_lit. destruct prefix as [|a p]; [reflexivity|].
    simpl. rewrite Hp. reflexivity. }
  rewrite E. simpl. f_equal. unfold strip_lit.
  destruct prefix as [|a p]; [reflexivity|]. rewrite starts_with_app. apply skipn_app_length.
Qed.

Lemma split_abbreviation_last (disable : bool) (ds s : str) (c : ascii) (y : str) :
  s = y ++ [c] -> abbreviation c = 0 -> split_abbreviation disable ds s = (0, s).
Proof.
  intros -> Hc. unfold split_abbreviation. destruct disable; [reflexivity|].
  rewrite rev_app_distr. simpl. rewrite Hc. destruct (rev y); reflexivity.
Qed.

Lemma split_abbreviation_after (disable : bool) (ds s : str) (c d : ascii) (y : str) :
  s = y ++ [d; c] -> (is_digit d || mem_char d ds) = false ->
  split_abbreviation disable ds s = (0, s).
Proof.
  intros -> Hd. unfold split_abbreviation. destruct disable; [reflexivity|].
  replace (y ++ [d; c]) with ((y ++ [d]) ++ [c]) by (rewrite <- app_assoc; reflexivity).
  rewrite !rev_app_distr. simpl. rewrite Hd, andb_false_r. reflexivity.
Qed.

Lemma abbreviation_digit (c : ascii) : is_digit c = true -> abbreviation c = 0.
Proof.
  intros H. unfold abbreviation.
  repeat match goal with
  | |- context [Ascii.eqb c ?l] => destruct (Ascii.eqb_spec c l); [subst; discriminate|]
  end. reflexivity.
Qed.

Lemma split_decimal_point (d : ascii) (ip f : str) :
  is_digit d = false -> all_digits ip = true -> all_digits f = true ->
  split_decimal [d] (ip ++ d :: f) = (ip, f, true).
Proof.
  intros Hd Hip Hf. unfold split_decimal. cbn [truthy].
  rewrite index_of_first by (apply mem_char_all_digits; assumption).
  rewrite firstn_app, firstn_all, Nat.sub_diag, app_nil_r.
  replace (length ip + length [d]) with (length (ip ++ [d])) by apply length_app.
  replace (ip ++ d :: f) with ((ip ++ [d]) ++ f) by (rewrite <- app_assoc; reflexivity).
  rewrite skipn_app_length. simpl. rewrite !filter_all by assumption. reflexivity.
Qed.

Lemma split_decimal_none (d : ascii) (ip : str) :
  is_digit d = false -> all_digits ip = true -> split_decimal [d] ip = (ip, [], false).
Proof.
  intros Hd Hip. unfold split_decimal. cbn [truthy].
  rewrite index_of_absent by (apply mem_char_all_digits; assumption).
  rewrite filter_all by assumption. reflexivity.
Qed.

End CleanValue.
