(* ===== verification/Cursor.v ===== *)
(** * Cursor: caret repositioning

    Module [RepositionCursor] translates src/src/utils/repositionCursor.ts
    (the props type, lines 1-7, and [repositionCursor], lines 13-39): when
    there is a previous display string and a non-zero caret, a [Backspace]
    removes the character before the reported caret with
    [splitValue.splice(cursorPosition - 1, 1)] and moves the caret back by
    two.  [newCursor] is the caret arithmetic of [processChange] in
    src/src/components/CurrencyInput.tsx (lines 166-181): shift by the
    prefix for carets 0 and 1, by the length change otherwise, and clamp a
    non-positive result to the prefix length.  Carets are JS numbers; they
    are integers here ([Z]), since [cursorPosition -= 2] can go negative. *)

From Stdlib Require Import Ascii String List Arith Lia ZArith Bool.
Import ListNotations.
From S2P Require Import Prelude.
Open Scope js_scope.

Module RepositionCursor.

Record RepositionCursorProps : Type := mkProps {
  selectionStart : option Z;    (** [number | null | undefined] *)
  value : str;
  lastKeyStroke : option str;   (** [string | null] *)
  stateValue : str;             (** [undefined] read as [''] *)
  groupSeparator : str
}.

Record RepositionCursorResult : Type := mkResult {
  modifiedValue : str;
  cursorPosition : option Z
}.

(** [Array.prototype.splice(start, 1)] on the characters of a string,
    keeping what remains: a negative start counts from the end, a start
    past the end removes nothing. *)
Definition splice1 (l : str) (start : Z) : str :=
  let len := Z.of_nat (length l) in
  let s := if (start <? 0)%Z then Z.max (len + start) 0 else Z.min start len in
  firstn (Z.to_nat s) l ++ skipn (Z.to_nat s + 1) l.

Definition is_backspace (k : option str) : bool :=
  match k with Some s => s =s? js "Backspace" | None => false end.

Definition repositionCursor (p : RepositionCursorProps) : RepositionCursorResult :=
  match selectionStart p with
  | Some cp =>
      if truthy (stateValue p) && negb (cp =? 0)%Z then
        if is_backspace (lastKeyStroke p) then
          mkResult (splice1 (value p) (cp - 1)) (Some (cp - 2)%Z)
        else mkResult (value p) (Some cp)
      else mkResult (value p) (selectionStart p)
  | None => mkResult (value p) (selectionStart p)
  end.

(** Lines 168-181 of CurrencyInput.tsx; [formattedLen] and [valueLen] are
    the lengths of the formatted value and of the raw text of the event. *)
Definition newCursor (cursorPosition : Z) (prefix : str) (formattedLen valueLen : Z) : Z :=
  let n := if (cursorPosition =? 0)%Z || (cursorPosition =? 1)%Z
           then (cursorPosition + (if truthy prefix then Z.of_nat (length prefix) + 1 else 0))%Z
           else (cursorPosition + (formattedLen - valueLen))%Z in
  if (n <=? 0)%Z then (if truthy prefix then Z.of_nat (length prefix) else 0%Z) else n.

(** ** Lemmas *)

Lemma splice1_in_range (l : str) (i : nat) :
  i < length l -> splice1 l (Z.of_nat i) = firstn i l ++ skipn (S i) l.
Proof.
  intros Hi. unfold splice1.
  destruct (Z.ltb_spec (Z.of_nat i) 0); [lia|].
  rewrite Z.min_l by lia. rewrite Nat2Z.id. rewrite Nat.add_1_r. reflexivity.
Qed.

Lemma length_splice1_in_range (l : str) (i : nat) :
  i < length l -> length (splice1 l (Z.of_nat i)) = length l - 1.
Proof.
  intros Hi. rewrite splice1_in_range by exact Hi.
  rewrite length_app, length_firstn, length_skipn. lia.
Qed.

(** ** Properties *)

(** C4: with a previous display string and a caret [cp] inside the raw text,
    [Backspace] removes exactly the character before the caret (the one at
    index [cp - 1]) and moves the caret back by two. *)
Theorem repositionCursor_backspace (v sv gs : str) (cp : nat) :
  truthy sv = true -> 1 <= cp <= length v ->
  repositionCursor (mkProps (Some (Z.of_nat cp)) v (Some (js "Backspace")) sv gs)
  = mkResult (firstn (cp - 1) v ++ skipn cp v) (Some (Z.of_nat cp - 2)%Z).
Proof.
  intros Hsv Hcp. unfold repositionCursor. simpl. rewrite Hsv.
  destruct (Z.eqb_spec (Z.of_nat cp) 0); [lia|]. simpl.
  replace (Z.of_nat cp - 1)%Z with (Z.of_nat (cp - 1)) by lia.
  rewrite splice1_in_range by lia. do 3 f_equal. lia.
Qed.

Lemma repositionCursor_backspace_witness :
  truthy (js "1,234") = true /\ 1 <= 4 <= length (js "1,23") /\
  repositionCursor (mkProps (Some (Z.of_nat 4)) (js "1,23") (Some (js "Backspace")) (js "1,234") (js ","))
  = mkResult (js "1,2") (Some 2%Z).
Proof.
  split; [reflexivity|]. split; [simpl; lia|].
  rewrite (repositionCursor_backspace (js "1,23") (js "1,234") (js ",") 4); [reflexivity|reflexivity|simpl; lia].
Defined.

(** C5: any other key (or no key) leaves the raw text and the caret alone. *)
Theorem repositionCursor_other_key (p : RepositionCursorProps) :
  is_backspace (lastKeyStroke p) = false ->
  repositionCursor p = mkResult (value p) (selectionStart p).
Proof.
  intros Hk. unfold repositionCursor.
  destruct (selectionStart p) as [cp|]; [|reflexivity].
  destruct (truthy (stateValue p) && negb (cp =? 0)%Z); [|reflexivity].
  rewrite Hk. reflexivity.
Qed.

Lemma repositionCursor_other_key_witness :
  is_backspace (Some (js "5")) = false /\
  repositionCursor (mkProps (Some 3%Z) (js "1,2345") (Some (js "5")) (js "1,234") (js ","))
  = mkResult (js "1,2345") (Some 3%Z).
Proof.
  split; [reflexivity|].
  exact (repositionCursor_other_key (mkProps (Some 3%Z) (js "1,2345") (Some (js "5")) (js "1,234") (js ",")) eq_refl).
Defined.

(** C6: for a caret of at least 2 inside the raw text, the caret computed by
    [processChange] lies in the formatted text (when the prefix fits). *)
Theorem newCursor_bounds (cp : Z) (prefix : str) (flen vlen : Z) :
  (2 <= cp <= vlen)%Z -> (Z.of_nat (length prefix) <= flen)%Z ->
  (0 <= newCursor cp prefix flen vlen <= flen)%Z.
Proof.
  intros Hcp Hp. unfold newCursor.
  destruct (Z.eqb_spec cp 0); [lia|]. destruct (Z.eqb_spec cp 1); [lia|]. simpl.
  destruct (Z.leb_spec (cp + (flen - vlen)) 0); [destruct (truthy prefix)|]; lia.
Qed.

Lemma newCursor_bounds_witness :
  (2 <= 4 <= 5)%Z /\ (Z.of_nat (length (js "$")) <= 6)%Z /\
  (0 <= newCursor 4 (js "$") 6 5 <= 6)%Z.
Proof.
  split; [lia|]. split; [simpl; lia|].
  apply newCursor_bounds; [lia|simpl; lia].
Defined.

End RepositionCursor.
