(* ===== verification/RoundTrip.v ===== *)
(** * RoundTrip: the formatter against its specification, clean after format

    A normalized value (spec section 3) is a sign, integer digits without
    redundant leading zeros and an optional fraction; [render d v] is its
    string with decimal separator [d].  [display] is the abstract
    specification of what [formatValue] shows for it: sign, prefix, integer
    digits grouped by the locale's group mark, the separator and the
    fraction as typed, suffix.  It holds in a locale without a currency
    style, and in one whose currency symbol comes first without a literal
    when a prefix is given ([currency_ok]).  There the prefix replaces the
    symbol, through the first-part rule of [replaceParts].

    - [formatValue_display]: [formatValue] implements [display]
      (functional refinement), for every normalized value with at most ten
      fraction digits, every [currency_ok] locale, and every configuration
      whose separator is a single non-digit character absent from the
      prefix and the locale's group mark.
    - [cleanValue_display]: [cleanValue] maps the display back to the
      value, when the suffix and group separator are made of non-number
      characters and the value obeys [allowNegativeValue], [allowDecimals]
      and [decimalsLimit].
    - [clean_format_roundtrip]: the composition, spec section 8's round
      trip; [format_clean_idempotent]: its idempotence.
    The two section lemmas [formatValue_shows] and [cleanValue_reads]
    carry the proofs; the component's theorems use them too. *)

From Stdlib Require Import Ascii String List Arith Lia ZArith Bool.
Import ListNotations.
From S2P Require Import Prelude Intl Suffix Format FormatSpec Clean.
Open Scope js_scope.

Module RoundTrip.

Record normalized : Type := mkNormalized {
  negative : bool;
  int_part : str;
  frac_part : option str   (** [Some []]: the value ends with the separator *)
}.

Definition sign (v : normalized) : str := if negative v then js "-" else [].

Definition tail (d : ascii) (v : normalized) : str :=
  match frac_part v with Some f => d :: f | None => [] end.

Definition render (d : ascii) (v : normalized) : str := sign v ++ int_part v ++ tail d v.

Definition canonical (v : normalized) : bool :=
  all_digits (int_part v) && truthy (int_part v) && (int_digits (int_part v) =s? int_part v)
  && match frac_part v with
     | Some f => all_digits f && (length f <=? max_fraction_digits)
     | None => true
     end.

Definition display (ld : locale_data) (d : ascii) (prefix suffix : str) (v : normalized) : str :=
  sign v ++ prefix ++ join (ld_group ld) (group_digits ld (int_part v)) ++ tail d v ++ suffix.

(** The fraction Intl shows for [v] (at most ten digits, no minimum):
    the typed one without its trailing zeros. *)
Definition shown_fraction (v : normalized) : str :=
  strip_trailing_zeros (match frac_part v with Some f => f | None => [] end).

(** Intl's parts for the number [v], before any currency parts. *)
Definition number_parts (ld : locale_data) (v : normalized) : list part :=
  (if negative v then [mkPart PMinusSign (ld_minus ld)] else [])
  ++ integer_parts ld (group_digits ld (int_part v))
  ++ (if truthy (shown_fraction v)
      then [mkPart PDecimal (ld_decimal ld); mkPart PFraction (shown_fraction v)] else []).

(** The values the host represents exactly: at most 15 digits in all
    (the [DBL_DIG] of IEEE doubles).  [Number(s)] is then the double
    nearest to [s], and its shortest decimal representation, the digits
    Intl prints, is [s] again; [js_Number], [parse_float] and
    [format_to_parts] compute with exact decimals and describe the program
    only there.  Beyond it the program shows the double's digits
    ([12345678901234567890] gives [12,345,678,901,234,567,000] or
    [...,168] depending on the engine's digit generation). *)
Definition digit_count (v : normalized) : nat :=
  length (int_part v) + match frac_part v with Some f => length f | None => 0 end.

Definition fits_double (v : normalized) : bool := digit_count v <=? 15.

(** The locales the refinement covers: no currency style, or a currency
    symbol written first without a literal (en-US [$1,234.50]) when a
    prefix is given.  The component always gives one there: it passes
    [prefix || localeConfig.prefix], the symbol itself
    ([CurrencyInput.configured_currency_ok]). *)
Definition currency_ok (ld : locale_data) (prefix : str) : bool :=
  match ld_currency ld with
  | None => true
  | Some cp => cur_before cp && negb (truthy (cur_space cp)) && truthy prefix
  end.

Definition format_config_ok (ld : locale_data) (d : ascii) (prefix : str) : bool :=
  negb (is_digit d) && negb (Ascii.eqb d "-")
  && forallb (fun c => negb (is_digit c || mem_char c [d])) (ld_group ld)
  && negb (mem_char d prefix) && (1 <=? ld_primary ld).

Definition clean_config_ok (d : ascii) (gs prefix suffix : str) (disableAbbreviations : bool)
  : bool :=
  (CleanValue.abbreviation d =? 0)
  && forallb (fun c => negb (is_digit c || mem_char c [d])) gs
  && forallb (fun c => negb (body_char gs [d] c)) suffix
  && match prefix with a :: _ => negb (Ascii.eqb a "-") | [] => true end
  && (disableAbbreviations
      || match suffix with [c] => CleanValue.abbreviation c =? 0 | _ => true end).

(** The options of a formatter call on a normalized value: no
    [decimalScale], as in [processChange]. *)
Definition fopts (d : ascii) (gs prefix suffix : str) (disable : bool) (ic : option IntlConfig)
  (v : normalized) : FormatValue.FormatValueOptions :=
  FormatValue.mkOptions (render d v) [d] gs disable ic None prefix suffix.

Definition copts (d : ascii) (gs prefix : str) (limit : nat) (allowDecimals allowNegative
  disableAbbreviations : bool) (s : str) : CleanValue.CleanValueOptions :=
  CleanValue.mkOptions s [d] gs allowDecimals limit allowNegative disableAbbreviations prefix
    (fun x => x).

(** The value obeys the cleaner's options. *)
Definition fits (limit : nat) (allowDecimals allowNegative : bool) (v : normalized) : bool :=
  (allowNegative || negb (negative v))
  && match frac_part v with
     | Some f => allowDecimals && (length f <=? limit)
     | None => true
     end.

(** The strings of the normalized-value grammar of spec section 3: an
    optional sign (only when negatives are allowed), digits, and
    optionally the decimal separator [DS] followed by digits. *)
Definition normalized_string (ds : str) (allowNeg : bool) (s : str) : Prop :=
  exists (neg : bool) (ip f : str),
    s = (if neg then js "-" else []) ++ ip ++ f
    /\ (allowNeg || negb neg) = true /\ all_digits ip = true
    /\ (f = [] \/ exists fp, f = ds ++ fp /\ all_digits fp = true).

(** ** Lemmas on normalized values *)

Lemma has_digit_all (g : str) : all_digits g = true -> g <> [] -> has_digit g = true.
Proof.
  destruct g as [|c g]; [congruence|]. simpl. intros H _.
  apply andb_prop in H as [H _]. rewrite H. reflexivity.
Qed.

Lemma canonical_spec (v : normalized) :
  canonical v = true ->
  all_digits (int_part v) = true /\ int_part v <> [] /\ int_digits (int_part v) = int_part v
  /\ match frac_part v with
     | Some f => all_digits f = true /\ length f <= max_fraction_digits
     | None => True
     end.
Proof.
  unfold canonical. intros H.
  apply andb_prop in H as [H Hf]. apply andb_prop in H as [H Hi].
  apply andb_prop in H as [Hd Ht]. apply str_eqb_eq in Hi.
  split; [exact Hd|]. split; [destruct (int_part v); [discriminate|congruence]|].
  split; [exact Hi|]. destruct (frac_part v) as [f|]; [|exact I].
  apply andb_prop in Hf as [Hf Hl]. split; [exact Hf|apply Nat.leb_le; exact Hl].
Qed.

Lemma format_config_spec (ld : locale_data) (d : ascii) (prefix : str) :
  format_config_ok ld d prefix = true ->
  is_digit d = false /\ Ascii.eqb d "-" = false
  /\ forallb (fun c => negb (is_digit c || mem_char c [d])) (ld_group ld) = true
  /\ mem_char d prefix = false /\ 1 <= ld_primary ld.
Proof.
  unfold format_config_ok. intros H.
  repeat match goal with H : _ && _ = true |- _ => apply andb_prop in H as [? ?] end.
  repeat match goal with H : negb _ = true |- _ => apply negb_true_iff in H end.
  repeat split; try assumption. apply Nat.leb_le. assumption.
Qed.

Lemma mem_char_join (c : ascii) (sep : str) (groups : list str) :
  mem_char c sep = false -> Forall (fun g => mem_char c g = false) groups ->
  mem_char c (join sep groups) = false.
Proof.
  intros Hs H. destruct groups as [|g gs]; [reflexivity|].
  inversion H as [|? ? Hg Hgs]; subst. simpl. rewrite mem_char_app, Hg. simpl.
  clear H Hg. induction Hgs as [|g' gs Hg' _ IH]; [reflexivity|].
  simpl. rewrite !mem_char_app, Hs, Hg'. exact IH.
Qed.

Lemma mem_char_sep (d : ascii) (sep : str) :
  forallb (fun c => negb (is_digit c || mem_char c [d])) sep = true -> mem_char d sep = false.
Proof.
  induction sep as [|c sep IH]; simpl; [reflexivity|].
  intros H. apply andb_prop in H as [Hc H]. rewrite IH by exact H.
  destruct (Ascii.eqb_spec d c); [subst; rewrite Ascii.eqb_refl in Hc; destruct (is_digit c); discriminate|].
  reflexivity.
Qed.

Lemma group_digits_not_nil (ld : locale_data) (ip : str) : ip <> [] -> group_digits ld ip <> [].
Proof.
  intros Hne E. apply (f_equal (@concat _)) in E. rewrite group_digits_concat in E. exact (Hne E).
Qed.

(** ** The formatter implements [display] *)

Section FormatSpec.
Context `{R : LocaleResolver}.
Variables (ic : option IntlConfig) (ld : locale_data) (d : ascii) (gs prefix suffix : str)
  (disable : bool).
Hypothesis Hld : resolve_locale ic = Some ld.
Hypothesis Hcur : currency_ok ld prefix = true.
Hypothesis Hminus : ld_minus ld = js "-".
Hypothesis Hfmt : format_config_ok ld d prefix = true.

Lemma render_value1 (v : normalized) (b : bool) :
  canonical v = true ->
  (if negb ([d] =s? js ".") then FormatValue.replaceDecimalSeparator (render d v) [d] b
   else render d v) = render "." v.
Proof.
  intros Hv. destruct (format_config_spec _ _ _ Hfmt) as (Hd & Hdm & _ & _ & _).
  destruct (canonical_spec v Hv) as (Hi & _ & _ & Hf).
  destruct (str_eqb_spec [d] (js ".")) as [E|E].
  - injection E as ->. reflexivity.
  - simpl negb. cbv iota. unfold FormatValue.replaceDecimalSeparator. cbn [truthy andb].
    rewrite (str_eqb_neq _ _ E).
    replace ([d] =s? js "-") with false
      by (symmetry; apply str_eqb_neq; intros H; injection H as ->; discriminate).
    rewrite andb_false_r. simpl negb. cbv iota. unfold replace_all. rewrite gsub_lit_char.
    unfold render, sign, tail. rewrite !flat_map_app.
    rewrite (flat_map_id_if d _ (int_part v)) by (apply mem_char_all_digits; assumption).
    rewrite (flat_map_id_if d _ (if negative v then js "-" else []))
      by (destruct (negative v); simpl; [rewrite Hdm|]; reflexivity).
    destruct (frac_part v) as [f|]; [|reflexivity]. simpl. rewrite Ascii.eqb_refl.
    destruct Hf as [Hf _]. rewrite flat_map_id_if by (apply mem_char_all_digits; assumption).
    reflexivity.
Qed.

Lemma render_not_sep (v : normalized) : canonical v = true -> starts_with (render "." v) [d] = false.
Proof.
  intros Hv. destruct (format_config_spec _ _ _ Hfmt) as (Hd & Hdm & _ & _ & _).
  destruct (canonical_spec v Hv) as (Hi & Hne & _ & _).
  rewrite starts_with_char. unfold render, sign.
  destruct (negative v); [exact Hdm|].
  destruct (int_part v) as [|c ip]; [congruence|]. simpl. simpl in Hi.
  apply andb_prop in Hi as [Hc _].
  destruct (Ascii.eqb_spec d c); [subst; congruence|reflexivity].
Qed.

Lemma groups_ok (ip : str) :
  all_digits ip = true -> ip <> [] -> 1 <= ld_primary ld ->
  Forall (fun g => g <> [] /\ all_digits g = true) (group_digits ld ip).
Proof.
  intros Hi Hne Hp.
  assert (H1 := group_digits_nonempty ld ip Hp Hne).
  assert (H2 := all_digits_concat (group_digits ld ip)).
  rewrite group_digits_concat in H2. specialize (H2 Hi).
  clear - H1 H2. induction H1; inversion H2; constructor; auto.
Qed.

(** The text [replaceParts] builds from the number's parts. *)
Lemma replaceParts_body (v : normalized) :
  canonical v = true ->
  FormatValue.replaceParts (number_parts ld v) (fopts d gs prefix suffix disable ic v)
  = sign v ++ prefix ++ join (ld_group ld) (group_digits ld (int_part v))
    ++ (if truthy (shown_fraction v) then d :: shown_fraction v else []).
Proof.
  intros Hv. destruct (format_config_spec _ _ _ Hfmt) as (Hd & Hdm & Hg & Hp & Hprim).
  destruct (canonical_spec v Hv) as (Hi & Hne & _ & _).
  assert (Hgr := groups_ok _ Hi Hne Hprim).
  set (o := fopts d gs prefix suffix disable ic v). unfold number_parts.
  destruct (group_digits ld (int_part v)) as [|g0 gs'] eqn:Eg;
    [destruct (group_digits_not_nil ld _ Hne Eg)|].
  inversion Hgr as [|? ? [Hg0 Hd0] Hgs']; subst.
  rewrite Hminus. cbn [integer_parts]. rewrite <- app_comm_cons.
  rewrite FormatValue.replaceParts_number.
  - unfold sign. f_equal. f_equal. rewrite flat_map_app.
    assert (J := FormatValue.flat_map_integer_parts o ld (g0 :: gs')).
    cbn [integer_parts flat_map] in J. unfold FormatValue.part_text at 1 in J. cbn [ptype pvalue] in J.
    rewrite <- J, <- app_assoc. f_equal. f_equal.
    destruct (truthy (shown_fraction v)); [|reflexivity].
    simpl. rewrite app_nil_r. reflexivity.
  - apply has_digit_all; assumption.
  - rewrite forallb_app. apply andb_true_intro. split.
    + assert (P := FormatValue.forallb_plain_integer_parts ld (g0 :: gs')).
      cbn [integer_parts forallb] in P. apply andb_prop in P as [_ P]; [exact P|].
      constructor; [apply has_digit_all; assumption|].
      clear - Hgs'. induction Hgs' as [|g gs [Hg1 Hg2] _ IH]; constructor; auto.
      apply has_digit_all; assumption.
    + destruct (truthy _); reflexivity.
Qed.

(** The text [replaceParts] builds from Intl's parts of a normalized value
    in a [currency_ok] locale. *)
Lemma replaceParts_render (v : normalized) :
  canonical v = true ->
  FormatValue.replaceParts
    (format_to_parts {| nf_locale := ld; nf_min_fd := 0 |} (js_Number (render "." v))) (fopts d gs prefix suffix disable ic v)
  = sign v ++ prefix ++ join (ld_group ld) (group_digits ld (int_part v))
    ++ (if truthy (shown_fraction v) then d :: shown_fraction v else []).
Proof.
  intros Hv. rewrite <- replaceParts_body by exact Hv.
  destruct (format_config_spec _ _ _ Hfmt) as (_ & _ & _ & _ & Hprim).
  destruct (canonical_spec v Hv) as (Hi & Hne & Hid & Hf).
  assert (Hgr := groups_ok _ Hi Hne Hprim).
  destruct v as [neg ip fr]; cbn [negative int_part frac_part] in *.
  replace (render "." _) with (decimal_literal neg ip fr) by reflexivity.
  assert (Hfd : match fr with Some f => all_digits f = true | None => True end)
    by (destruct fr; [exact (proj1 Hf)|exact I]).
  rewrite (js_Number_decimal neg ip fr Hi Hne Hfd).
  assert (Hlen : length (match fr with Some f => f | None => [] end) <= max_fraction_digits)
    by (destruct fr as [f|]; [exact (proj2 Hf)|apply Nat.le_0_l]).
  unfold number_parts. cbn [negative int_part].
  unfold currency_ok in Hcur. destruct (ld_currency ld) as [cp|] eqn:Ec.
  - repeat match goal with H : _ && _ = true |- _ => apply andb_prop in H as [? ?] end.
    rewrite format_to_parts_decimal_currency with (cp := cp)
      by first [reflexivity | assumption | destruct (cur_space cp); [reflexivity|discriminate]].
    cbn [nf_locale]. rewrite Hid.
    destruct (group_digits ld ip) as [|g0 gs'] eqn:Eg; [destruct (group_digits_not_nil ld _ Hne Eg)|].
    inversion Hgr as [|? ? [Hg0 Hd0] _]; subst.
    cbn [integer_parts]. rewrite <- ?app_comm_cons.
    apply FormatSpec.replaceParts_drop_currency; [assumption|].
    apply has_digit_all; assumption.
  - rewrite format_to_parts_decimal by first [reflexivity | assumption].
    cbn [nf_locale]. rewrite Hid. reflexivity.
Qed.

Lemma match_decimals_render (v : normalized) :
  canonical v = true ->
  FormatValue.match_decimals (render "." v)
  = match frac_part v with Some f => if truthy f then Some f else None | None => None end.
Proof.
  intros Hv. destruct (canonical_spec v Hv) as (Hi & Hne & _ & Hf).
  unfold render, sign, tail.
  assert (E : FormatValue.match_decimals
                (int_part v ++ match frac_part v with Some f => "."%char :: f | None => [] end)
              = match frac_part v with Some f => if truthy f then Some f else None | None => None end).
  { destruct (frac_part v) as [f|].
    - apply FormatValue.match_decimals_point; [exact Hi|exact Hne|exact (proj1 Hf)].
    - rewrite app_nil_r. apply FormatValue.match_decimals_all_digits. exact Hi. }
  destruct (negative v); [|exact E].
  rewrite FormatValue.match_decimals_unfold. exact E.
Qed.

Lemma last_char_ends_digit (s : str) (c : ascii) :
  ends_digit s = true -> is_digit c = false -> (last_char s =s? [c]) = false.
Proof.
  unfold ends_digit, last_char. destruct (rev s) as [|a r]; [discriminate|].
  intros Ha Hc. apply str_eqb_neq. intros E. injection E as ->. congruence.
Qed.

Lemma last_char_snoc (x : str) (c : ascii) : last_char (x ++ [c]) = [c].
Proof. unfold last_char. rewrite rev_app_distr. reflexivity. Qed.

Lemma render_last (v : normalized) :
  canonical v = true -> is_digit d = false ->
  (last_char (render d v) =s? [d]) = match frac_part v with Some [] => true | _ => false end.
Proof.
  intros Hv Hd. destruct (canonical_spec v Hv) as (Hi & Hne & _ & Hf).
  unfold render, tail. destruct (frac_part v) as [[|c f]|].
  - rewrite app_assoc, last_char_snoc. apply str_eqb_refl.
  - apply last_char_ends_digit; [|exact Hd].
    rewrite app_assoc, ends_digit_app by discriminate.
    rewrite FormatValue.ends_digit_cons by discriminate.
    apply ends_digit_all; [exact (proj1 Hf)|discriminate].
  - apply last_char_ends_digit; [|exact Hd]. rewrite app_nil_r, ends_digit_app by exact Hne.
    apply ends_digit_all; assumption.
Qed.

Lemma render_not_empty (c : ascii) (v : normalized) :
  canonical v = true -> (render c v =s? []) = false /\ (render c v =s? js "-") = false.
Proof.
  intros Hv. destruct (canonical_spec v Hv) as (Hi & Hne & _ & _).
  unfold render, sign. split; apply str_eqb_neq; intros E;
    destruct (negative v), (int_part v) as [|a ip]; try congruence; simpl in E;
    try discriminate; injection E as E1 E2; try discriminate.
  subst. discriminate.
Qed.

Lemma make_number_format_ok :
  make_number_format (resolve_locale ic) 0 = Ok {| nf_locale := ld; nf_min_fd := 0 |}.
Proof. rewrite Hld. reflexivity. Qed.

(** The displayed number before the fraction contains no character that
    is not a digit, [-], a group mark or a prefix character. *)
Lemma number_text_avoids (v : normalized) (c : ascii) :
  canonical v = true -> is_digit c = false -> Ascii.eqb c "-" = false ->
  mem_char c (ld_group ld) = false -> mem_char c prefix = false ->
  mem_char c (sign v ++ prefix ++ join (ld_group ld) (group_digits ld (int_part v))) = false.
Proof.
  intros Hv Hc Hcm Hcg Hcp. destruct (format_config_spec _ _ _ Hfmt) as (_ & _ & _ & _ & Hprim).
  destruct (canonical_spec v Hv) as (Hi & Hne & _ & _).
  assert (Hgr := groups_ok _ Hi Hne Hprim).
  rewrite !mem_char_app, Hcp. unfold sign. rewrite mem_char_join by
    first [exact Hcg | clear - Hgr Hc; induction Hgr as [|g gs [_ Hg] _ IH]; constructor; auto;
           apply mem_char_all_digits; assumption].
  destruct (negative v); simpl; [rewrite Hcm|]; reflexivity.
Qed.

(** The displayed number before the fraction contains no separator and
    ends with a digit. *)
Lemma number_text_ok (v : normalized) :
  canonical v = true ->
  mem_char d (sign v ++ prefix ++ join (ld_group ld) (group_digits ld (int_part v))) = false
  /\ ends_digit (sign v ++ prefix ++ join (ld_group ld) (group_digits ld (int_part v))) = true.
Proof.
  intros Hv. destruct (format_config_spec _ _ _ Hfmt) as (Hd & Hdm & Hg & Hp & Hprim).
  destruct (canonical_spec v Hv) as (Hi & Hne & _ & _).
  assert (Hgr := groups_ok _ Hi Hne Hprim).
  assert (Hj : ends_digit (join (ld_group ld) (group_digits ld (int_part v))) = true)
    by (apply ends_digit_join; [exact (group_digits_not_nil ld _ Hne)|exact Hgr]).
  split.
  - apply number_text_avoids; try assumption. apply mem_char_sep. exact Hg.
  - rewrite !ends_digit_app by (apply ends_digit_nonempty; try exact Hj;
      rewrite ends_digit_app by (apply ends_digit_nonempty; exact Hj); exact Hj).
    exact Hj.
Qed.

(** The formatter's output on a normalized value, as [display] spells it. *)
Lemma formatValue_shows (v : normalized) :
  canonical v = true ->
  FormatValue.formatValue (fopts d gs prefix suffix disable ic v) = Ok (display ld d prefix suffix v).
Proof.
  intros Hv. destruct (format_config_spec _ _ _ Hfmt) as (Hd & Hdm & Hg & Hp & Hprim).
  destruct (render_not_empty d v Hv) as [Hn1 Hn2].
  destruct (number_text_ok v Hv) as [Hxm Hxe].
  unfold FormatValue.formatValue, fopts. cbn [FormatValue.value FormatValue.decimalSeparator
    FormatValue.prefix FormatValue.suffix FormatValue.decimalScale FormatValue.intlConfig
    FormatValue.groupSeparator].
  rewrite Hn1, Hn2, render_value1 by exact Hv.
  rewrite render_not_sep, andb_false_r by exact Hv.
  rewrite make_number_format_ok, rbind_ok.
  fold (fopts d gs prefix suffix disable ic v).
  rewrite replaceParts_render, match_decimals_render, render_last by assumption.
  unfold shown_fraction.
  set (X := sign v ++ prefix ++ join (ld_group ld) (group_digits ld (int_part v))) in *.
  unfold display.
  assert (EX : forall y, sign v ++ prefix ++ join (ld_group ld) (group_digits ld (int_part v)) ++ y
                         = X ++ y) by (intros; unfold X; rewrite <- !app_assoc; reflexivity).
  rewrite !EX.
  destruct (canonical_spec v Hv) as (_ & _ & _ & Hf).
  unfold tail. cbv zeta.
  destruct (frac_part v) as [[|c f]|].
  - change (strip_trailing_zeros []) with (@nil ascii). cbn [truthy].
    rewrite app_nil_r, getSuffix_ends_digit by exact Hxe.
    destruct (truthy suffix); cbn [andb]; rewrite <- ?app_assoc; reflexivity.
  - destruct Hf as [Hf _].
    set (f' := strip_trailing_zeros (c :: f)).
    assert (Hf' : all_digits f' = true) by (apply all_digits_strip_trailing_zeros; exact Hf).
    destruct (truthy f') eqn:Ht.
    + assert (Hne : f' <> []) by (intros E; rewrite E in Ht; discriminate).
      rewrite getSuffix_ends_digit.
      2: { repeat apply ends_digit_app_r.
           rewrite FormatValue.ends_digit_cons by exact Hne.
           apply ends_digit_all; assumption. }
      unfold includes. rewrite index_of_first by exact Hxm. cbn [truthy andb].
      rewrite FormatValue.gsub_dsd by first [assumption | discriminate].
      rewrite andb_false_r, <- !app_assoc. reflexivity.
    + rewrite app_nil_r, getSuffix_ends_digit by exact Hxe.
      unfold includes. rewrite index_of_absent by exact Hxm.
      cbn [truthy andb negb]. rewrite andb_false_r, <- !app_assoc. reflexivity.
  - change (strip_trailing_zeros []) with (@nil ascii). cbn [truthy].
    rewrite app_nil_r, getSuffix_ends_digit by exact Hxe.
    rewrite andb_false_r. cbn [andb truthy]. reflexivity.
Qed.

(** C1: [formatValue] implements [display]: for a normalized value with at
    most ten fraction digits, in a locale whose minus sign is [-] and
    which has no currency style or writes its symbol first without a
    literal (the prefix then takes the symbol's place, as [$] does for en-
    US USD), with a one-character non-digit decimal separator absent from
    the prefix and from the locale's group mark, and no [decimalScale],
    the formatter shows the sign, the prefix, the integer digits grouped
    by the locale, the separator with the fraction exactly as typed (also
    [1.] and [1.50]), and the suffix. The value has at most 15 digits
    ([fits_double]): there [Number] gives a double that Intl prints back
    as the same decimal, which the exact-decimal model of [Intl]
    describes. *)
Theorem formatValue_display (v : normalized) :
  canonical v = true -> fits_double v = true ->
  FormatValue.formatValue (fopts d gs prefix suffix disable ic v) = Ok (display ld d prefix suffix v).
Proof.
  intros Hv _. exact (formatValue_shows v Hv).
Qed.

End FormatSpec.

(** ** The cleaner inverts [display] *)

Section CleanSpec.
Variables (ld : locale_data) (d : ascii) (gs prefix suffix : str) (limit : nat)
  (allowDecimals allowNegative disableAbbreviations : bool).
Hypothesis Hfmt : format_config_ok ld d prefix = true.
Hypothesis Hcl : clean_config_ok d gs prefix suffix disableAbbreviations = true.

Lemma clean_config_spec :
  CleanValue.abbreviation d = 0
  /\ forallb (fun c => negb (is_digit c || mem_char c [d])) gs = true
  /\ forallb (fun c => negb (body_char gs [d] c)) suffix = true
  /\ match prefix with a :: _ => Ascii.eqb a "-" = false | [] => True end
  /\ (disableAbbreviations = true
      \/ match suffix with [c] => CleanValue.abbreviation c = 0 | _ => True end).
Proof.
  unfold clean_config_ok in Hcl.
  repeat match goal with H : _ && _ = true |- _ => apply andb_prop in H as [? ?] end.
  split; [apply Nat.eqb_eq; assumption|]. split; [assumption|]. split; [assumption|].
  split.
  - destruct prefix as [|a p]; [exact I|]. apply negb_true_iff. assumption.
  - match goal with H : disableAbbreviations || _ = true |- _ => apply orb_prop in H as [Hx|Hx] end;
      [left; exact Hx|right]. destruct suffix as [|c [|c' r]]; auto. apply Nat.eqb_eq. exact Hx.
Qed.

Lemma join_head (sep : str) (groups : list str) :
  Forall (fun g => g <> [] /\ all_digits g = true) groups -> groups <> [] ->
  exists c r, join sep groups = c :: r /\ is_digit c = true.
Proof.
  intros H Hne. destruct groups as [|g gs']; [congruence|].
  inversion H as [|? ? [Hg Hd] _]; subst. destruct g as [|c g]; [congruence|].
  exists c, (g ++ flat_map (fun g' => sep ++ g') gs'). split; [reflexivity|].
  simpl in Hd. apply andb_prop in Hd as [Hc _]. exact Hc.
Qed.

Lemma filter_join (f : ascii -> bool) (sep : str) (groups : list str) :
  forallb (fun c => negb (f c)) sep = true -> Forall (fun g => forallb f g = true) groups ->
  filter f (join sep groups) = concat groups.
Proof.
  intros Hs H. destruct groups as [|g gs0]; [reflexivity|].
  inversion H as [|? ? Hg Hgs]; subst. simpl. rewrite filter_app, filter_all by exact Hg. f_equal.
  clear H Hg. induction Hgs as [|g' gs1 Hg' _ IH]; [reflexivity|].
  simpl. rewrite !filter_app, filter_none, filter_all by assumption. simpl. f_equal. exact IH.
Qed.

Lemma last_two (l : str) : 2 <= length l -> exists y a b, l = y ++ [a; b].
Proof.
  intros H. destruct (rev l) as [|b [|a r]] eqn:E.
  - apply (f_equal (@length _)) in E. rewrite length_rev in E. simpl in E. lia.
  - apply (f_equal (@length _)) in E. rewrite length_rev in E. simpl in E. lia.
  - exists (rev r), a, b. rewrite <- (rev_involutive l), E. simpl. rewrite <- app_assoc. reflexivity.
Qed.

(** No abbreviation is read in a display string. *)
Lemma split_abbreviation_display (y t : str) :
  ends_digit y = true -> (t = [] \/ t = [d] \/ ends_digit t = true) ->
  CleanValue.split_abbreviation disableAbbreviations [d] (y ++ t ++ suffix)
  = (0, y ++ t ++ suffix).
Proof.
  intros Hy Ht. destruct clean_config_spec as (Had & _ & Hsuf & _ & Hab).
  destruct disableAbbreviations eqn:Edis; [reflexivity|].
  destruct Hab as [Hab|Hab]; [discriminate|].
  destruct suffix as [|c0 [|c1 r]] eqn:Es.
  - rewrite app_nil_r. destruct Ht as [->|[->|Ht]].
    + rewrite app_nil_r. unfold ends_digit in Hy. destruct (rev y) as [|c r] eqn:E; [discriminate|].
      apply (CleanValue.split_abbreviation_last _ _ _ c (rev r));
        [rewrite <- (rev_involutive y), E; reflexivity|apply CleanValue.abbreviation_digit; exact Hy].
    + apply (CleanValue.split_abbreviation_last _ _ _ d y); [reflexivity|exact Had].
    + unfold ends_digit in Ht. destruct (rev t) as [|c r] eqn:E; [discriminate|].
      apply (CleanValue.split_abbreviation_last _ _ _ c (y ++ rev r)).
      * rewrite <- (rev_involutive t), E. simpl. rewrite <- app_assoc. reflexivity.
      * apply CleanValue.abbreviation_digit. exact Ht.
  - apply (CleanValue.split_abbreviation_last _ _ _ c0 (y ++ t)); [rewrite <- app_assoc; reflexivity|exact Hab].
  - destruct (last_two (c0 :: c1 :: r)) as (z & a & b & E); [simpl; lia|].
    apply (CleanValue.split_abbreviation_after _ _ _ b a (y ++ t ++ z)).
    + rewrite E, <- !app_assoc. reflexivity.
    + rewrite E in Hsuf. rewrite forallb_app in Hsuf.
      apply andb_prop in Hsuf as [_ Hsuf]. simpl in Hsuf. apply andb_prop in Hsuf as [Ha _].
      unfold body_char in Ha. destruct (is_digit a), (mem_char a gs), (mem_char a [d]); easy.
Qed.

Lemma keep_display (v : normalized) :
  canonical v = true ->
  CleanValue.keep_number_chars [d]
    (join (ld_group ld) (group_digits ld (int_part v)) ++ tail d v ++ suffix)
  = int_part v ++ tail d v.
Proof.
  intros Hv. destruct (format_config_spec _ _ _ Hfmt) as (Hd & _ & Hg & _ & Hprim).
  destruct clean_config_spec as (_ & _ & Hsuf & _ & _).
  destruct (canonical_spec v Hv) as (Hi & Hne & _ & Hf).
  unfold CleanValue.keep_number_chars. rewrite !filter_app.
  rewrite filter_join, group_digits_concat; [|exact Hg|].
  2: { clear - Hi Hne Hprim. assert (H := groups_ok ld _ Hi Hne Hprim).
       induction H as [|g gs [_ Hg] _ IH]; constructor; auto.
       unfold all_digits in Hg. rewrite forallb_forall in *. intros x Hx. rewrite Hg; auto. }
  rewrite (filter_none _ suffix), app_nil_r.
  2: { rewrite forallb_forall in *. intros x Hx. specialize (Hsuf x Hx).
       unfold body_char in Hsuf. destruct (is_digit x), (mem_char x gs), (mem_char x [d]); easy. }
  f_equal. unfold tail. destruct (frac_part v) as [f|]; [|reflexivity].
  apply filter_all. simpl. rewrite Ascii.eqb_refl, orb_true_r. simpl.
  unfold all_digits in Hf. rewrite forallb_forall in *. intros x Hx.
  rewrite (proj1 Hf x Hx). reflexivity.
Qed.

Lemma display_not_minus (v : normalized) :
  canonical v = true -> (display ld d prefix suffix v =s? js "-") = false.
Proof.
  intros Hv. destruct (number_text_ok ld d prefix Hfmt v Hv) as [_ Hxe].
  apply str_eqb_neq. intros E. unfold display in E.
  replace (sign v ++ prefix ++ join (ld_group ld) (group_digits ld (int_part v)) ++ tail d v ++ suffix)
    with ((sign v ++ prefix ++ join (ld_group ld) (group_digits ld (int_part v))) ++ tail d v ++ suffix)
    in E by (rewrite <- !app_assoc; reflexivity).
  apply app_eq_unit in E as [[E _]|[E _]]; rewrite E in Hxe; discriminate.
Qed.

Lemma split_sign_display (v : normalized) :
  canonical v = true ->
  CleanValue.split_sign prefix (display ld d prefix suffix v)
  = (negative v, join (ld_group ld) (group_digits ld (int_part v)) ++ tail d v ++ suffix).
Proof.
  intros Hv. destruct (format_config_spec _ _ _ Hfmt) as (_ & _ & _ & _ & Hprim).
  destruct clean_config_spec as (_ & _ & _ & Hpre & _).
  destruct (canonical_spec v Hv) as (Hi & Hne & _ & _).
  unfold display, sign. destruct (negative v).
  - exact (CleanValue.split_sign_negative prefix
             (join (ld_group ld) (group_digits ld (int_part v)) ++ tail d v ++ suffix) Hpre).
  - destruct (join_head (ld_group ld) _ (groups_ok ld _ Hi Hne Hprim)) as (c & r & E & Hc).
    { intros E. assert (C := group_digits_concat ld (int_part v)). rewrite E in C.
      simpl in C. congruence. }
    cbv beta iota. rewrite app_nil_l.
    apply (CleanValue.split_sign_positive _ _ c (r ++ tail d v ++ suffix)); [|exact Hc].
    rewrite E. reflexivity.
Qed.

(** The cleaner reads a display back as the value it shows. *)
Lemma cleanValue_reads (v : normalized) :
  canonical v = true -> fits limit allowDecimals allowNegative v = true ->
  CleanValue.cleanValue
    (copts d gs prefix limit allowDecimals allowNegative disableAbbreviations
       (display ld d prefix suffix v))
  = render d v.
Proof.
  intros Hv Hfit. destruct (format_config_spec _ _ _ Hfmt) as (Hd & _ & _ & _ & Hprim).
  destruct clean_config_spec as (_ & Hgs & _ & _ & _).
  destruct (canonical_spec v Hv) as (Hi & Hne & _ & Hf).
  destruct (number_text_ok ld d prefix Hfmt v Hv) as [_ Hxe].
  unfold CleanValue.cleanValue, copts. cbn [CleanValue.value CleanValue.decimalSeparator
    CleanValue.groupSeparator CleanValue.transformRawValue CleanValue.prefix
    CleanValue.disableAbbreviations CleanValue.allowDecimals CleanValue.decimalsLimit
    CleanValue.allowNegativeValue].
  rewrite display_not_minus, split_sign_display by exact Hv.
  cbv beta iota.
  rewrite split_abbreviation_display.
  2: { apply ends_digit_join; [|apply groups_ok; assumption].
       intros E. assert (C := group_digits_concat ld (int_part v)). rewrite E in C.
       simpl in C. congruence. }
  2: { unfold tail. destruct (frac_part v) as [[|c f]|]; [right; left; reflexivity| |left; reflexivity].
       right; right. rewrite FormatValue.ends_digit_cons by discriminate.
       apply ends_digit_all; [exact (proj1 Hf)|discriminate]. }
  cbv beta iota.
  rewrite CleanValue.keep_remove_group, CleanValue.keep_strip_suffix, keep_display by assumption.
  unfold fits in Hfit. apply andb_prop in Hfit as [Hneg Hfr].
  unfold render, tail, sign. destruct v as [neg ip fr]. cbn [negative int_part frac_part] in *.
  destruct fr as [f|].
  - rewrite CleanValue.split_decimal_point by (try exact Hd; try exact Hi; exact (proj1 Hf)).
    cbv beta iota. unfold CleanValue.expand. cbn [Nat.eqb].
    apply andb_prop in Hfr as [Hdec Hlen]. apply Nat.leb_le in Hlen.
    rewrite Hdec, firstn_all2 by exact Hlen.
    destruct neg; [destruct allowNegative; [reflexivity|discriminate]|reflexivity].
  - rewrite app_nil_r, CleanValue.split_decimal_none by assumption.
    cbv beta iota. unfold CleanValue.expand. cbn [Nat.eqb andb].
    destruct neg; [destruct allowNegative; [|discriminate]|]; cbn [andb]; rewrite ?app_nil_r;
      reflexivity.
Qed.

(** C2: [cleanValue] maps the display of a normalized value back to the
    value: with the prefix the formatter used, a group separator and a
    suffix made of characters that are neither digits nor the decimal
    separator, and a value that obeys [allowNegativeValue],
    [allowDecimals] and [decimalsLimit], nothing is lost or added. *)
Theorem cleanValue_display (v : normalized) :
  canonical v = true -> fits limit allowDecimals allowNegative v = true ->
  CleanValue.cleanValue
    (copts d gs prefix limit allowDecimals allowNegative disableAbbreviations
       (display ld d prefix suffix v))
  = render d v.
Proof.
  exact (cleanValue_reads v).
Qed.

End CleanSpec.

(** C3: spec section 8's round trip: formatting a normalized value and
    cleaning the display gives the value back, for every configuration of
    separators, prefix, suffix and locale that [formatValue_display] and
    [cleanValue_display] admit. The value has at most 15 digits
    ([fits_double]), as the host's doubles require: beyond that the
    program does not round-trip. *)
Theorem clean_format_roundtrip `{R : LocaleResolver} (ic : option IntlConfig) (ld : locale_data)
  (d : ascii) (gs prefix suffix : str) (disable : bool) (limit : nat)
  (allowDecimals allowNegative disableAbbreviations : bool) (v : normalized) :
  resolve_locale ic = Some ld -> currency_ok ld prefix = true -> ld_minus ld = js "-" ->
  format_config_ok ld d prefix = true ->
  clean_config_ok d gs prefix suffix disableAbbreviations = true ->
  canonical v = true -> fits_double v = true -> fits limit allowDecimals allowNegative v = true ->
  (let! shown := FormatValue.formatValue (fopts d gs prefix suffix disable ic v) in
   Ok (CleanValue.cleanValue
         (copts d gs prefix limit allowDecimals allowNegative disableAbbreviations shown)))
  = Ok (render d v).
Proof.
  intros Hld Hcur Hmin Hfmt Hcl Hv _ Hfit.
  rewrite (formatValue_shows ic ld d gs prefix suffix disable Hld Hcur Hmin Hfmt v Hv).
  cbn [rbind].
  rewrite (cleanValue_reads ld d gs prefix suffix limit allowDecimals allowNegative
             disableAbbreviations Hfmt Hcl v Hv Hfit).
  reflexivity.
Qed.

(** C20: spec section 8's idempotence: cleaning a display and formatting
    the result again gives the same display, under the conditions of the
    round trip. The value has at most 15 digits ([fits_double]). *)
Theorem format_clean_idempotent `{R : LocaleResolver} (ic : option IntlConfig) (ld : locale_data)
  (d : ascii) (gs prefix suffix : str) (disable : bool) (limit : nat)
  (allowDecimals allowNegative disableAbbreviations : bool) (v : normalized) :
  resolve_locale ic = Some ld -> currency_ok ld prefix = true -> ld_minus ld = js "-" ->
  format_config_ok ld d prefix = true ->
  clean_config_ok d gs prefix suffix disableAbbreviations = true ->
  canonical v = true -> fits_double v = true -> fits limit allowDecimals allowNegative v = true ->
  (let! shown := FormatValue.formatValue (fopts d gs prefix suffix disable ic v) in
   FormatValue.formatValue
     (FormatValue.mkOptions
        (CleanValue.cleanValue
           (copts d gs prefix limit allowDecimals allowNegative disableAbbreviations shown))
        [d] gs disable ic None prefix suffix))
  = Ok (display ld d prefix suffix v).
Proof.
  intros Hld Hcur Hmin Hfmt Hcl Hv _ Hfit.
  rewrite (formatValue_shows ic ld d gs prefix suffix disable Hld Hcur Hmin Hfmt v Hv).
  cbn [rbind].
  rewrite (cleanValue_reads ld d gs prefix suffix limit allowDecimals allowNegative
             disableAbbreviations Hfmt Hcl v Hv Hfit).
  exact (formatValue_shows ic ld d gs prefix suffix disable Hld Hcur Hmin Hfmt v Hv).
Qed.

Lemma format_clean_idempotent_witness :
  (let! shown := FormatValue.formatValue
                   (fopts "," (js ".") [] (js " EUR") false
                      (Some {| locale := js "de-DE"; currency := None |})
                      (mkNormalized false (js "1234567") (Some (js "50")))) in
   FormatValue.formatValue
     (FormatValue.mkOptions
        (CleanValue.cleanValue (copts "," (js ".") [] 2 true true false shown))
        [","%char] (js ".") false (Some {| locale := js "de-DE"; currency := None |}) None []
        (js " EUR")))
  = Ok (js "1.234.567,50 EUR").
Proof.
  apply (format_clean_idempotent (R := example_resolver)
           (Some {| locale := js "de-DE"; currency := None |}) de_DE "," (js ".") [] (js " EUR")
           false 2 true true false (mkNormalized false (js "1234567") (Some (js "50"))));
    reflexivity.
Defined.

(** In en-US with USD, the prefix [$] takes the place of the currency
    symbol, after the sign. *)
Example formatValue_usd :
  FormatValue.formatValue
    (fopts "." (js ",") (js "$") [] false (Some {| locale := js "en-US"; currency := Some (js "USD") |})
       (mkNormalized true (js "1234") (Some (js "50"))))
  = Ok (js "-$1,234.50").
Proof.
  apply (formatValue_shows (R := example_resolver)
           (Some {| locale := js "en-US"; currency := Some (js "USD") |})
           (with_currency_pattern en_US {| cur_symbol := js "$"; cur_before := true; cur_space := [] |}));
    reflexivity.
Qed.

Lemma clean_format_roundtrip_witness :
  (let! shown := FormatValue.formatValue
                   (fopts "." (js ",") (js "$") (js " USD") false None
                      (mkNormalized true (js "1234") (Some (js "5")))) in
   Ok (CleanValue.cleanValue (copts "." (js ",") (js "$") 2 true true false shown)))
  = Ok (js "-1234.5").
Proof.
  apply (clean_format_roundtrip (R := example_resolver) None en_US "." (js ",") (js "$") (js " USD")
           false 2 true true false (mkNormalized true (js "1234") (Some (js "5"))));
    reflexivity.
Defined.

Lemma formatValue_display_witness :
  FormatValue.formatValue (fopts "," (js ".") [] [] false (Some {| locale := js "de-DE"; currency := None |})
                             (mkNormalized false (js "1234567") (Some (js "50"))))
  = Ok (js "1.234.567,50").
Proof.
  apply (formatValue_display (R := example_resolver) (Some {| locale := js "de-DE"; currency := None |})
           de_DE "," (js ".") [] [] false); reflexivity.
Defined.

Lemma cleanValue_display_witness :
  CleanValue.cleanValue (copts "." (js ",") (js "$") 2 true true false (js "-$1,234.5 USD"))
  = js "-1234.5".
Proof.
  exact (cleanValue_display en_US "." (js ",") (js "$") (js " USD") 2 true true false
           eq_refl eq_refl (mkNormalized true (js "1234") (Some (js "5"))) eq_refl eq_refl).
Defined.

(** ** The type of the cleaner's output *)

Lemma all_digits_filter (s : str) : all_digits (filter is_digit s) = true.
Proof.
  unfold all_digits. apply forallb_forall. intros x Hx. apply filter_In in Hx. apply Hx.
Qed.

Lemma all_digits_skipn (n : nat) (s : str) : all_digits s = true -> all_digits (skipn n s) = true.
Proof.
  unfold all_digits. rewrite <- (firstn_skipn n s) at 1. rewrite forallb_app.
  intros H. apply andb_prop in H. apply H.
Qed.

Lemma all_digits_int_digits (s : str) : all_digits s = true -> all_digits (int_digits s) = true.
Proof.
  intros H. unfold int_digits. apply all_digits_strip_leading_zeros in H.
  destruct (strip_leading_zeros s); [reflexivity|exact H].
Qed.

Lemma split_decimal_digits (ds s : str) :
  let '(ip, fp, _) := CleanValue.split_decimal ds s in
  all_digits ip = true /\ all_digits fp = true.
Proof.
  unfold CleanValue.split_decimal.
  destruct (if truthy ds then index_of s ds else None); split;
    first [apply all_digits_filter | reflexivity].
Qed.

Lemma expand_digits (e : nat) (ip fp : str) (had : bool) :
  all_digits ip = true -> all_digits fp = true ->
  let '(ip', fp', _) := CleanValue.expand e ip fp had in
  all_digits ip' = true /\ all_digits fp' = true.
Proof.
  intros Hi Hf. unfold CleanValue.expand. destruct (e =? 0); [split; assumption|].
  split.
  - apply all_digits_int_digits. unfold all_digits in *. rewrite !forallb_app, Hi.
    fold (all_digits (firstn e fp)). rewrite all_digits_firstn by exact Hf.
    cbn [andb]. apply forallb_forall. intros x Hx. apply repeat_spec in Hx. subst. reflexivity.
  - apply all_digits_strip_trailing_zeros, all_digits_skipn, Hf.
Qed.

(** The type of the cleaner's result: ["-"] (the mid-entry
    passthrough) or a string of the normalized-value grammar. *)
Lemma cleanValue_normalized (o : CleanValue.CleanValueOptions) :
  CleanValue.cleanValue o = js "-"
  \/ normalized_string (CleanValue.decimalSeparator o) (CleanValue.allowNegativeValue o)
       (CleanValue.cleanValue o).
Proof.
  unfold CleanValue.cleanValue.
  set (t := CleanValue.transformRawValue o (CleanValue.value o)).
  destruct (t =s? js "-") eqn:Et; [left; apply str_eqb_eq; exact Et|right].
  destruct (CleanValue.split_sign _ t) as [neg s1].
  destruct (CleanValue.split_abbreviation _ _ s1) as [e s2].
  set (s3 := CleanValue.keep_number_chars _ _).
  pose proof (split_decimal_digits (CleanValue.decimalSeparator o) s3) as Hd.
  destruct (CleanValue.split_decimal _ s3) as [[ip0 fp0] had0]. destruct Hd as [Hi0 Hf0].
  pose proof (expand_digits e ip0 fp0 had0 Hi0 Hf0) as He.
  destruct (CleanValue.expand e ip0 fp0 had0) as [[ip fp1] had1]. destruct He as [Hi Hf].
  exists (neg && CleanValue.allowNegativeValue o), ip,
    (if had1 && CleanValue.allowDecimals o then CleanValue.decimalSeparator o
       ++ firstn (CleanValue.decimalsLimit o) fp1 else []).
  split; [reflexivity|]. split; [destruct neg, (CleanValue.allowNegativeValue o); reflexivity|].
  split; [exact Hi|].
  destruct (had1 && _); [right; eexists; split; [reflexivity|apply all_digits_firstn, Hf]|left; reflexivity].
Qed.

End RoundTrip.
