(* ===== verification/Currency.v ===== *)
(** * Currency: the formatter in locales that write the currency last

    With [intlConfig = {locale: 'de-DE', currency: 'USD'}], Intl writes
    [1.234,50 $]: the number, a no-break space literal and the symbol.  The
    prefix does not take the symbol's place there (the component's
    [getLocaleConfig] gives no prefix when the symbol is not first), and
    [formatValue] (src/src/utils/formatValue.ts, lines 107-147) reads the
    trailing [ $] back with [getSuffix] as [intlSuffix].

    [formatValue_currency_after] is the refinement theorem for these
    locales: the output is the sign, the grouped digits, the typed
    fraction, then the explicit suffix if there is one (spec section 8,
    "currency + suffix precedence") and the locale's literal and symbol
    otherwise.  With an explicit suffix the theorem needs the value's
    fraction to survive Intl ([fraction_kept]): the two examples at the end
    show what the code does otherwise. *)

From Stdlib Require Import Ascii String List Arith Lia ZArith Bool.
Import ListNotations.
From S2P Require Import Prelude Intl Suffix Format FormatSpec Clean RoundTrip.
Open Scope js_scope.

Module Currency.
Import RoundTrip.

(** The text Intl writes after the number: the literal and the symbol. *)
Definition currency_text (ld : locale_data) : str :=
  match ld_currency ld with Some cp => cur_space cp ++ cur_symbol cp | None => [] end.

(** A character of that text is neither part of a number ([getSuffix]'s
    body characters, the locale's group mark, [-]). *)
Definition currency_char (ld : locale_data) (d : ascii) (gs : str) (c : ascii) : bool :=
  negb (body_char gs [d] c || mem_char c (ld_group ld) || Ascii.eqb c "-").

(** The locales of the theorem: the symbol comes last, is not empty, its
    text has no [$] replacement pattern and no number character, and the
    separator is not [$]. *)
Definition currency_after_ok (ld : locale_data) (d : ascii) (gs : str) : bool :=
  match ld_currency ld with
  | Some cp =>
      negb (cur_before cp) && truthy (cur_symbol cp) && negb (Ascii.eqb d "$")
      && plain_repl (currency_text ld) && forallb (currency_char ld d gs) (currency_text ld)
  | None => false
  end.

(** Intl shows the value's fraction: it has none, or a nonzero digit. *)
Definition fraction_kept (v : normalized) : bool :=
  match frac_part v with None => true | Some f => truthy (strip_trailing_zeros f) end.

(** The configuration [intlConfig = {locale: 'de-DE', currency: 'USD'}]
    of the examples, and the locale [example_resolver] gives it. *)
Definition de_usd : option IntlConfig := Some {| locale := js "de-DE"; currency := Some (js "USD") |}.

Definition de_usd_locale : locale_data :=
  with_currency_pattern de_DE {| cur_symbol := js "$"; cur_before := false; cur_space := nbsp |}.

(** ** Lemmas *)

Lemma plain_repl_cons (c : ascii) (r : str) :
  Ascii.eqb c "$" = false -> plain_repl (c :: r) = plain_repl r.
Proof. intros H. cbn [plain_repl]. rewrite H. reflexivity. Qed.

Lemma plain_repl_digits (f r : str) : all_digits f = true -> plain_repl (f ++ r) = plain_repl r.
Proof.
  induction f as [|c f IH]; intros H; [reflexivity|].
  cbn [all_digits forallb] in H. apply andb_prop in H as [Hc H].
  cbn [app]. rewrite plain_repl_cons, IH by first [exact H | destruct (Ascii.eqb_spec c "$");
    [subst; discriminate | reflexivity]]. reflexivity.
Qed.

Lemma currency_char_spec (ld : locale_data) (d : ascii) (gs : str) (c : ascii) :
  currency_char ld d gs c = true ->
  body_char gs [d] c = false /\ is_digit c = false /\ Ascii.eqb d c = false
  /\ mem_char c (ld_group ld) = false /\ Ascii.eqb c "-" = false.
Proof.
  unfold currency_char, body_char. intros H. apply negb_true_iff in H.
  repeat match goal with H : _ || _ = false |- _ => apply orb_false_iff in H as [? ?] end.
  cbn [mem_char existsb] in *. rewrite orb_false_r in *. rewrite (Ascii.eqb_sym d c).
  repeat match goal with H : ?x = false |- context [?x] => rewrite H end. auto.
Qed.

Lemma forallb_currency_char (ld : locale_data) (d : ascii) (gs t : str) :
  forallb (currency_char ld d gs) t = true ->
  forallb (fun c => negb (body_char gs [d] c)) t = true
  /\ forallb (fun c => negb (is_digit c)) t = true /\ mem_char d t = false.
Proof.
  induction t as [|c t IH]; intros H; [auto|].
  cbn [forallb] in H |- *. apply andb_prop in H as [Hc H].
  destruct (IH H) as (H1 & H2 & H3). destruct (currency_char_spec _ _ _ _ Hc) as (B & D & E & _).
  cbn [mem_char existsb]. fold (mem_char d t). rewrite H1, H2, H3, B, D, E. auto.
Qed.

Section CurrencyAfter.
Context `{R : LocaleResolver}.
Variables (ic : option IntlConfig) (ld : locale_data) (d : ascii) (gs suffix : str)
  (disable : bool).
Hypothesis Hld : resolve_locale ic = Some ld.
Hypothesis Hminus : ld_minus ld = js "-".
Hypothesis Hfmt : format_config_ok ld d [] = true.
Hypothesis Hafter : currency_after_ok ld d gs = true.
Hypothesis Hsuf : plain_repl suffix = true.

Lemma currency_after_spec :
  exists t0 p, currency_text ld = t0 :: p
  /\ Ascii.eqb d "$" = false /\ plain_repl (t0 :: p) = true
  /\ forallb (fun c => negb (body_char gs [d] c)) (t0 :: p) = true
  /\ forallb (fun c => negb (is_digit c)) (t0 :: p) = true /\ mem_char d (t0 :: p) = false
  /\ is_digit t0 = false /\ Ascii.eqb t0 "-" = false /\ mem_char t0 (ld_group ld) = false.
Proof.
  unfold currency_after_ok in Hafter. destruct (ld_currency ld) as [cp|] eqn:Ec; [|discriminate].
  repeat match goal with H : _ && _ = true |- _ => apply andb_prop in H as [? ?] end.
  repeat match goal with H : negb _ = true |- _ => apply negb_true_iff in H end.
  assert (Ht : currency_text ld <> []).
  { unfold currency_text. rewrite Ec. destruct (cur_symbol cp); [discriminate|].
    destruct (cur_space cp); discriminate. }
  destruct (currency_text ld) as [|t0 p]; [congruence|].
  destruct (forallb_currency_char _ _ _ _ H0) as (H4 & H5 & H6).
  cbn [forallb] in H0. apply andb_prop in H0 as [Hc _].
  destruct (currency_char_spec _ _ _ _ Hc) as (_ & D & _ & G & M).
  exists t0, p. repeat split; assumption.
Qed.

(** Intl's parts of a normalized value, rewritten without a prefix: the
    number, then the literal and the symbol as Intl gives them. *)
Lemma replaceParts_after (v : normalized) :
  canonical v = true ->
  FormatValue.replaceParts
    (format_to_parts {| nf_locale := ld; nf_min_fd := 0 |} (js_Number (render "." v)))
    (fopts d gs [] suffix disable ic v)
  = (sign v ++ join (ld_group ld) (group_digits ld (int_part v))
     ++ (if truthy (shown_fraction v) then d :: shown_fraction v else []))
    ++ currency_text ld.
Proof.
  intros Hv. unfold currency_after_ok in Hafter. destruct (ld_currency ld) as [cp|] eqn:Ec;
    [|discriminate].
  repeat match goal with H : _ && _ = true |- _ => apply andb_prop in H as [? ?] end.
  repeat match goal with H : negb _ = true |- _ => apply negb_true_iff in H end.
  destruct (canonical_spec v Hv) as (Hi & Hne & Hid & Hf).
  assert (E : format_to_parts {| nf_locale := ld; nf_min_fd := 0 |} (js_Number (render "." v))
              = number_parts ld v
                ++ (if truthy (cur_space cp) then [mkPart PLiteral (cur_space cp)] else [])
                ++ [mkPart PCurrency (cur_symbol cp)]).
  { destruct v as [neg ip fr]; cbn [negative int_part frac_part] in *.
    replace (render "." _) with (decimal_literal neg ip fr) by reflexivity.
    rewrite js_Number_decimal by first [assumption | destruct fr; [exact (proj1 Hf)|exact I]].
    rewrite format_to_parts_decimal_after with (cp := cp)
      by first [reflexivity | assumption | destruct fr as [f|]; [exact (proj2 Hf)|apply Nat.le_0_l]].
    cbn [nf_locale]. rewrite Hid. reflexivity. }
  assert (C : concat (map (FormatSpec.part_table (fopts d gs [] suffix disable ic v))
                ((if truthy (cur_space cp) then [mkPart PLiteral (cur_space cp)] else [])
                 ++ [mkPart PCurrency (cur_symbol cp)])) = currency_text ld)
    by (unfold currency_text; rewrite Ec; destruct (cur_space cp); simpl; rewrite app_nil_r;
        reflexivity).
  rewrite E, FormatSpec.replaceParts_unprefixed, map_app, concat_app, C by reflexivity.
  rewrite <- FormatSpec.replaceParts_unprefixed by reflexivity.
  rewrite RoundTrip.replaceParts_body by assumption. reflexivity.
Qed.

(** [formatValue] in a currency-last locale, as [display] spells it. *)
Lemma formatValue_after_shows (v : normalized) :
  canonical v = true ->
  truthy suffix = false \/ fraction_kept v = true ->
  FormatValue.formatValue (fopts d gs [] suffix disable ic v)
  = Ok (display ld d [] (if truthy suffix then suffix else currency_text ld) v).
Proof.
  intros Hv Hk.
  destruct currency_after_spec as (t0 & p & Et & Hds & Hpl & Hbody & Hnod & Hdt & Ht0d & Ht0m & Ht0g).
  destruct (format_config_spec _ _ _ Hfmt) as (Hd & Hdm & Hg & _ & Hprim).
  destruct (render_not_empty d v Hv) as [Hn1 Hn2].
  destruct (number_text_ok ld d [] Hfmt v Hv) as [Hxm Hxe].
  assert (Hx0 := number_text_avoids ld d [] Hfmt v t0 Hv Ht0d Ht0m Ht0g eq_refl).
  unfold FormatValue.formatValue, fopts. cbn [FormatValue.value FormatValue.decimalSeparator
    FormatValue.prefix FormatValue.suffix FormatValue.decimalScale FormatValue.intlConfig
    FormatValue.groupSeparator].
  rewrite Hn1, Hn2, (render_value1 ld d [] Hfmt) by assumption.
  rewrite (render_not_sep ld d [] Hfmt), andb_false_r by assumption.
  rewrite (make_number_format_ok ic ld Hld), rbind_ok.
  fold (fopts d gs [] suffix disable ic v).
  rewrite replaceParts_after, match_decimals_render, (render_last d) by assumption.
  rewrite app_nil_l in Hxm, Hxe, Hx0.
  set (X := sign v ++ join (ld_group ld) (group_digits ld (int_part v))) in *.
  assert (EX : forall y, sign v ++ join (ld_group ld) (group_digits ld (int_part v)) ++ y = X ++ y)
    by (intros; unfold X; rewrite <- !app_assoc; reflexivity).
  unfold display, tail, shown_fraction. cbn [app]. rewrite !EX, Et.
  destruct (canonical_spec v Hv) as (_ & _ & _ & Hf). unfold fraction_kept in Hk.
  destruct (frac_part v) as [[|c f]|].
  - change (strip_trailing_zeros []) with (@nil ascii) in *. cbn [truthy] in *.
    destruct Hk as [Hs|Hs]; [|discriminate]. rewrite Hs. cbn [andb truthy].
    rewrite app_nil_r, getSuffix_after_number by assumption. cbn [truthy andb].
    rewrite replace_first_tail; [reflexivity|exact Hx0|cbn [app]; rewrite plain_repl_cons; assumption].
  - destruct Hf as [Hf _]. cbn [truthy].
    set (f' := strip_trailing_zeros (c :: f)).
    assert (Hf' : all_digits f' = true) by (apply all_digits_strip_trailing_zeros; exact Hf).
    assert (Ht0x : forall y, all_digits y = true -> mem_char t0 (X ++ d :: y) = false).
    { intros y Hy. rewrite mem_char_app, Hx0. cbn [mem_char existsb].
      rewrite (Ascii.eqb_sym t0 d). apply orb_false_iff in Hdt as [-> _].
      apply mem_char_all_digits; assumption. }
    destruct (truthy f') eqn:Ht.
    + assert (Hne : f' <> []) by (intros E; rewrite E in Ht; discriminate).
      rewrite getSuffix_after_number by first [assumption | apply ends_digit_app_r;
        rewrite FormatValue.ends_digit_cons by exact Hne; apply ends_digit_all; assumption].
      replace ((X ++ d :: f') ++ t0 :: p) with (X ++ d :: f' ++ t0 :: p)
        by (rewrite <- app_assoc; reflexivity).
      unfold includes. rewrite index_of_first by exact Hxm. cbn [truthy andb].
      rewrite FormatValue.gsub_dsd_tail by first [assumption | discriminate].
      replace (X ++ d :: (c :: f) ++ t0 :: p) with ((X ++ d :: c :: f) ++ t0 :: p)
        by (rewrite <- app_assoc; reflexivity).
      destruct (truthy suffix) eqn:Hs; cbn [andb negb truthy].
      * rewrite replace_first_tail by (apply Ht0x || exact Hsuf; exact Hf).
        rewrite <- app_assoc. reflexivity.
      * destruct suffix; [|discriminate]. rewrite !app_nil_r, <- !app_assoc. reflexivity.
    + destruct Hk as [Hs|Hs]; [|fold f' in Hs; congruence]. rewrite Hs. cbn [andb negb truthy].
      rewrite app_nil_r, getSuffix_after_number by assumption. cbn [truthy andb negb].
      unfold includes. rewrite index_of_absent by (rewrite mem_char_app, Hxm; exact Hdt).
      rewrite replace_first_tail by first [exact Hx0 |
        rewrite plain_repl_cons, plain_repl_digits by assumption; exact Hpl].
      destruct suffix; [|discriminate]. rewrite !app_nil_r. reflexivity.
  - cbn [truthy]. rewrite app_nil_r, getSuffix_after_number by assumption.
    destruct (truthy suffix) eqn:Hs; cbn [andb negb truthy].
    + rewrite replace_first_tail by assumption. reflexivity.
    + destruct suffix; [|discriminate]. rewrite !app_nil_r. reflexivity.
Qed.

(** C28: in a locale that writes its currency symbol after the number
    ([1.234,5 $] for de-DE USD), with no prefix, [formatValue] shows the
    sign, the grouped digits and the fraction as typed, followed by the
    explicit suffix when one is given, and by the locale's literal and
    symbol otherwise (spec section 8: the explicit suffix wins over the
    currency). With an explicit suffix the value must keep a fraction
    through Intl ([fraction_kept]: none, or one with a nonzero digit). The
    value has at most 15 digits ([fits_double]). *)
Theorem formatValue_currency_after (v : normalized) :
  canonical v = true -> fits_double v = true ->
  truthy suffix = false \/ fraction_kept v = true ->
  FormatValue.formatValue (fopts d gs [] suffix disable ic v)
  = Ok (display ld d [] (if truthy suffix then suffix else currency_text ld) v).
Proof. intros Hv _ Hk. exact (formatValue_after_shows v Hv Hk). Qed.

(** C29: spec section 8's round trip in the locales that write their
    currency after the number ([intlConfig={locale:'de-DE',
    currency:'USD'}] with or without the suffix [' USD']): cleaning what
    [formatValue] shows gives the value back, for every value of at most
    15 digits that fits the cleaner's options, that keeps its fraction
    through Intl when an explicit suffix is given, and whose shown suffix
    (the explicit one, or the locale's literal and symbol) is made of
    non-number characters. *)
Theorem clean_format_roundtrip_after (v : normalized) (limit : nat)
  (allowDecimals allowNegative disableAbbreviations : bool) :
  canonical v = true -> fits_double v = true ->
  truthy suffix = false \/ fraction_kept v = true ->
  fits limit allowDecimals allowNegative v = true ->
  clean_config_ok d gs [] (if truthy suffix then suffix else currency_text ld)
    disableAbbreviations = true ->
  (let! shown := FormatValue.formatValue (fopts d gs [] suffix disable ic v) in
   Ok (CleanValue.cleanValue
         (copts d gs [] limit allowDecimals allowNegative disableAbbreviations shown)))
  = Ok (render d v).
Proof.
  intros Hv _ Hk Hfit Hcl. rewrite (formatValue_after_shows v Hv Hk). cbn [rbind].
  rewrite (cleanValue_reads ld d gs [] _ limit allowDecimals allowNegative disableAbbreviations
             Hfmt Hcl v Hv Hfit).
  reflexivity.
Qed.


End CurrencyAfter.

(** The theorem at de-DE USD with the suffix [" USD"]: [-1234,5] shows
    as [-1.234,5 USD]. *)
Lemma formatValue_currency_after_witness :
  FormatValue.formatValue (H := example_resolver)
    (fopts "," (js ".") [] (js " USD") false de_usd (mkNormalized true (js "1234") (Some (js "5"))))
  = Ok (js "-1.234,5 USD").
Proof.
  rewrite (formatValue_currency_after (R := example_resolver) de_usd de_usd_locale ","
             (js ".") (js " USD") false) by (reflexivity || (right; reflexivity)).
  reflexivity.
Defined.

(** The round trip at de-DE USD without an explicit suffix: [1.234,5 $]
    cleans back to [1234,5]. *)
Lemma clean_format_roundtrip_after_witness :
  (let! shown := FormatValue.formatValue (H := example_resolver)
                   (fopts "," (js ".") [] [] false de_usd (mkNormalized false (js "1234") (Some (js "5")))) in
   Ok (CleanValue.cleanValue (copts "," (js ".") [] 2 true true false shown)))
  = Ok (js "1234,5").
Proof.
  apply (clean_format_roundtrip_after (R := example_resolver) de_usd de_usd_locale ","
           (js ".") [] false); first [reflexivity | left; reflexivity].
Defined.

(** With an explicit suffix, a fraction Intl drops is appended after the
    suffix: [1,0] shows as [1 USD,0] (line 127, then line 146). *)
Example currency_after_zero_fraction :
  FormatValue.formatValue (H := example_resolver)
    (fopts "," (js ".") [] (js " USD") false de_usd (mkNormalized false (js "1") (Some (js "0"))))
  = Ok (js "1 USD,0").
Proof. vm_compute. reflexivity. Qed.

(** With an explicit suffix and a trailing separator, the locale's
    currency stays and the separator lands after it: [1,] shows as
    [1 $, USD] (line 134). *)
Example currency_after_trailing_separator :
  FormatValue.formatValue (H := example_resolver)
    (fopts "," (js ".") [] (js " USD") false de_usd (mkNormalized false (js "1") (Some [])))
  = Ok ([ "1"%char ] ++ nbsp ++ js "$, USD").
Proof. vm_compute. reflexivity. Qed.

(** The suffix is passed to [String.prototype.replace] as a replacement
    string (line 146): its [$&] expands to the locale's currency text, so
    the suffix [" $&"] shows the locale's [ $] again. *)
Example suffix_replacement_pattern :
  FormatValue.formatValue (H := example_resolver)
    (fopts "," (js ".") [] (js " $&") false de_usd (mkNormalized false (js "1234") None))
  = Ok (js "1.234 " ++ nbsp ++ js "$").
Proof. vm_compute. reflexivity. Qed.

End Currency.
