(* ===== verification/Props.v ===== *)
(** * Props: the props of [CurrencyInput] and the configuration a render builds

    Module [CurrencyInputConfig] models the props of
    src/src/components/CurrencyInputProps.ts and the render prologue of
    src/src/components/CurrencyInput.tsx (lines 35-105):
    - the destructuring with its defaults;
    - the two [isNumber] checks and [getLocaleConfig];
    - the separators taken from the props or the locale, and the check
      that they differ;
    - the option bags passed to [formatValue] and [cleanValue].
    It also holds the blur-time helpers [fixedDecimalValue] and
    [padTrimValue].  These, [getLocaleConfig] and [isNumber] are imported
    from [@/src/utils] but are not among the sources, so they are modelled
    from the spec (sections 2, 3 and 6) and from the props' documentation.
    [example_screen] is the props of the example app's screen
    (src/src/app/example.tsx). *)

From Stdlib Require Import Ascii String List Arith Lia ZArith Bool.
Import ListNotations.
From S2P Require Import Prelude Intl Format Clean.
Open Scope js_scope.

Module CurrencyInputConfig.

(** ** Props and configuration *)

(** The props the component reads, after the defaults of lines 36-62;
    an absent string prop is [''] (every use of it tests truthiness or
    defaults it to ['']); [value] and [defaultValue] are [String(...)] of
    the prop. *)
Record CurrencyInputProps : Type := mkProps {
  allowDecimals : bool;
  allowNegativeValue : bool;
  decimalsLimit : option nat;
  defaultValue : option str;
  maxLength : option nat;
  value : option str;
  fixedDecimalLength : option nat;
  decimalScale : option Z;
  prefix : str;
  suffix : str;
  intlConfig : option IntlConfig;
  disableGroupSeparators : bool;
  disableAbbreviations : bool;
  decimalSeparator : str;
  groupSeparator : str;
  transformRawValue : option (str -> str);
  formatValueOnBlur : bool
}.

(** [CurrencyInputProps] of CurrencyInputProps.ts (lines 38-185) as the
    caller passes it: every prop optional.  [value] is the [TextInputProps]
    prop the type keeps; [style], [placeholder] and the callbacks only
    reach the rendered [TextInput] and are left out. *)
Record RawProps : Type := mkRawProps {
  r_allowDecimals : option bool;
  r_allowNegativeValue : option bool;
  r_maxLength : option nat;
  r_min : option Z;
  r_max : option Z;
  r_decimalsLimit : option nat;
  r_decimalScale : option Z;
  r_defaultValue : option str;
  r_disabled : option bool;
  r_fixedDecimalLength : option nat;
  r_prefix : option str;
  r_suffix : option str;
  r_decimalSeparator : option str;
  r_groupSeparator : option str;
  r_disableGroupSeparators : option bool;
  r_disableAbbreviations : option bool;
  r_intlConfig : option IntlConfig;
  r_transformRawValue : option (str -> str);
  r_formatValueOnBlur : option bool;
  r_value : option str
}.

Definition default_bool (o : option bool) (d : bool) : bool :=
  match o with Some b => b | None => d end.

Definition undefined_str (o : option str) : str :=
  match o with Some s => s | None => [] end.

(** The destructuring of lines 35-64 with its defaults; [min], [max],
    [disabled] and the rest ([...props]) are not read by the logic. *)
Definition with_defaults (r : RawProps) : CurrencyInputProps :=
  mkProps (default_bool (r_allowDecimals r) true) (default_bool (r_allowNegativeValue r) true)
    (r_decimalsLimit r) (r_defaultValue r) (r_maxLength r) (r_value r)
    (r_fixedDecimalLength r) (r_decimalScale r) (undefined_str (r_prefix r))
    (undefined_str (r_suffix r)) (r_intlConfig r)
    (default_bool (r_disableGroupSeparators r) false)
    (default_bool (r_disableAbbreviations r) false)
    (undefined_str (r_decimalSeparator r)) (undefined_str (r_groupSeparator r))
    (r_transformRawValue r) (default_bool (r_formatValueOnBlur r) true).


(** The separators and affixes a locale uses ([getLocaleConfig]). *)
Record LocaleConfig : Type := mkLocaleConfig {
  currencySymbol : str;
  lc_groupSeparator : str;
  lc_decimalSeparator : str;
  lc_prefix : str;
  lc_suffix : str
}.

Definition default_locale_config : LocaleConfig := mkLocaleConfig [] [] [] [] [].

(** One part of [formatToParts(1000.1)]: a currency symbol at index 0 is
    a prefix, elsewhere a suffix. *)
Definition locale_config_part (i : nat) (prev : LocaleConfig) (p : part) : LocaleConfig :=
  match ptype p with
  | PCurrency =>
      if i =? 0 then mkLocaleConfig (pvalue p) (lc_groupSeparator prev) (lc_decimalSeparator prev)
                       (pvalue p) (lc_suffix prev)
      else mkLocaleConfig (pvalue p) (lc_groupSeparator prev) (lc_decimalSeparator prev)
             (lc_prefix prev) (pvalue p)
  | PGroup => mkLocaleConfig (currencySymbol prev) (pvalue p) (lc_decimalSeparator prev)
                (lc_prefix prev) (lc_suffix prev)
  | PDecimal => mkLocaleConfig (currencySymbol prev) (lc_groupSeparator prev) (pvalue p)
                  (lc_prefix prev) (lc_suffix prev)
  | _ => prev
  end.

Fixpoint locale_config_parts (i : nat) (prev : LocaleConfig) (ps : list part) : LocaleConfig :=
  match ps with
  | [] => prev
  | p :: ps' => locale_config_parts (S i) (locale_config_part i prev p) ps'
  end.

(** [isNumber]: the string contains a digit. *)
Definition isNumber (s : str) : bool := has_digit s.

(** [a || b] on numbers: [0] and [undefined] are falsy. *)
Definition or_nat (a : option nat) (b : nat) : nat :=
  match a with Some (S n) => S n | _ => b end.

Definition or_str (a b : str) : str := if truthy a then a else b.

(** What the render prologue computes from the props. *)
Record Config : Type := mkConfig {
  props : CurrencyInputProps;
  localeConfig : LocaleConfig;
  cfg_decimalSeparator : str;
  cfg_groupSeparator : str
}.

Section WithResolver.
Context `{R : LocaleResolver}.

Definition getLocaleConfig (ic : option IntlConfig) : result LocaleConfig :=
  let! nf := make_number_format (resolve_locale ic) 0 in
  Ok (locale_config_parts 0 default_locale_config
        (format_to_parts nf (JNum false (js "1000") (js "1")))).

(** Lines 67-85. *)
Definition configure (p : CurrencyInputProps) : result Config :=
  if truthy (decimalSeparator p) && isNumber (decimalSeparator p) then
    Throw (Error (js "decimalSeparator cannot be a number")) else
  if truthy (groupSeparator p) && isNumber (groupSeparator p) then
    Throw (Error (js "groupSeparator cannot be a number")) else
  let! lc := getLocaleConfig (intlConfig p) in
  let ds := or_str (decimalSeparator p) (lc_decimalSeparator lc) in
  let gs := or_str (groupSeparator p) (lc_groupSeparator lc) in
  if truthy ds && truthy gs && (ds =s? gs) && negb (disableGroupSeparators p) then
    Throw (Error (js "decimalSeparator cannot be the same as groupSeparator"))
  else Ok (mkConfig p lc ds gs).

End WithResolver.

(** [formatValueOptions] of lines 87-94, completed with the value and
    the scale of a call. *)
Definition format_options (c : Config) (v : str) (scale : option Z)
  : FormatValue.FormatValueOptions :=
  let p := props c in
  FormatValue.mkOptions v (cfg_decimalSeparator c) (cfg_groupSeparator c)
    (disableGroupSeparators p) (intlConfig p) scale
    (or_str (prefix p) (lc_prefix (localeConfig c))) (suffix p).

(** [cleanValueOptions] of lines 96-105 with the value of a call. *)
Definition clean_options (c : Config) (v : str) : CleanValue.CleanValueOptions :=
  let p := props c in
  CleanValue.mkOptions v (cfg_decimalSeparator c) (cfg_groupSeparator c) (allowDecimals p)
    (or_nat (decimalsLimit p) (or_nat (fixedDecimalLength p) 2)) (allowNegativeValue p)
    (disableAbbreviations p) (or_str (prefix p) (lc_prefix (localeConfig c)))
    (match transformRawValue p with Some f => f | None => fun s => s end).

Definition format_prefix (c : Config) : str := or_str (prefix (props c)) (lc_prefix (localeConfig c)).

(** ** Blur-time helpers (spec section 6: the settle pass pads and
    truncates the fraction) *)

(** Splits at the first decimal separator. *)
Definition split_at_separator (ds v : str) : str * option str :=
  match (if truthy ds then index_of v ds else None) with
  | Some i => (firstn i v, Some (skipn (i + length ds) v))
  | None => (v, None)
  end.

(** [fixedDecimalValue(value, decimalSeparator, fixedDecimalLength)]: the
    value keeps [fixedDecimalLength] decimals ("123 -> 1.23" in the props'
    documentation): a longer fraction is truncated, a value without
    separator and with more characters than that gets the separator before
    its last [fixedDecimalLength] characters; at 0 the fraction is
    dropped.  A shorter fraction is left to [padTrimValue]. *)
Definition fixedDecimalValue (v ds : str) (fixed : option nat) : str :=
  match fixed, split_at_separator ds v with
  | Some n, (int, Some decimals) =>
      if n =? 0 then int
      else if n <? length decimals then int ++ ds ++ firstn n decimals else v
  | Some (S _ as n), (_, None) =>
      if n <? length v then firstn (length v - n) v ++ ds ++ skipn (length v - n) v else v
  | _, _ => v
  end.

(** [padTrimValue(value, decimalSeparator, scale)]: the fraction padded
    with zeros or truncated to exactly [scale] digits. *)
Definition padTrimValue (v ds : str) (scale : option nat) : str :=
  match scale with
  | None => v
  | Some n =>
      if negb (truthy v) then v
      else if negb (has_digit v) then []
      else
        let '(int, decimals) := split_at_separator ds v in
        if n =? 0 then int
        else
          let d := match decimals with Some d => d | None => [] end in
          int ++ ds ++ firstn n d ++ repeat "0"%char (n - length d)
  end.

Definition decimals_limit (c : Config) : nat :=
  or_nat (decimalsLimit (props c)) (or_nat (fixedDecimalLength (props c)) 2).

(** ** Example configurations

    The props of a field with the defaults of lines 36-62 in the
    example resolver's default locale (en-US), and variants with a
    [maxLength] of 3 and with the prefix ["$"]. *)
Definition example_props (maxLen : option nat) (pre : str) : CurrencyInputProps :=
  mkProps true true None None maxLen None None None pre [] None false false [] [] None true.

Definition example_config (maxLen : option nat) (pre : str) : Config :=
  mkConfig (example_props maxLen pre) (mkLocaleConfig [] (js ",") (js ".") [] [])
    (js ".") (js ",").

(** The props of the example screen, src/src/app/example.tsx lines 3-14:
    a placeholder (not modelled), [intlConfig={ locale: 'en-US', currency:
    'USD' }] and an [onValueChange] callback (recorded as outputs). *)
Definition example_screen : RawProps :=
  mkRawProps None None None None None None None None None None None None None None None None
    (Some {| locale := js "en-US"; currency := Some (js "USD") |}) None None None.

(** The configuration the example screen's render builds in en-US. *)
Definition example_screen_config : Config :=
  mkConfig (with_defaults example_screen) (mkLocaleConfig (js "$") (js ",") (js ".") (js "$") [])
    (js ".") (js ",").

(** ** Configuration *)

(** C15: spec section 7 (a): a decimal separator prop containing a digit
    is rejected with [Error] before anything else is computed. *)
Theorem configure_rejects_numeric_separator `{R : LocaleResolver} (p : CurrencyInputProps) :
  has_digit (decimalSeparator p) = true ->
  configure p = Throw (Error (js "decimalSeparator cannot be a number")).
Proof.
  intros H. unfold configure, isNumber. rewrite H.
  destruct (decimalSeparator p); [discriminate|reflexivity].
Qed.

(** C16: a configuration that [configure] accepts keeps the props, takes
    each separator from the props or else from the locale, has no digit
    in a separator prop, and has distinct separators while grouping is
    enabled. *)
Theorem configure_separators `{R : LocaleResolver} (p : CurrencyInputProps) (c : Config) :
  configure p = Ok c ->
  props c = p
  /\ cfg_decimalSeparator c = or_str (decimalSeparator p) (lc_decimalSeparator (localeConfig c))
  /\ cfg_groupSeparator c = or_str (groupSeparator p) (lc_groupSeparator (localeConfig c))
  /\ has_digit (decimalSeparator p) = false /\ has_digit (groupSeparator p) = false
  /\ (truthy (cfg_decimalSeparator c) && truthy (cfg_groupSeparator c)
      && (cfg_decimalSeparator c =s? cfg_groupSeparator c)
      && negb (disableGroupSeparators p)) = false.
Proof.
  unfold configure, isNumber.
  destruct (decimalSeparator p) as [|a ds] eqn:Ed; cbn [truthy andb];
    [|destruct (has_digit (a :: ds)) eqn:Hd; [discriminate|]];
  (destruct (groupSeparator p) as [|b gs] eqn:Eg; cbn [truthy andb];
    [|destruct (has_digit (b :: gs)) eqn:Hg; [discriminate|]]);
  (destruct (getLocaleConfig (intlConfig p)) as [lc|]; cbn [rbind]; [|discriminate]);
  match goal with |- (if ?b then _ else _) = _ -> _ => destruct b eqn:Eb end;
  try discriminate; intros [= <-]; cbn;
  repeat split; try reflexivity; try assumption; rewrite ?Ed, ?Eg; exact Eb.
Qed.

Lemma example_config_ok (m : option nat) (pre : str) :
  configure (R := example_resolver) (example_props m pre) = Ok (example_config m pre).
Proof. reflexivity. Qed.

(** ** The prefix a currency locale gives *)

Lemma locale_config_parts_prefix (i : nat) (prev : LocaleConfig) (ps : list part) :
  lc_prefix (locale_config_parts (S i) prev ps) = lc_prefix prev.
Proof.
  revert i prev. induction ps as [|p ps IH]; intros i prev; [reflexivity|].
  cbn [locale_config_parts]. rewrite IH. unfold locale_config_part.
  destruct (ptype p); reflexivity.
Qed.

(** [getLocaleConfig] reads a currency symbol written first as the prefix. *)
Lemma getLocaleConfig_prefix `{R : LocaleResolver} (ic : option IntlConfig) (ld : locale_data)
  (cp : currency_pattern) :
  resolve_locale ic = Some ld -> ld_currency ld = Some cp -> cur_before cp = true ->
  exists lc, getLocaleConfig ic = Ok lc /\ lc_prefix lc = cur_symbol cp.
Proof.
  intros Hl Hc Hb. unfold getLocaleConfig. rewrite Hl. eexists. split; [reflexivity|].
  unfold format_to_parts, with_currency. cbn [nf_locale]. rewrite Hc, Hb.
  destruct (round_fraction (js "1000") (js "1")) as [ip1 fp1]. cbn [app locale_config_parts]. rewrite locale_config_parts_prefix. reflexivity.
Qed.

(** Hence a configured field in such a locale always formats with a
    prefix: the [prefix] prop or else the symbol. *)
Lemma configure_currency_prefix `{R : LocaleResolver} (p : CurrencyInputProps) (c : Config)
  (ld : locale_data) (cp : currency_pattern) :
  configure p = Ok c -> resolve_locale (intlConfig p) = Some ld -> ld_currency ld = Some cp ->
  cur_before cp = true -> truthy (cur_symbol cp) = true -> truthy (format_prefix c) = true.
Proof.
  intros Hc Hl Hcur Hb Hs. destruct (getLocaleConfig_prefix _ _ _ Hl Hcur Hb) as (lc & Hg & Hp).
  unfold configure in Hc. rewrite Hg in Hc. cbn [rbind] in Hc.
  repeat match goal with H : context [if ?b then _ else _] |- _ => destruct b end;
    try discriminate.
  injection Hc as <-. unfold format_prefix, or_str. cbn [props localeConfig].
  destruct (truthy (prefix p)) eqn:E; [exact E|]. rewrite Hp. exact Hs.
Qed.

Lemma example_screen_config_ok :
  configure (R := example_resolver) (with_defaults example_screen) = Ok example_screen_config.
Proof. reflexivity. Qed.

Lemma configure_rejects_numeric_separator_witness :
  has_digit (js "1") = true
  /\ configure (R := example_resolver)
       (mkProps true true None None None None None None [] [] None false false (js "1") [] None true)
     = Throw (Error (js "decimalSeparator cannot be a number")).
Proof.
  split; [reflexivity|].
  exact (configure_rejects_numeric_separator (R := example_resolver)
           (mkProps true true None None None None None None [] [] None false false (js "1") [] None true)
           eq_refl).
Defined.

Lemma configure_separators_witness :
  configure (R := example_resolver) (example_props None []) = Ok (example_config None [])
  /\ cfg_decimalSeparator (example_config None []) = js ".".
Proof.
  split; [reflexivity|].
  destruct (configure_separators (R := example_resolver) (example_props None [])
              (example_config None []) eq_refl) as (_ & E & _). exact E.
Defined.

End CurrencyInputConfig.
