(* ===== verification/Component.v ===== *)
(** * Component: the [CurrencyInput] component as a state machine

    Module [CurrencyInput] models the body of
    src/src/components/CurrencyInput.tsx after the render prologue, which
    [Props] models:
    - [State] is the component's React state (lines 107-122).
    - Each handler maps the state before the event to the state after it
      and the callbacks it makes.  It reads the state of the render that
      created it, as React closures do.  The handlers are
      [processChange], [handleOnChange], [handleOnFocus],
      [handleOnSelectionChange], [handleOnEndEditing] and the [onKeyPress]
      callback.
    - [selection_effect] is the [useEffect] of lines 282-299.  It runs
      after a render in which one of its dependencies changed.
    - [step] is one event followed by that effect.  [run] is a sequence of
      events.  [reachable] and [eventually] are the inductive step
      relations.
    - [props_change] is a render with new props.  When [value] or
      [defaultValue] changed it runs the effect of lines 276-280;
      [getRenderValue] is the text a render shows.
    The callbacks the props may supply ([onValueChange], [onChangeText],
    [onFocus], [onEndEditing]) are recorded as [output]s, as if each were
    supplied. *)

From Stdlib Require Import Ascii String List Arith Lia ZArith Bool.
Import ListNotations.
From S2P Require Import Prelude Intl Suffix Format Clean Cursor RoundTrip Props.
Open Scope js_scope.

Module CurrencyInput.
Import CurrencyInputConfig.

(** ** State, events and callbacks *)

Record selection : Type := mkSel { start : Z; end_ : Z }.

(** The [useState] hooks of lines 107-122. *)
Record State : Type := mkState {
  stateValue : str;
  dirty : bool;
  cursor : Z;
  changeCount : nat;
  lastKeyStroke : option str;
  selectIndex : selection
}.

(** [CurrencyInputOnChangeValues] of CurrencyInputProps.ts, lines 10-31;
    [float] is [None] for [null]. *)
Record OnChangeValues : Type := mkValues {
  float : option jsnum;
  formatted : str;
  changed_value : str
}.

(** The callbacks a handler makes and the selection the effect applies. *)
Inductive output : Type :=
| OnValueChange (v : option str) (values : OnChangeValues)
| OnChangeText (text : str)
| OnFocus
| OnEndEditing
| SetSelection (s e : Z).

(** The events of the [TextInput]. *)
Inductive event : Type :=
| ChangeText (text : str)
| SelectionChange (sel : selection)
| KeyPress (key : str)
| Focus
| EndEditing (text : str).

Definition is_key_press (e : event) : bool :=
  match e with KeyPress _ => true | _ => false end.

Definition set_value (st : State) (v : str) : State :=
  mkState v (dirty st) (cursor st) (changeCount st) (lastKeyStroke st) (selectIndex st).
Definition set_dirty (st : State) : State :=
  mkState (stateValue st) true (cursor st) (changeCount st) (lastKeyStroke st) (selectIndex st).
Definition set_select (st : State) (sel : selection) : State :=
  mkState (stateValue st) (dirty st) (cursor st) (changeCount st) (lastKeyStroke st) sel.
Definition set_count (st : State) (n : nat) : State :=
  mkState (stateValue st) (dirty st) (cursor st) n (lastKeyStroke st) (selectIndex st).
Definition set_key (st : State) (k : str) : State :=
  mkState (stateValue st) (dirty st) (cursor st) (changeCount st) (Some k) (selectIndex st).

(** [stringValue.replace(/-/g, '').length > userMaxLength] under a truthy
    [userMaxLength]. *)
Definition exceeds_max_length (m : option nat) (s : str) : bool :=
  match m with
  | Some (S _ as n) => n <? length (filter (fun c => negb (Ascii.eqb c "-")) s)
  | _ => false
  end.

Definition mid_entry (ds s : str) : bool :=
  (s =s? []) || (s =s? js "-") || (s =s? ds).

Section Handlers.
Context `{R : LocaleResolver}.
Variable c : Config.

(** [processChange(value, selectionStart)], lines 129-199. *)
Definition processChange (st : State) (v : str) (selectionStart : option Z)
  : result (State * list output) :=
  let ds := cfg_decimalSeparator c in
  let st1 := set_dirty st in
  let r := RepositionCursor.repositionCursor
             (RepositionCursor.mkProps selectionStart v (lastKeyStroke st) (stateValue st)
                (cfg_groupSeparator c)) in
  let stringValue := CleanValue.cleanValue (clean_options c (RepositionCursor.modifiedValue r)) in
  if exceeds_max_length (maxLength (props c)) stringValue then Ok (st1, []) else
  if mid_entry ds stringValue then
    Ok (set_select (set_value st1 stringValue) (mkSel 1 1),
        [OnValueChange None (mkValues None [] [])])
  else
  let stringValueWithoutSeparator :=
    if truthy ds then replace_first stringValue ds (js ".") else stringValue in
  let numberValue := parse_float stringValueWithoutSeparator in
  let! formattedValue := FormatValue.formatValue (format_options c stringValue None) in
  let st2 :=
    match RepositionCursor.cursorPosition r with
    | Some cp =>
        let n := RepositionCursor.newCursor cp (format_prefix c)
                   (Z.of_nat (length formattedValue)) (Z.of_nat (length v)) in
        set_count (set_select st1 (mkSel n n)) (S (changeCount st))
    | None => st1
    end in
  Ok (set_value st2 formattedValue,
      [OnValueChange (Some stringValue) (mkValues (Some numberValue) formattedValue stringValue)]).

(** Lines 204-207. *)
Definition handleOnChange (st : State) (text : str) : result (State * list output) :=
  let! r := processChange st text (Some (start (selectIndex st))) in
  Ok (fst r, snd r ++ [OnChangeText text]).

(** Lines 212-215: the caret offset reported on focus. *)
Definition handleOnFocus (st : State) : Z :=
  if truthy (stateValue st) then Z.of_nat (length (stateValue st)) else 0.

(** Lines 221-225. *)
Definition handleOnSelectionChange (st : State) (sel : selection) : State := set_select st sel.

(** Lines 232-273. *)
Definition handleOnEndEditing (st : State) (text : str) : result (State * list output) :=
  let ds := cfg_decimalSeparator c in
  let p := props c in
  let valueOnly := CleanValue.cleanValue (clean_options c text) in
  if (valueOnly =s? js "-") || (valueOnly =s? ds) || negb (truthy valueOnly) then
    Ok (set_value st [], [OnEndEditing])
  else
  let fixedDecimals := fixedDecimalValue valueOnly ds (fixedDecimalLength p) in
  let newValue := padTrimValue fixedDecimals ds
                    (match decimalScale p with
                     | Some z => Some (Z.to_nat z)
                     | None => fixedDecimalLength p
                     end) in
  let numberValue := parse_float (replace_first newValue ds (js ".")) in
  let! formattedValue := FormatValue.formatValue (format_options c newValue None) in
  Ok (set_value st formattedValue,
      (if formatValueOnBlur p
       then [OnValueChange (Some newValue) (mkValues (Some numberValue) formattedValue newValue)]
       else []) ++ [OnEndEditing]).

(** The handler an event reaches; [onKeyPress] is the inline callback of
    lines 342-344. *)
Definition handle (st : State) (e : event) : result (State * list output) :=
  match e with
  | ChangeText text => handleOnChange st text
  | SelectionChange sel => Ok (handleOnSelectionChange st sel, [])
  | KeyPress key => Ok (set_key st key, [])
  | Focus => Ok (st, [OnFocus])
  | EndEditing text => handleOnEndEditing st text
  end.

(** Lines 282-299: after a render whose dependencies [stateValue],
    [cursor], [dirty] and [changeCount] changed, a dirty field not showing
    ["-"] gets the selection one past [selectIndex] (the mounted
    [inputRef]); the [getSuffix] result of line 285 is unused. *)
Definition deps_changed (before after : State) : bool :=
  negb ((stateValue before =s? stateValue after) && (cursor before =? cursor after)%Z
        && Bool.eqb (dirty before) (dirty after) && (changeCount before =? changeCount after)).

Definition selection_effect (before after : State) : list output :=
  if deps_changed before after && dirty after && negb (stateValue after =s? js "-") then
    [SetSelection (start (selectIndex after) + 1) (end_ (selectIndex after) + 1)]
  else [].

(** One event and the effect of the render it causes. *)
Definition step (st : State) (e : event) : result (State * list output) :=
  let! r := handle st e in
  Ok (fst r, snd r ++ selection_effect st (fst r)).

(** A sequence of events, in order; the first exception stops it. *)
Fixpoint run (st : State) (es : list event) : result (State * list output) :=
  match es with
  | [] => Ok (st, [])
  | e :: es' =>
      let! r1 := step st e in
      let! r2 := run (fst r1) es' in
      Ok (fst r2, snd r1 ++ snd r2)
  end.

(** The [useState] initialisers of lines 107-122. *)
Definition initial_state : result State :=
  let p := props c in
  let! v := match defaultValue p, value p with
            | Some d, _ => FormatValue.formatValue (format_options c d (decimalScale p))
            | None, Some u => FormatValue.formatValue (format_options c u (decimalScale p))
            | None, None => Ok []
            end in
  Ok (mkState v false 0 0 None (mkSel 0 0)).

(** [getRenderValue], lines 305-319: the text the field shows. *)
Definition getRenderValue (st : State) : result str :=
  let ds := cfg_decimalSeparator c in
  match value (props c) with
  | Some u =>
      if negb (stateValue st =s? js "-") && (negb (truthy ds) || negb (stateValue st =s? ds))
      then FormatValue.formatValue
             (format_options c u (if dirty st then None else decimalScale (props c)))
      else Ok (stateValue st)
  | None => Ok (stateValue st)
  end.

(** The states a mounted field reaches. *)
Inductive reachable : State -> Prop :=
| reach_init st : initial_state = Ok st -> reachable st
| reach_step st e st' out : reachable st -> step st e = Ok (st', out) -> reachable st'.

(** The states from which some sequence of events leads to a state
    satisfying [P] (the [eventually] of coqutil's small-step combinators,
    for the deterministic [step]). *)
Inductive eventually (P : State -> Prop) : State -> Prop :=
| ev_now st : P st -> eventually P st
| ev_step st e st' out : step st e = Ok (st', out) -> eventually P st' -> eventually P st.

End Handlers.

(** ** Prop changes *)

Definition opt_str_eqb (a b : option str) : bool :=
  match a, b with
  | Some x, Some y => x =s? y
  | None, None => true
  | _, _ => false
  end.

(** The effect of lines 276-280, with the props of the new render. *)
Definition value_effect (c : Config) (st : State) : State :=
  match value (props c), defaultValue (props c) with
  | None, None => set_value st []
  | _, _ => st
  end.

(** A render with the props of [c'] after those of [c]: when [defaultValue]
    or [value] changed, the effect of lines 276-280 runs; the render its
    state change causes runs the selection effect. *)
Definition props_change (c c' : Config) (st : State) : State * list output :=
  if opt_str_eqb (value (props c)) (value (props c'))
     && opt_str_eqb (defaultValue (props c)) (defaultValue (props c'))
  then (st, [])
  else let st' := value_effect c' st in (st', selection_effect st st').

(** ** Auxiliary definitions of the proofs *)

(** The value [processChange] cleans for a change event: the raw text
    after [repositionCursor], through [cleanValue]. *)
Definition typed_value (c : Config) (st : State) (text : str) : str :=
  CleanValue.cleanValue (clean_options c (RepositionCursor.modifiedValue
    (RepositionCursor.repositionCursor
       (RepositionCursor.mkProps (Some (start (selectIndex st))) text (lastKeyStroke st)
          (stateValue st) (cfg_groupSeparator c))))).

(** What the field may hold: a mid-entry value or a formatter output. *)
Definition shown `{R : LocaleResolver} (c : Config) (s : str) : Prop :=
  mid_entry (cfg_decimalSeparator c) s = true
  \/ exists v scale, FormatValue.formatValue (format_options c v scale) = Ok s.

(** The configurations under which the field is stable on the display of
    a normalized value ([RoundTrip]): a one-character decimal separator,
    no [transformRawValue], and the conditions of [formatValue_shows] and
    [cleanValue_reads]. *)
Definition display_config_ok (c : Config) (d : ascii) (ld : locale_data) : bool :=
  (cfg_decimalSeparator c =s? [d])
  && match transformRawValue (props c) with None => true | Some _ => false end
  && RoundTrip.currency_ok ld (format_prefix c)
  && (ld_minus ld =s? js "-")
  && RoundTrip.format_config_ok ld d (format_prefix c)
  && RoundTrip.clean_config_ok d (cfg_groupSeparator c) (format_prefix c) (suffix (props c))
       (disableAbbreviations (props c)).

Definition is_value_change (o : output) : bool :=
  match o with OnValueChange _ _ => true | _ => false end.

(** The number of [onValueChange] calls among the callbacks. *)
Definition notifications (out : list output) : nat := length (filter is_value_change out).

(** A field that has not been edited yet, showing [v] with the caret at
    [n]. *)
Definition fresh_state (v : str) (n : Z) : State := mkState v false 0 0 None (mkSel n n).

(** The state after typing [1234] into an empty default field. *)
Definition typed_1234 : State := mkState (js "1,234") true 0 1 None (mkSel 0 0).

(** The default field with [formatValueOnBlur: false]. *)
Definition silent_config : Config :=
  mkConfig (mkProps true true None None None None None None [] [] None false false [] [] None false)
    (mkLocaleConfig [] (js ",") (js ".") [] []) (js ".") (js ",").

(** A field controlled through the [value] prop [u], with
    [decimalScale] [scale]. *)
Definition controlled_config (u : option str) (scale : option Z) : Config :=
  mkConfig (mkProps true true None None None u None scale [] [] None false false [] [] None true)
    (mkLocaleConfig [] (js ",") (js ".") [] []) (js ".") (js ",").

(** The default field with [fixedDecimalLength: 2]. *)
Definition fixed_config : Config :=
  mkConfig (mkProps true true None None None None (Some 2) None [] [] None false false [] [] None true)
    (mkLocaleConfig [] (js ",") (js ".") [] []) (js ".") (js ",").

(** ** Lemmas *)

Section Lemmas.
Context `{R : LocaleResolver}.
Variable c : Config.

Lemma processChange_shown (st st' : State) (v : str) (sel : option Z) (out : list output) :
  processChange c st v sel = Ok (st', out) ->
  stateValue st' = stateValue st \/ shown c (stateValue st').
Proof.
  unfold processChange. cbv zeta.
  destruct (exceeds_max_length _ _); [intros [= <- _]; left; reflexivity|].
  destruct (mid_entry _ _) eqn:Em; [intros [= <- _]; right; left; exact Em|].
  destruct (FormatValue.formatValue _) as [f|] eqn:Ef; cbn [rbind]; [|discriminate].
  intros [= <- _]. right. right. do 2 eexists. exact Ef.
Qed.

Lemma handleOnEndEditing_shown (st st' : State) (text : str) (out : list output) :
  handleOnEndEditing c st text = Ok (st', out) -> shown c (stateValue st').
Proof.
  unfold handleOnEndEditing. cbv zeta.
  destruct (_ || _ || _); [intros [= <- _]; left; reflexivity|].
  destruct (FormatValue.formatValue _) as [f|] eqn:Ef; cbn [rbind]; [|discriminate].
  intros [= <- _]. right. do 2 eexists. exact Ef.
Qed.

Lemma step_shown (st st' : State) (e : event) (out : list output) :
  step c st e = Ok (st', out) -> stateValue st' = stateValue st \/ shown c (stateValue st').
Proof.
  unfold step. destruct (handle c st e) as [[st1 o1]|] eqn:Eh; cbn [rbind]; [|discriminate].
  intros [= <- _]. destruct e; cbn [handle] in Eh.
  - unfold handleOnChange in Eh.
    destruct (processChange c st text _) as [[st2 o2]|] eqn:Ep; cbn [rbind] in Eh; [|discriminate].
    injection Eh as <- _. exact (processChange_shown _ _ _ _ _ Ep).
  - injection Eh as <- _. left; reflexivity.
  - injection Eh as <- _. left; reflexivity.
  - injection Eh as <- _. left; reflexivity.
  - right. exact (handleOnEndEditing_shown _ _ _ _ Eh).
Qed.

Lemma initial_shown (st : State) : initial_state c = Ok st -> shown c (stateValue st).
Proof.
  unfold initial_state. cbv zeta.
  destruct (defaultValue (props c)), (value (props c));
    try (destruct (FormatValue.formatValue _) as [f|] eqn:Ef; cbn [rbind]; [|discriminate];
         intros [= <-]; right; do 2 eexists; exact Ef).
  intros [= <-]. left. reflexivity.
Qed.

Lemma handleOnChange_rejected (st : State) (text : str) :
  exceeds_max_length (maxLength (props c)) (typed_value c st text) = true ->
  handleOnChange c st text = Ok (set_dirty st, [OnChangeText text]).
Proof.
  unfold typed_value. intros H. unfold handleOnChange, processChange. cbv zeta.
  rewrite H. reflexivity.
Qed.

Lemma handleOnChange_accepted (st : State) (text f : str) :
  let sv := typed_value c st text in
  let ds := cfg_decimalSeparator c in
  exceeds_max_length (maxLength (props c)) sv = false ->
  mid_entry ds sv = false ->
  FormatValue.formatValue (format_options c sv None) = Ok f ->
  exists st', handleOnChange c st text
    = Ok (st', [OnValueChange (Some sv)
                  (mkValues (Some (parse_float (if truthy ds then replace_first sv ds (js ".") else sv)))
                     f sv); OnChangeText text])
    /\ stateValue st' = f.
Proof.
  unfold typed_value. cbv zeta. intros H1 H2 H3.
  unfold handleOnChange, processChange. cbv zeta. rewrite H1, H2, H3. cbn [rbind].
  eexists. split; [reflexivity|].
  destruct (RepositionCursor.cursorPosition _); reflexivity.
Qed.

Lemma typed_value_other_key (st : State) (text : str) :
  RepositionCursor.is_backspace (lastKeyStroke st) = false ->
  typed_value c st text = CleanValue.cleanValue (clean_options c text).
Proof.
  intros Hk. unfold typed_value, RepositionCursor.repositionCursor. cbn.
  destruct (_ && _); [|reflexivity]. rewrite Hk. reflexivity.
Qed.

Lemma display_config_spec (d : ascii) (ld : locale_data) :
  display_config_ok c d ld = true ->
  cfg_decimalSeparator c = [d] /\ transformRawValue (props c) = None
  /\ RoundTrip.currency_ok ld (format_prefix c) = true /\ ld_minus ld = js "-"
  /\ RoundTrip.format_config_ok ld d (format_prefix c) = true
  /\ RoundTrip.clean_config_ok d (cfg_groupSeparator c) (format_prefix c) (suffix (props c))
       (disableAbbreviations (props c)) = true.
Proof.
  unfold display_config_ok. intros H.
  repeat match goal with H : _ && _ = true |- _ => apply andb_prop in H as [? ?] end.
  repeat match goal with H : (_ =s? _) = true |- _ => apply str_eqb_eq in H end.
  repeat split; try assumption. destruct (transformRawValue _); easy.
Qed.

(** The currency condition of [display_config_ok] holds for every
    configured field whose locale writes its symbol first without a
    literal: [getLocaleConfig] makes the symbol the prefix. *)
Lemma configured_currency_ok (p : CurrencyInputProps) (ld : locale_data) (cp : currency_pattern) :
  configure p = Ok c -> resolve_locale (intlConfig p) = Some ld -> ld_currency ld = Some cp ->
  cur_before cp = true -> cur_space cp = [] -> truthy (cur_symbol cp) = true ->
  RoundTrip.currency_ok ld (format_prefix c) = true.
Proof.
  intros Hc Hl Hcur Hb Hs Hsym. unfold RoundTrip.currency_ok. rewrite Hcur, Hb, Hs.
  rewrite (configure_currency_prefix p c ld cp Hc Hl Hcur Hb Hsym). reflexivity.
Qed.

Lemma render_not_mid_entry (d : ascii) (v : RoundTrip.normalized) :
  RoundTrip.canonical v = true -> is_digit d = false -> mid_entry [d] (RoundTrip.render d v) = false.
Proof.
  intros Hv Hd. unfold mid_entry.
  destruct (RoundTrip.render_not_empty d v Hv) as [-> ->]. cbn [orb].
  destruct (RoundTrip.canonical_spec v Hv) as (Hi & Hne & _ & _).
  apply str_eqb_neq. unfold RoundTrip.render, RoundTrip.sign.
  destruct (RoundTrip.int_part v) as [|a ip]; [congruence|].
  destruct (RoundTrip.negative v); simpl; intros E; injection E as E1 E2; [discriminate|].
  subst a. simpl in Hi. rewrite Hd in Hi. discriminate.
Qed.

Lemma notifications_app (a b : list output) :
  notifications (a ++ b) = notifications a + notifications b.
Proof. unfold notifications. rewrite filter_app, length_app. reflexivity. Qed.

Lemma notifications_cons (o : output) (l : list output) :
  notifications (o :: l) = (if is_value_change o then 1 else 0) + notifications l.
Proof. unfold notifications. cbn [filter]. destruct (is_value_change o); reflexivity. Qed.

Lemma selection_effect_silent (a b : State) : notifications (selection_effect a b) = 0.
Proof. unfold selection_effect. destruct (_ && _); reflexivity. Qed.


Lemma handleOnChange_mid_entry (st : State) (text : str) :
  let sv := typed_value c st text in
  exceeds_max_length (maxLength (props c)) sv = false ->
  mid_entry (cfg_decimalSeparator c) sv = true ->
  handleOnChange c st text
  = Ok (set_select (set_value (set_dirty st) sv) (mkSel 1 1),
        [OnValueChange None (mkValues None [] []); OnChangeText text]).
Proof.
  unfold typed_value. cbv zeta. intros H1 H2.
  unfold handleOnChange, processChange. cbv zeta. rewrite H1, H2. reflexivity.
Qed.

(** What a step leaves alone: [dirty] once set, the [changeCount]
    order, and [cursor], which no handler sets. *)
Lemma step_monotone (st st' : State) (e : event) (out : list output) :
  step c st e = Ok (st', out) ->
  (dirty st = true -> dirty st' = true) /\ changeCount st <= changeCount st'
  /\ cursor st' = cursor st.
Proof.
  unfold step. destruct (handle c st e) as [[st1 o1]|] eqn:Eh; cbn [rbind]; [|discriminate].
  intros [= <- _]. destruct e; cbn [handle] in Eh.
  - unfold handleOnChange, processChange in Eh. cbv zeta in Eh.
    destruct (exceeds_max_length _ _); [injection Eh as <- _; cbn; auto|].
    destruct (mid_entry _ _); [injection Eh as <- _; cbn; auto|].
    destruct (FormatValue.formatValue _); cbn [rbind] in Eh; [|discriminate].
    injection Eh as <- _. destruct (RepositionCursor.cursorPosition _); cbn; auto.
  - injection Eh as <- _. cbn. auto.
  - injection Eh as <- _. cbn. auto.
  - injection Eh as <- _. auto.
  - unfold handleOnEndEditing in Eh. cbv zeta in Eh.
    destruct (_ || _ || _); [injection Eh as <- _; cbn; auto|].
    destruct (FormatValue.formatValue _); cbn [rbind] in Eh; [|discriminate].
    injection Eh as <- _. cbn. auto.
Qed.

(** The change handler on the display of a normalized value. *)
Lemma handleOnChange_display (st : State) (d : ascii) (ld : locale_data) (v : RoundTrip.normalized) :
  display_config_ok c d ld = true ->
  resolve_locale (intlConfig (props c)) = Some ld ->
  RoundTrip.canonical v = true ->
  RoundTrip.fits (decimals_limit c) (allowDecimals (props c)) (allowNegativeValue (props c)) v
    = true ->
  exceeds_max_length (maxLength (props c)) (RoundTrip.render d v) = false ->
  RepositionCursor.is_backspace (lastKeyStroke st) = false ->
  let text := RoundTrip.display ld d (format_prefix c) (suffix (props c)) v in
  exists st', handleOnChange c st text
    = Ok (st', [OnValueChange (Some (RoundTrip.render d v))
                  (mkValues (Some (parse_float (replace_first (RoundTrip.render d v) [d] (js "."))))
                     text (RoundTrip.render d v)); OnChangeText text])
    /\ stateValue st' = text.
Proof.
  intros Hc Hld Hv Hfit Hmax Hk text.
  destruct (display_config_spec d ld Hc) as (Hds & Ht & Hcur & Hmin & Hfmt & Hcl).
  assert (Hsv : typed_value c st text = RoundTrip.render d v).
  { rewrite typed_value_other_key by exact Hk.
    replace (clean_options c text) with
      (RoundTrip.copts d (cfg_groupSeparator c) (format_prefix c) (decimals_limit c)
         (allowDecimals (props c)) (allowNegativeValue (props c))
         (disableAbbreviations (props c)) text)
      by (unfold clean_options, RoundTrip.copts, decimals_limit, format_prefix;
          rewrite Hds, Ht; reflexivity).
    exact (RoundTrip.cleanValue_reads ld d _ _ _ _ _ _ _ Hfmt Hcl v Hv Hfit). }
  assert (Hf : FormatValue.formatValue (format_options c (RoundTrip.render d v) None) = Ok text).
  { replace (format_options c (RoundTrip.render d v) None) with
      (RoundTrip.fopts d (cfg_groupSeparator c) (format_prefix c) (suffix (props c))
         (disableGroupSeparators (props c)) (intlConfig (props c)) v)
      by (unfold format_options, RoundTrip.fopts, format_prefix; rewrite Hds; reflexivity).
    exact (RoundTrip.formatValue_shows _ ld d _ _ _ _ Hld Hcur Hmin Hfmt v Hv). }
  pose proof (handleOnChange_accepted st text text) as H. cbv zeta in H.
  rewrite Hsv, Hds in H. destruct H as [st' [E1 E2]].
  - exact Hmax.
  - apply render_not_mid_entry; [exact Hv|apply (RoundTrip.format_config_spec _ _ _ Hfmt)].
  - exact Hf.
  - exists st'. split; [exact E1|exact E2].
Qed.

Lemma formatValue_ok (o : FormatValue.FormatValueOptions) (ld : locale_data) :
  resolve_locale (FormatValue.intlConfig o) = Some ld -> FormatValue.decimalScale o = None ->
  exists s, FormatValue.formatValue o = Ok s.
Proof.
  intros Hl Hs. unfold FormatValue.formatValue. cbv zeta.
  assert (E : make_number_format (resolve_locale (FormatValue.intlConfig o))
                (match FormatValue.decimalScale o with Some z => z | None => 0%Z end)
              = Ok {| nf_locale := ld; nf_min_fd := 0 |}) by (rewrite Hs, Hl; reflexivity).
  rewrite E. cbn [rbind].
  repeat match goal with |- exists s, (if ?b then _ else _) = _ => destruct b end;
    eexists; reflexivity.
Qed.

Lemma step_total (st : State) (e : event) (ld : locale_data) :
  resolve_locale (intlConfig (props c)) = Some ld -> exists r, step c st e = Ok r.
Proof.
  intros Hl. unfold step.
  assert (H : exists r, handle c st e = Ok r).
  { destruct e; cbn [handle]; try (eexists; reflexivity).
    - unfold handleOnChange, processChange. cbv zeta.
      destruct (exceeds_max_length _ _); [eexists; reflexivity|].
      destruct (mid_entry _ _); [eexists; reflexivity|].
      destruct (formatValue_ok (format_options c (CleanValue.cleanValue (clean_options c
        (RepositionCursor.modifiedValue (RepositionCursor.repositionCursor
          (RepositionCursor.mkProps (Some (start (selectIndex st))) text (lastKeyStroke st)
             (stateValue st) (cfg_groupSeparator c)))))) None) ld Hl eq_refl) as [f ->].
      eexists; reflexivity.
    - unfold handleOnEndEditing. cbv zeta.
      destruct (_ || _ || _); [eexists; reflexivity|].
      match goal with |- context [FormatValue.formatValue ?o] =>
        destruct (formatValue_ok o ld Hl eq_refl) as [f ->] end.
      eexists; reflexivity. }
  destruct H as [r ->]. eexists. reflexivity.
Qed.

Lemma cleanValue_empty (ds gs pre : str) (ad an da : bool) (lim : nat) :
  CleanValue.cleanValue (CleanValue.mkOptions [] ds gs ad lim an da pre (fun s => s)) = [].
Proof.
  unfold CleanValue.cleanValue. cbn [CleanValue.transformRawValue CleanValue.value
    CleanValue.prefix CleanValue.disableAbbreviations CleanValue.decimalSeparator
    CleanValue.groupSeparator].
  replace (CleanValue.split_sign pre []) with (false, @nil ascii)
    by (unfold CleanValue.split_sign, CleanValue.strip_lit;
        destruct pre; [|cbn [truthy andb starts_with]]; reflexivity).
  replace (CleanValue.split_abbreviation da ds []) with (0, @nil ascii)
    by (unfold CleanValue.split_abbreviation; destruct da; reflexivity).
  replace (CleanValue.strip_suffix gs ds []) with (@nil ascii)
    by (unfold CleanValue.strip_suffix; destruct (truthy _); reflexivity).
  replace (CleanValue.remove_group gs ds []) with (@nil ascii)
    by (unfold CleanValue.remove_group, replace_all; destruct (_ && _); [destruct gs|]; reflexivity).
  replace (CleanValue.split_decimal ds (CleanValue.keep_number_chars ds []))
    with (@nil ascii, @nil ascii, false)
    by (unfold CleanValue.split_decimal; destruct ds; reflexivity).
  reflexivity.
Qed.

Lemma typed_value_empty (st : State) :
  transformRawValue (props c) = None -> typed_value c st [] = [].
Proof.
  intros Ht. unfold typed_value, clean_options. rewrite Ht.
  replace (RepositionCursor.modifiedValue _) with (@nil ascii).
  - apply cleanValue_empty.
  - unfold RepositionCursor.repositionCursor. cbn.
    destruct (_ && _); [|reflexivity]. destruct (RepositionCursor.is_backspace _); [|reflexivity].
    cbn. unfold RepositionCursor.splice1. rewrite firstn_nil, skipn_nil. reflexivity.
Qed.

Lemma exceeds_nil (m : option nat) : exceeds_max_length m [] = false.
Proof. destruct m as [[|n]|]; reflexivity. Qed.

Lemma padTrimValue_exact (v ds : str) (n : nat) :
  padTrimValue v ds (Some (S n)) = []
  \/ exists int f, padTrimValue v ds (Some (S n)) = int ++ ds ++ f /\ length f = S n.
Proof.
  unfold padTrimValue. destruct (truthy v) eqn:Hv; cbn [negb].
  - destruct (has_digit v); cbn [negb]; [|left; reflexivity].
    destruct (split_at_separator ds v) as [int decimals]. cbn [Nat.eqb].
    right. eexists int, _. split; [reflexivity|].
    set (d := match decimals with Some d => d | None => [] end).
    rewrite length_app, repeat_length, length_firstn.
    pose proof (Nat.min_spec (S n) (length d)). lia.
  - left. destruct v; [reflexivity|discriminate].
Qed.

End Lemmas.

(** Counts the [onValueChange] calls of an explicit list of callbacks
    followed by the effect's. *)
Ltac count_notifications :=
  rewrite ?notifications_app, ?notifications_cons, ?selection_effect_silent; reflexivity.

(** ** Properties *)

Section Properties.
Context `{R : LocaleResolver}.
Variable c : Config.

(** C9: in every state the mounted field reaches, whatever the events,
    the state holds a mid-entry value ([''], ['-'] or the decimal
    separator) or a string the formatter produced. *)
Theorem reachable_shown (st : State) : reachable c st -> shown c (stateValue st).
Proof.
  induction 1 as [st Hi|st e st' out _ IH Hs].
  - exact (initial_shown c st Hi).
  - destruct (step_shown c st st' e out Hs) as [E|H]; [rewrite E; exact IH|exact H].
Qed.

(** C12: the field is stable on its own display (spec section 8's round
    trip and idempotence, through the whole change handler): when the raw
    text of a change is the display of a normalized value that fits the
    options, and the last key was not [Backspace], the handler reports the
    value, the display as formatted text, and keeps showing exactly that
    display. The locale may have a currency symbol written first, which
    the prefix replaces. The value has at most 15 digits ([fits_double]),
    where [Number] and [parseFloat] are exact. *)
Theorem change_to_display (st : State) (d : ascii) (ld : locale_data) (v : RoundTrip.normalized) :
  display_config_ok c d ld = true ->
  resolve_locale (intlConfig (props c)) = Some ld ->
  RoundTrip.canonical v = true -> RoundTrip.fits_double v = true ->
  RoundTrip.fits (decimals_limit c) (allowDecimals (props c)) (allowNegativeValue (props c)) v
    = true ->
  exceeds_max_length (maxLength (props c)) (RoundTrip.render d v) = false ->
  RepositionCursor.is_backspace (lastKeyStroke st) = false ->
  let text := RoundTrip.display ld d (format_prefix c) (suffix (props c)) v in
  exists st', handleOnChange c st text
    = Ok (st', [OnValueChange (Some (RoundTrip.render d v))
                  (mkValues (Some (parse_float (replace_first (RoundTrip.render d v) [d] (js "."))))
                     text (RoundTrip.render d v)); OnChangeText text])
    /\ stateValue st' = text.
Proof.
  intros Hc Hl Hv _. exact (handleOnChange_display c st d ld v Hc Hl Hv).
Qed.

(** C10: spec section 8's max length property: a change whose cleaned
    value (minus signs not counted) is longer than [maxLength] leaves the
    shown value, the selection and the change count as they were, and
    [onValueChange] is not called. *)
Theorem max_length_rejects (st : State) (text : str) :
  exceeds_max_length (maxLength (props c)) (typed_value c st text) = true ->
  exists st' out, step c st (ChangeText text) = Ok (st', out)
    /\ stateValue st' = stateValue st /\ selectIndex st' = selectIndex st
    /\ changeCount st' = changeCount st /\ notifications out = 0.
Proof.
  intros H. unfold step. cbn [handle]. rewrite (handleOnChange_rejected c st text H).
  cbn [rbind fst snd]. do 2 eexists. split; [reflexivity|].
  repeat split. count_notifications.
Qed.

(** C18: spec section 7 (c) says a keystroke over [maxLength] does not
    update state, but [processChange] calls [setDirty(true)] before the
    check: on a field not edited yet, every rejected keystroke marks it
    dirty, and the selection effect then moves the caret one past the
    stored selection (past the end of the text when the caret was there). *)
Theorem rejected_keystroke_moves_caret (st : State) (text : str) :
  exceeds_max_length (maxLength (props c)) (typed_value c st text) = true ->
  dirty st = false -> (stateValue st =s? js "-") = false ->
  step c st (ChangeText text)
  = Ok (set_dirty st, [OnChangeText text;
                       SetSelection (start (selectIndex st) + 1) (end_ (selectIndex st) + 1)]).
Proof.
  intros H Hd Hm. unfold step. cbn [handle]. rewrite (handleOnChange_rejected c st text H).
  cbn [rbind fst snd]. unfold selection_effect, deps_changed, set_dirty.
  cbn [stateValue cursor dirty changeCount selectIndex].
  rewrite Hd, str_eqb_refl, Z.eqb_refl, Hm. reflexivity.
Qed.

(** C19: [lastKeyStroke] is set by [onKeyPress] only and never cleared:
    every event other than a key press leaves it as it was.  So a change
    without a key press (a paste) after a [Backspace] is handled as a
    [Backspace] by [repositionCursor] and loses a character. *)
Theorem last_key_kept (st st' : State) (e : event) (out : list output) :
  step c st e = Ok (st', out) -> is_key_press e = false -> lastKeyStroke st' = lastKeyStroke st.
Proof.
  intros Hs Hk. destruct e as [text|sel|key| |text]; [| | discriminate Hk | |];
    unfold step in Hs; cbn [handle] in Hs.
  - unfold handleOnChange, processChange in Hs. cbv zeta in Hs.
    destruct (exceeds_max_length _ _); [cbn [rbind fst] in Hs; injection Hs as <- _; reflexivity|].
    destruct (mid_entry _ _); [cbn [rbind fst] in Hs; injection Hs as <- _; reflexivity|].
    destruct (FormatValue.formatValue _); cbn [rbind] in Hs; [|discriminate].
    destruct (RepositionCursor.cursorPosition _); cbn [fst] in Hs; injection Hs as <- _; reflexivity.
  - cbn [rbind fst] in Hs. injection Hs as <- _. reflexivity.
  - cbn [rbind fst] in Hs. injection Hs as <- _. reflexivity.
  - unfold handleOnEndEditing in Hs. cbv zeta in Hs.
    destruct (_ || _); [cbn [rbind fst] in Hs; injection Hs as <- _; reflexivity|].
    destruct (FormatValue.formatValue _); cbn [rbind fst] in Hs; [|discriminate].
    injection Hs as <- _. reflexivity.
Qed.

(** C11: a change that leaves a mid-entry value ([''], ['-'] or the
    decimal separator) shows it as is, puts the caret after its first
    character and reports [onValueChange(undefined, {float: null,
    formatted: '', value: ''})]. *)
Theorem change_mid_entry (st : State) (text : str) :
  exceeds_max_length (maxLength (props c)) (typed_value c st text) = false ->
  mid_entry (cfg_decimalSeparator c) (typed_value c st text) = true ->
  exists st', handleOnChange c st text
    = Ok (st', [OnValueChange None (mkValues None [] []); OnChangeText text])
    /\ stateValue st' = typed_value c st text /\ selectIndex st' = mkSel 1 1
    /\ dirty st' = true.
Proof.
  intros H1 H2. rewrite (handleOnChange_mid_entry c st text H1 H2).
  eexists. split; [reflexivity|]. repeat split.
Qed.

(** C13: every change event calls [onValueChange] exactly once, unless
    [maxLength] rejects it, in which case not at all (spec section 6:
    once per accepted change). *)
Theorem change_notifies_once (st st' : State) (text : str) (out : list output) :
  step c st (ChangeText text) = Ok (st', out) ->
  notifications out
  = if exceeds_max_length (maxLength (props c)) (typed_value c st text) then 0 else 1.
Proof.
  unfold step. cbn [handle].
  destruct (exceeds_max_length _ _) eqn:E1.
  - rewrite (handleOnChange_rejected c st text E1). cbn [rbind fst snd].
    intros [= _ <-]. count_notifications.
  - destruct (mid_entry (cfg_decimalSeparator c) (typed_value c st text)) eqn:E2.
    + rewrite (handleOnChange_mid_entry c st text E1 E2). cbn [rbind fst snd].
      intros [= _ <-]. count_notifications.
    + destruct (FormatValue.formatValue (format_options c (typed_value c st text) None))
        as [f|err] eqn:E3.
      * destruct (handleOnChange_accepted c st text f E1 E2 E3) as [st1 [-> _]].
        cbn [rbind fst snd]. intros [= _ <-].
        count_notifications.
      * unfold handleOnChange, processChange. unfold typed_value in E1, E2, E3.
        cbv zeta. rewrite E1, E2, E3. discriminate.
Qed.

(** C14: with [formatValueOnBlur: false] the end of editing never calls
    [onValueChange] (spec section 6). *)
Theorem end_editing_silent (st st' : State) (text : str) (out : list output) :
  formatValueOnBlur (props c) = false ->
  handleOnEndEditing c st text = Ok (st', out) -> notifications out = 0.
Proof.
  intros Hb. unfold handleOnEndEditing. cbv zeta.
  destruct (_ || _ || _); [intros [= _ <-]; reflexivity|].
  destruct (FormatValue.formatValue _); cbn [rbind]; [|discriminate].
  rewrite Hb. intros [= _ <-]. reflexivity.
Qed.

(** C17: the [cursor] state, a dependency of the selection effect, is
    never set: it is 0 in every reachable state. *)
Theorem reachable_cursor_zero (st : State) : reachable c st -> cursor st = 0%Z.
Proof.
  induction 1 as [st Hi|st e st' out _ IH Hs].
  - unfold initial_state in Hi. cbv zeta in Hi.
    destruct (defaultValue (props c)), (value (props c));
      try destruct (FormatValue.formatValue _); cbn [rbind] in Hi; try discriminate;
      injection Hi as <-; reflexivity.
  - destruct (step_monotone c st st' e out Hs) as (_ & _ & ->). exact IH.
Qed.

(** C23: spec section 7: no runtime text makes the component throw: when
    the locale of the props resolves, every sequence of events is
    processed to the end ([Intl.NumberFormat] is built with
    [minimumFractionDigits: 0] on every change and blur). *)
Theorem run_total (ld : locale_data) (st : State) (es : list event) :
  resolve_locale (intlConfig (props c)) = Some ld -> exists r, run c st es = Ok r.
Proof.
  intros Hl. revert st. induction es as [|e es IH]; intros st; cbn [run].
  - eexists; reflexivity.
  - destruct (step_total c st e ld Hl) as [[st1 o1] ->]. cbn [rbind fst].
    destruct (IH st1) as [[st2 o2] ->]. eexists; reflexivity.
Qed.

(** C24: whatever state the field is in, it can be cleared: a change to
    the empty text leads to a state showing [''] (without a
    [transformRawValue] hook, which could map [''] to anything). *)
Theorem eventually_cleared (st : State) :
  transformRawValue (props c) = None -> eventually c (fun s => stateValue s = []) st.
Proof.
  intros Ht. pose proof (handleOnChange_mid_entry c st []) as H. cbv zeta in H.
  rewrite (typed_value_empty c st Ht) in H. specialize (H (exceeds_nil _) eq_refl).
  eapply (ev_step c _ st (ChangeText [])); [unfold step; cbn [handle]; rewrite H; reflexivity|].
  apply ev_now. reflexivity.
Qed.

(** C25: the selection effect's feedback stops: a selection change (the
    echo of [setSelection]) and a key press change neither [stateValue],
    [cursor], [dirty] nor [changeCount], so they call back nothing and do
    not re-run the effect. *)
Theorem selection_change_quiet (st : State) (sel : selection) (k : str) :
  step c st (SelectionChange sel) = Ok (set_select st sel, [])
  /\ step c st (KeyPress k) = Ok (set_key st k, []).
Proof.
  unfold step, selection_effect, deps_changed. cbn.
  rewrite str_eqb_refl, Z.eqb_refl, eqb_reflx, Nat.eqb_refl. split; reflexivity.
Qed.

(** C26: spec section 6's settle pass: with [fixedDecimalLength] [n > 0]
    and no [decimalScale], the value reported at the end of editing has
    exactly [n] digits after the decimal separator (or is empty when the
    text had no digit). *)
Theorem end_editing_fixed_decimals (st st' : State) (text : str) (out : list output) (n : nat)
  (nv : str) (vals : OnChangeValues) :
  fixedDecimalLength (props c) = Some (S n) -> decimalScale (props c) = None ->
  handleOnEndEditing c st text = Ok (st', out) -> In (OnValueChange (Some nv) vals) out ->
  nv = [] \/ exists int f, nv = int ++ cfg_decimalSeparator c ++ f /\ length f = S n.
Proof.
  intros Hn Hs. unfold handleOnEndEditing. cbv zeta. rewrite Hs, Hn.
  destruct (_ || _ || _); [intros [= _ <-] [H|[]]; discriminate|].
  destruct (FormatValue.formatValue _); cbn [rbind]; [|discriminate].
  intros [= _ <-]. destruct (formatValueOnBlur (props c)); cbn [app In];
    [|intros [H|[]]; discriminate].
  intros [H|[H|[]]]; [|discriminate]. injection H as <- _.
  destruct (padTrimValue_exact (fixedDecimalValue (CleanValue.cleanValue (clean_options c text))
              (cfg_decimalSeparator c) (Some (S n))) (cfg_decimalSeparator c) n)
    as [E|(int & f & E & L)]; [left; exact E|right; exists int, f; split; assumption].
Qed.

(** C22: the type of what [processChange] works with: whatever the raw
    text, the key and the caret, the value the component cleans from a
    change is ["-"] (the mid-entry passthrough) or a string of the
    normalized-value grammar of spec section 3 for the configured decimal
    separator: an optional sign, present only when [allowNegativeValue],
    digits, and optionally the separator followed by digits. *)
Theorem typed_value_normalized (st : State) (text : str) :
  typed_value c st text = js "-"
  \/ RoundTrip.normalized_string (cfg_decimalSeparator c) (allowNegativeValue (props c))
       (typed_value c st text).
Proof. unfold typed_value. apply RoundTrip.cleanValue_normalized. Qed.

End Properties.

(** ** Prop changes and the rendered text *)

(** C27: when the [value] prop of a controlled field goes away (and there
    is no [defaultValue]), the effect of lines 276-280 clears the state and
    the field renders [''] (the selection effect may still run). *)
Theorem value_prop_cleared `{R : LocaleResolver} (c c' : Config) (u : str) (st : State) :
  value (props c) = Some u -> value (props c') = None -> defaultValue (props c') = None ->
  fst (props_change c c' st) = set_value st []
  /\ getRenderValue c' (fst (props_change c c' st)) = Ok [].
Proof.
  intros Hu Hv Hd. unfold props_change. rewrite Hu, Hv. cbn [opt_str_eqb andb fst].
  unfold value_effect. rewrite Hv, Hd. split; [reflexivity|].
  unfold getRenderValue. rewrite Hv. reflexivity.
Qed.

(** A controlled field renders its [value] prop padded to
    [decimalScale] only until the first edit: once [dirty], the scale is
    dropped ("1.5" with [decimalScale: 2] shows "1.50", then "1.5"); spec
    section 4.2 pads whenever the scale is set. *)
Example controlled_display_drops_scale :
  getRenderValue (R := example_resolver) (controlled_config (Some (js "1.5")) (Some 2%Z))
    (fresh_state (js "1.50") 0) = Ok (js "1.50")
  /\ getRenderValue (R := example_resolver) (controlled_config (Some (js "1.5")) (Some 2%Z))
       (mkState (js "1.50") true 0 1 None (mkSel 0 0)) = Ok (js "1.5").
Proof. split; reflexivity. Qed.

(** The example screen (src/src/app/example.tsx) in the reference
    en-US locale: the currency symbol becomes the prefix, so typing
    [1234.5] shows ["$1,234.5"] and reports the value ["1234.5"], and
    typing [-5] shows ["-$5"]. *)
Example example_screen_dollars :
  (let! c := configure (R := example_resolver) (with_defaults example_screen) in
   let! st0 := initial_state (R := example_resolver) c in
   let! r1 := run (R := example_resolver) c st0 [ChangeText (js "1234.5")] in
   let! r2 := run (R := example_resolver) c st0 [ChangeText (js "-"); ChangeText (js "-5")] in
   Ok (stateValue (fst r1), filter is_value_change (snd r1), stateValue (fst r2)))
  = Ok (js "$1,234.5",
        [OnValueChange (Some (js "1234.5"))
           (mkValues (Some (JNum false (js "1234") (js "5"))) (js "$1,234.5") (js "1234.5"))],
        js "-$5").
Proof. vm_compute. reflexivity. Qed.

(** ** What the component does where the spec says otherwise *)

(** Typing [-] and then the decimal separator cleans to ["-."],
    which is not a mid-entry value; [Number("-.")] is [NaN] and the
    field shows ["NaN."], reporting [float: NaN]. *)
Example minus_point_shows_NaN :
  exists st out,
    run (R := example_resolver) (example_config None []) (fresh_state [] 0)
      [ChangeText (js "-"); ChangeText (js "-.")] = Ok (st, out)
    /\ stateValue st = js "NaN."
    /\ In (OnValueChange (Some (js "-.")) (mkValues (Some JNaN) (js "NaN.") (js "-."))) out.
Proof. vm_compute. do 2 eexists. split; [reflexivity|]. split; [reflexivity|]. simpl; tauto. Qed.

(** Spec section 8's cursor scenario: from ["1,234"] with the caret
    at 5, [Backspace] (the input surface reports ["1,23"]) gives ["123"]
    with [selectIndex] 2 and the caret applied at 3, where the spec
    expects 4. *)
Example spec_cursor_scenario :
  exists out,
    run (R := example_resolver) (example_config None [])
      (mkState (js "1,234") true 0 1 None (mkSel 5 5))
      [KeyPress (js "Backspace"); ChangeText (js "1,23")]
    = Ok (mkState (js "123") true 0 2 (Some (js "Backspace")) (mkSel 2 2), out)
    /\ last out (OnFocus) = SetSelection 3 3.
Proof. vm_compute. eexists. split; reflexivity. Qed.

(** [lastKeyStroke] is never cleared: a later change without a key
    press (a paste of ["12345"]) is handled as a [Backspace] and loses
    the character before the caret, showing ["1,245"]. *)
Example paste_after_backspace :
  exists st out,
    run (R := example_resolver) (example_config None [])
      (mkState (js "1,234") true 0 1 None (mkSel 5 5))
      [KeyPress (js "Backspace"); ChangeText (js "1,23"); SelectionChange (mkSel 3 3);
       ChangeText (js "12345")] = Ok (st, out)
    /\ stateValue st = js "1,245".
Proof. vm_compute. do 2 eexists. split; reflexivity. Qed.

(** With a prefix, the first digit typed into an empty field moves
    the caret by [prefix.length + 1] (the spec: by the prefix length), and
    the effect adds one more: the caret is set at 3 in ["$1"]. *)
Example prefix_caret_past_end :
  step (R := example_resolver) (example_config None (js "$")) (fresh_state [] 0)
    (ChangeText (js "1"))
  = Ok (mkState (js "$1") true 0 1 None (mkSel 2 2),
        [OnValueChange (Some (js "1")) (mkValues (Some (JNum false (js "1") [])) (js "$1") (js "1"));
         OnChangeText (js "1"); SetSelection 3 3]).
Proof. reflexivity. Qed.

(** ** Witnesses *)

Lemma rejected_keystroke_moves_caret_witness :
  step (R := example_resolver) (example_config (Some 3) []) (fresh_state (js "123") 3)
    (ChangeText (js "1234"))
  = Ok (mkState (js "123") true 0 0 None (mkSel 3 3),
        [OnChangeText (js "1234"); SetSelection 4 4]).
Proof.
  exact (rejected_keystroke_moves_caret (R := example_resolver) (example_config (Some 3) [])
           (fresh_state (js "123") 3) (js "1234") eq_refl eq_refl eq_refl).
Defined.

Lemma last_key_kept_witness :
  exists st' out,
    step (R := example_resolver) (example_config None [])
      (mkState (js "1,23") true 0 2 (Some (js "Backspace")) (mkSel 3 3)) (ChangeText (js "12345"))
    = Ok (st', out)
    /\ lastKeyStroke st' = Some (js "Backspace").
Proof.
  do 2 eexists. split; [reflexivity|].
  exact (last_key_kept (R := example_resolver) (example_config None [])
           (mkState (js "1,23") true 0 2 (Some (js "Backspace")) (mkSel 3 3)) _
           (ChangeText (js "12345")) _ eq_refl eq_refl).
Defined.

Lemma reachable_shown_witness :
  reachable (R := example_resolver) (example_config None []) typed_1234
  /\ shown (R := example_resolver) (example_config None []) (stateValue typed_1234).
Proof.
  assert (H : reachable (R := example_resolver) (example_config None []) typed_1234).
  { apply (reach_step _ (fresh_state [] 0) (ChangeText (js "1234")) typed_1234
             [OnValueChange (Some (js "1234"))
                (mkValues (Some (JNum false (js "1234") [])) (js "1,234") (js "1234"));
              OnChangeText (js "1234"); SetSelection 1 1]).
    - apply reach_init. reflexivity.
    - reflexivity. }
  split; [exact H|]. exact (reachable_shown _ typed_1234 H).
Defined.

Lemma reachable_cursor_zero_witness :
  reachable (R := example_resolver) (example_config None []) typed_1234
  /\ cursor typed_1234 = 0%Z.
Proof.
  assert (H : reachable (R := example_resolver) (example_config None []) typed_1234).
  { apply (reach_step _ (fresh_state [] 0) (ChangeText (js "1234")) typed_1234
             [OnValueChange (Some (js "1234"))
                (mkValues (Some (JNum false (js "1234") [])) (js "1,234") (js "1234"));
              OnChangeText (js "1234"); SetSelection 1 1]).
    - apply reach_init. reflexivity.
    - reflexivity. }
  split; [exact H|]. exact (reachable_cursor_zero _ typed_1234 H).
Defined.

Lemma max_length_rejects_witness :
  exceeds_max_length (Some 3) (typed_value (example_config (Some 3) []) (fresh_state (js "123") 3)
                                 (js "1234")) = true
  /\ exists st' out,
       step (R := example_resolver) (example_config (Some 3) []) (fresh_state (js "123") 3)
         (ChangeText (js "1234")) = Ok (st', out)
       /\ stateValue st' = js "123" /\ selectIndex st' = mkSel 3 3
       /\ changeCount st' = 0 /\ notifications out = 0.
Proof.
  split; [reflexivity|].
  exact (max_length_rejects (R := example_resolver) (example_config (Some 3) [])
           (fresh_state (js "123") 3) (js "1234") eq_refl).
Defined.

Lemma change_mid_entry_witness :
  mid_entry (js ".") (typed_value (example_config None []) (fresh_state [] 0) (js "-")) = true
  /\ exists st', handleOnChange (R := example_resolver) (example_config None [])
                   (fresh_state [] 0) (js "-")
       = Ok (st', [OnValueChange None (mkValues None [] []); OnChangeText (js "-")])
       /\ stateValue st' = js "-" /\ selectIndex st' = mkSel 1 1 /\ dirty st' = true.
Proof.
  split; [reflexivity|].
  exact (change_mid_entry (R := example_resolver) (example_config None [])
           (fresh_state [] 0) (js "-") eq_refl eq_refl).
Defined.

Lemma change_to_display_witness :
  display_config_ok (example_config None []) "." en_US = true
  /\ exists st', handleOnChange (R := example_resolver) (example_config None [])
                   (fresh_state (js "1,234") 5) (js "1,234.5")
       = Ok (st', [OnValueChange (Some (js "1234.5"))
                     (mkValues (Some (JNum false (js "1234") (js "5"))) (js "1,234.5")
                        (js "1234.5")); OnChangeText (js "1,234.5")])
       /\ stateValue st' = js "1,234.5".
Proof.
  split; [reflexivity|].
  exact (change_to_display (R := example_resolver) (example_config None [])
           (fresh_state (js "1,234") 5) "." en_US
           (RoundTrip.mkNormalized false (js "1234") (Some (js "5")))
           eq_refl eq_refl eq_refl eq_refl eq_refl eq_refl eq_refl).
Defined.

Lemma change_notifies_once_witness :
  step (R := example_resolver) (example_config None []) (fresh_state [] 0) (ChangeText (js "1234"))
  = Ok (typed_1234, [OnValueChange (Some (js "1234"))
                       (mkValues (Some (JNum false (js "1234") [])) (js "1,234") (js "1234"));
                     OnChangeText (js "1234"); SetSelection 1 1])
  /\ notifications [OnValueChange (Some (js "1234"))
                       (mkValues (Some (JNum false (js "1234") [])) (js "1,234") (js "1234"));
                     OnChangeText (js "1234"); SetSelection 1 1] = 1.
Proof.
  split; [reflexivity|].
  exact (change_notifies_once (R := example_resolver) (example_config None []) (fresh_state [] 0)
           typed_1234 (js "1234") _ eq_refl).
Defined.

Lemma end_editing_silent_witness :
  formatValueOnBlur (props silent_config) = false
  /\ handleOnEndEditing (R := example_resolver) silent_config (fresh_state (js "1,234") 5) (js "1,234.5")
     = Ok (mkState (js "1,234.5") false 0 0 None (mkSel 5 5), [OnEndEditing])
  /\ notifications [OnEndEditing] = 0.
Proof.
  split; [reflexivity|]. split; [reflexivity|].
  exact (end_editing_silent (R := example_resolver) silent_config (fresh_state (js "1,234") 5)
           (mkState (js "1,234.5") false 0 0 None (mkSel 5 5)) (js "1,234.5") [OnEndEditing]
           eq_refl eq_refl).
Defined.


Lemma run_total_witness :
  @resolve_locale example_resolver (intlConfig (props (example_config None []))) = Some en_US
  /\ exists r, run (R := example_resolver) (example_config None []) (fresh_state [] 0)
                 [KeyPress (js "1"); ChangeText (js "1"); EndEditing (js "1")] = Ok r.
Proof.
  split; [reflexivity|].
  exact (run_total (R := example_resolver) (example_config None []) en_US (fresh_state [] 0)
           [KeyPress (js "1"); ChangeText (js "1"); EndEditing (js "1")] eq_refl).
Defined.

Lemma eventually_cleared_witness :
  transformRawValue (props (example_config None [])) = None
  /\ eventually (R := example_resolver) (example_config None []) (fun s => stateValue s = [])
       typed_1234.
Proof.
  split; [reflexivity|].
  exact (eventually_cleared (R := example_resolver) (example_config None []) typed_1234 eq_refl).
Defined.

Lemma end_editing_fixed_decimals_witness :
  handleOnEndEditing (R := example_resolver) fixed_config (fresh_state (js "1.5") 3) (js "1.5")
  = Ok (mkState (js "1.50") false 0 0 None (mkSel 3 3),
        [OnValueChange (Some (js "1.50"))
           (mkValues (Some (JNum false (js "1") (js "50"))) (js "1.50") (js "1.50"));
         OnEndEditing])
  /\ (js "1.50" = [] \/ exists int f, js "1.50" = int ++ js "." ++ f /\ length f = 2).
Proof.
  split; [reflexivity|].
  exact (end_editing_fixed_decimals (R := example_resolver) fixed_config (fresh_state (js "1.5") 3)
           (mkState (js "1.50") false 0 0 None (mkSel 3 3)) (js "1.5") _ 1 (js "1.50") _
           eq_refl eq_refl eq_refl (or_introl eq_refl)).
Defined.

Lemma value_prop_cleared_witness :
  value (props (controlled_config (Some (js "12")) None)) = Some (js "12")
  /\ fst (props_change (controlled_config (Some (js "12")) None) (example_config None [])
          (mkState (js "12") true 0 2 None (mkSel 2 2)))
     = mkState [] true 0 2 None (mkSel 2 2)
  /\ getRenderValue (R := example_resolver) (example_config None [])
       (mkState [] true 0 2 None (mkSel 2 2)) = Ok [].
Proof.
  split; [reflexivity|].
  destruct (value_prop_cleared (R := example_resolver) (controlled_config (Some (js "12")) None)
              (example_config None []) (js "12") (mkState (js "12") true 0 2 None (mkSel 2 2))
              eq_refl eq_refl eq_refl) as [E1 E2].
  rewrite E1 in E2. split; [exact E1|exact E2].
Defined.

End CurrencyInput.
