(* ===== verification/App.v ===== *)
(** * App: the example app of src/src/app and the package's exports

    The app is an expo-router project.  [_layout.tsx] declares a [Stack]
    with the screens ['example'] and ['index'].  expo-router maps a screen
    name to the file of that name under [app/] and renders its default
    export with no props.
    - [example.tsx] renders [CurrencyInput] with
      [intlConfig={ locale: 'en-US', currency: 'USD' }]
      ([CurrencyInputConfig.example_screen]).
    - [index.ts] is the package's entry point.  Its default export is
      [CurrencyInput] itself, so the ['index'] screen is the component with
      no props.  It also re-exports [formatValue], [cleanValue] and the
      props types ([exports]).

    [mount_route] computes the first render of both screens: each mounts
    without an exception, in a configuration that meets the conditions of
    the component's display theorems. *)

From Stdlib Require Import Ascii String List Arith Lia ZArith Bool.
Import ListNotations.
From S2P Require Import Prelude Intl Format Clean RoundTrip Props Component.
Open Scope js_scope.

Module ExampleApp.
Import RoundTrip CurrencyInputConfig CurrencyInput.

(** ** The package's exports (index.ts) *)

(** What [index.ts] exports: the component (its render prologue, initial
    state and event handler), [formatValue] and [cleanValue]. *)
Record Package : Type := mkPackage {
  pkg_configure : RawProps -> result Config;
  pkg_initial : Config -> result State;
  pkg_step : Config -> State -> event -> result (State * list output);
  pkg_formatValue : FormatValue.FormatValueOptions -> result str;
  pkg_cleanValue : CleanValue.CleanValueOptions -> str
}.

Section Exports.
Context `{R : LocaleResolver}.

Definition exports : Package :=
  mkPackage (fun r => configure (with_defaults r)) initial_state step
    FormatValue.formatValue CleanValue.cleanValue.

End Exports.

(** ** Routes (_layout.tsx) *)

(** The files under [app/] that are screens. *)
Inductive route : Type := Example | Index.

(** [<Stack.Screen name='example'/>] and [<Stack.Screen name='index'/>],
    in the order of the layout. *)
Definition Layout : list str := [js "example"; js "index"].

(** expo-router's file-based resolution of a screen name. *)
Definition route_of_name (n : str) : option route :=
  if n =s? js "example" then Some Example
  else if n =s? js "index" then Some Index
  else None.

(** [export default CurrencyInput]: expo-router renders the default
    export of index.ts with no props, so every prop is [undefined]. *)
Definition index_props : RawProps :=
  mkRawProps None None None None None None None None None None None None None
    None None None None None None None.

(** The props the screen a [Stack.Screen] names renders the component
    with: those of example.tsx, or none for index.ts. *)
Definition route_props (r : route) : RawProps :=
  match r with
  | Example => example_screen
  | Index => index_props
  end.

(** Mounting a screen: the first render's prologue and initial state. *)
Definition mount (P : Package) (r : route) : result (Config * State) :=
  let! c := pkg_configure P (route_props r) in
  let! st := pkg_initial P c in
  Ok (c, st).

(** What each screen shows for a number: en-US with [$] as the prefix on
    the example screen, en-US without prefix on the index screen. *)
Definition route_locale (r : route) : locale_data :=
  match r with
  | Example => with_currency_pattern en_US {| cur_symbol := js "$"; cur_before := true; cur_space := [] |}
  | Index => en_US
  end.

Definition route_prefix (r : route) : str :=
  match r with Example => js "$" | Index => [] end.

(** ** Properties *)

(** Both screens mount in the example locales, with the configuration the
    display theorems of [RoundTrip] and [Component] ask for. *)
Example mount_route (r : route) :
  exists c st, mount (exports (R := example_resolver)) r = Ok (c, st)
  /\ display_config_ok c "." (route_locale r) = true
  /\ @resolve_locale example_resolver (intlConfig (props c)) = Some (route_locale r)
  /\ decimals_limit c = 2 /\ allowDecimals (props c) = true
  /\ allowNegativeValue (props c) = true /\ maxLength (props c) = None
  /\ format_prefix c = route_prefix r /\ suffix (props c) = [].
Proof. destruct r; (do 2 eexists; split; [reflexivity|repeat split]). Qed.

End ExampleApp.
